(** * urlShortner-API: the URL service (src/services/urlService.js)

    A shallow embedding of [UrlService] and of the [Url] schema
    (src/models/Url.js), together with the properties of the resolution
    cache, the click recorder, the analytics aggregator and the lifecycle
    operations.

    After the service come its callers: the handlers of the controller
    (src/controllers/urlController.js), the validator
    (src/middleware/urlValidator.js) and the two creation routes behind it
    (src/routes/urlRoutes.js).

    Conventions of the embedding:
    - a [Date] is its number of milliseconds since the epoch, a [Z];
      an operation reads the clock once ([now]);
    - the Mongo collection is a finite map from [urlCode] (its unique index)
      to documents, the service's [Map] cache a finite map of its own;
    - a thrown [Error] is its message; [async] functions are run to
      completion one after the other (one operation at a time);
    - [undefined]/[null] are [None]. *)

From Stdlib Require Import ZArith Lia List Ascii String Bool SpecFloat.
From stdpp Require Import base option gmap strings list pretty sorting.

Local Open Scope string_scope.
Local Open Scope list_scope.
Local Open Scope Z_scope.

(** ** Values the service passes around *)

(** A user id reaches the service either as a Mongo [ObjectId] (API-key
    authentication: [user._id]) or as a string (JWT authentication: the
    decoded [userId]).  [toString] is their common string form. *)
Inductive Id : Type :=
| ObjectId (hex : string)
| IdString (s : string).

Definition toString (i : Id) : string :=
  match i with ObjectId h => h | IdString s => s end.

(** One entry of [analytics] (Url.js, the [analytics] array). *)
Record ClickEvent : Type := mkClick {
  timestamp : Z;
  ipAddress : option string;
  userAgent : option string;
  referer : option string
}.

(** A document of the [Url] model. *)
Record Url : Type := mkUrl {
  userId : Id;
  urlCode : string;
  longUrl : string;
  shortUrl : string;
  qrCode : string;
  clicks : nat;
  analytics : list ClickEvent;
  createdAt : Z;
  expiresAt : option Z;
  isExpired : bool
}.

Definition set_isExpired (b : bool) (u : Url) : Url :=
  mkUrl (userId u) (urlCode u) (longUrl u) (shortUrl u) (qrCode u)
        (clicks u) (analytics u) (createdAt u) (expiresAt u) b.

(** [{ $inc: { clicks: 1 }, $push: { analytics: ev } }] *)
Definition inc_push (ev : ClickEvent) (u : Url) : Url :=
  mkUrl (userId u) (urlCode u) (longUrl u) (shortUrl u) (qrCode u)
        (S (clicks u)) (analytics u ++ [ev]) (createdAt u) (expiresAt u)
        (isExpired u).

(** What the redirect handler hands to [trackClick]. *)
Record ReqData : Type := mkReq {
  ip : option string;
  req_userAgent : option string;
  req_referer : option string
}.

(** The service's world: the collection and [this.cache]. *)
Record State : Type := mkState {
  store : gmap string Url;
  cache : gmap string Url
}.

Definition init : State := mkState ∅ ∅.

(** The outcome of a call: a value, or a thrown [Error] with its message. *)
Inductive Result (A : Type) : Type :=
| Ok (a : A)
| Throw (message : string).
Arguments Ok {A} a.
Arguments Throw {A} message.

(** [try { ... } catch (error) { throw new Error(`${prefix}${error.message}`) }] *)
Definition rethrow {A} (prefix : string) (r : Result A) : Result A :=
  match r with
  | Ok a => Ok a
  | Throw m => Throw (prefix +:+ m)
  end.

(** ** Strings *)

(** [s.includes(sub)] *)
Fixpoint includes (s sub : string) : bool :=
  String.prefix sub s ||
  match s with
  | EmptyString => false
  | String _ s' => includes s' sub
  end.

(** The character class [[a-zA-Z0-9-_]]. *)
Definition aliasChar (c : ascii) : bool :=
  let n := nat_of_ascii c in
  ((97 <=? n) && (n <=? 122))%nat || ((65 <=? n) && (n <=? 90))%nat ||
  ((48 <=? n) && (n <=? 57))%nat || (n =? 45)%nat || (n =? 95)%nat.

Fixpoint allChars (p : ascii -> bool) (s : string) : bool :=
  match s with
  | EmptyString => true
  | String c s' => p c && allChars p s'
  end.

(** [/^[a-zA-Z0-9-_]+$/.test(s)] *)
Definition aliasRegex (s : string) : bool :=
  negb (s =? "")%string && allChars aliasChar s.

(** JavaScript truthiness of an optional string: [undefined], [null] and the
    empty string are falsy. *)
Definition truthy (s : option string) : bool :=
  match s with
  | Some s => negb (s =? "")%string
  | None => false
  end.

(** ** The messages of the errors *)

Definition msgAliasFormat : string :=
  "Custom alias can only contain letters, numbers, hyphens, and underscores".
Definition msgAliasInUse : string := "Custom alias already in use".
Definition msgNotFound : string := "URL not found".
Definition msgExpired : string := "URL has expired".
Definition msgNoSuchUrl : string := "No such URL".
Definition msgNotAuthorized : string := "Not authorized".
(** What V8 reports for [undefined.includes(...)]. *)
Definition msgIncludesOfUndefined : string :=
  "Cannot read properties of undefined (reading 'includes')".

Definition createPrefix : string := "Error creating short URL: ".
Definition getPrefix : string := "Error retrieving URL: ".
Definition statsPrefix : string := "Error getting URL stats: ".

(** The failures as the callers of the service see them. *)
Definition InvalidAliasFormat : string := createPrefix +:+ msgAliasFormat.
Definition AliasAlreadyInUse : string := createPrefix +:+ msgAliasInUse.
Definition NotFound : string := getPrefix +:+ msgNotFound.
Definition Expired : string := getPrefix +:+ msgExpired.

(** ** The store: the [Url] model of mongoose *)

(** The [pre('save')] hook of the schema. *)
Definition preSave (now : Z) (u : Url) : Url :=
  match expiresAt u with
  | Some t => if t <? now then set_isExpired true u else u
  | None => u
  end.

(** The [required: true] string paths, in schema order; a required string
    path rejects the empty string. *)
Definition requiredPaths (u : Url) : list (string * string) :=
  [("urlCode", urlCode u); ("longUrl", longUrl u);
   ("shortUrl", shortUrl u); ("qrCode", qrCode u)].

Definition missingPaths (u : Url) : list string :=
  map fst (List.filter (fun p => (snd p =? "")%string) (requiredPaths u)).

Definition msgValidation (paths : list string) : string :=
  "Url validation failed: " +:+
  String.concat ", "
    (map (fun p => p +:+ ": Path `" +:+ p +:+ "` is required.") paths).

(** The validation error of a document whose [expiresAt] was given an
    Invalid Date: the schema could not cast it when the document was built,
    so this error precedes those of the required paths (the text is
    mongoose's). *)
Definition msgCastDate : string :=
  "expiresAt: Cast to date failed for value " +:+ String "034" "Invalid Date" +:+
  String "034" " (type Date) at path " +:+ String "034" "expiresAt" +:+ String "034" "".

Definition msgInvalidDate (paths : list string) : string :=
  "Url validation failed: " +:+
  String.concat ", "
    (msgCastDate :: map (fun p => p +:+ ": Path `" +:+ p +:+ "` is required.") paths).

(** The unique index on [urlCode] refusing an insert. *)
Definition msgDuplicateKey (code : string) : string :=
  "E11000 duplicate key error: urlCode " +:+ code.

(** [await url.save()] on a new document: validation, the [pre('save')]
    hook, then the insert under the unique index. *)
Definition save_new (now : Z) (u : Url) (s : gmap string Url)
  : Result (Url * gmap string Url) :=
  match missingPaths u with
  | [] =>
      let u' := preSave now u in
      match s !! urlCode u with
      | Some _ => Throw (msgDuplicateKey (urlCode u))
      | None => Ok (u', <[urlCode u := u']> s)
      end
  | paths => Throw (msgValidation paths)
  end.

(** [await url.save()] on a document loaded under [code]: the hook runs and
    the document is written back (its required paths were validated when it
    was inserted). *)
Definition save_loaded (now : Z) (code : string) (u : Url) (s : gmap string Url)
  : Url * gmap string Url :=
  let u' := preSave now u in (u', <[code := u']> s).

(** [Url.findOneAndUpdate({ urlCode }, { $inc, $push }, { new: true })]:
    one store operation, returning the updated document or [null]. *)
Definition findOneAndUpdate (code : string) (ev : ClickEvent) (s : gmap string Url)
  : option Url * gmap string Url :=
  match s !! code with
  | Some u => let u' := inc_push ev u in (Some u', <[code := u']> s)
  | None => (None, s)
  end.

(** ** Numbers

    A JavaScript number is an IEEE 754 binary64 float: [spec_float] at
    precision 53 with exponents below 1024. *)

(** The number nearest to an integer (exact below [2^53]). *)
Definition num (z : Z) : spec_float := binary_normalize 53 1024 z 0 false.

(** [x / y], [x * y] and [x + y] *)
Definition num_div (x y : spec_float) : spec_float := SFdiv 53 1024 x y.
Definition num_mul (x y : spec_float) : spec_float := SFmul 53 1024 x y.
Definition num_add (x y : spec_float) : spec_float := SFadd 53 1024 x y.

(** The largest time value of a [Date], in milliseconds. *)
Definition maxTime : Z := 8640000000000000.

(** [new Date(v)] for a number [v]: the time value is [v] without its
    fraction when it is finite and within [maxTime] of the epoch;
    otherwise the date is an Invalid Date ([None]). *)
Definition newDate (v : spec_float) : option Z :=
  match v with
  | S754_zero _ => Some 0
  | S754_finite s m e =>
      let inRange :=
        if 0 <=? e then Z.pos m * 2 ^ e <=? maxTime
        else Z.pos m <=? maxTime * 2 ^ (- e) in
      let t := if 0 <=? e then Z.pos m * 2 ^ e else Z.pos m / 2 ^ (- e) in
      if inRange then Some (if s then - t else t) else None
  | _ => None
  end.

(** [Math.ceil(x)] *)
Definition Math_ceil (x : spec_float) : spec_float :=
  match x with
  | S754_finite s m e =>
      if 0 <=? e then x
      else
        let q := Z.pos m / 2 ^ (- e) in
        if s then (if q =? 0 then S754_zero true else num (- q))
        else num (if Z.pos m mod 2 ^ (- e) =? 0 then q else q + 1)
  | _ => x
  end.

(** [Math.max(x, y)] *)
Definition Math_max (x y : spec_float) : spec_float :=
  match SFcompare x y with
  | None => S754_nan
  | Some Lt => y
  | Some Gt => x
  | Some Eq => match x with S754_zero true => y | _ => x end
  end.

(** The integer [n] of [Number.prototype.toFixed] at two fraction digits,
    for a number that is not negative: [n / 100 - x] is as close to zero as
    possible, and of two such [n] the larger is taken. *)
Definition hundredths (m : positive) (e : Z) : Z :=
  if 0 <=? e then 100 * Z.pos m * 2 ^ e
  else (200 * Z.pos m + 2 ^ (- e)) / 2 ^ (- e + 1).

(** The digits of [n], with the point before the last two. *)
Definition fixed2 (n : Z) : string :=
  pretty (n / 100) +:+ "." +:+ pretty (n mod 100 / 10) +:+ pretty (n mod 10).

(** [x.toFixed(2)] for a finite [x] with [0 <= x < 10^21]; outside of this
    range the method takes other routes, which are left out. *)
Definition toFixed2 (x : spec_float) : option string :=
  match x with
  | S754_zero false => Some (fixed2 0)
  | S754_finite false m e =>
      if hundredths m e <? 10 ^ 23 then Some (fixed2 (hundredths m e)) else None
  | _ => None
  end.

(** ** The service *)

Section UrlService.

(** [config.baseUrl] and [QRCode.toDataURL]: the configuration constant and
    the image codec are not part of the service. *)
Variable baseUrl : string.
Variable toDataURL : string -> string.

(** [new Url({ urlCode, longUrl, shortUrl, qrCode, expiresAt, userId })]:
    the schema casts [userId] to an [ObjectId] and fills in the defaults. *)
Definition newUrl (now : Z) (code long short qr : string)
    (expires : option Z) (uid : Id) : Url :=
  mkUrl (ObjectId (toString uid)) code long short qr 0%nat [] now expires false.

(** The body of the [try] of [createShortUrl]. *)
Definition createShortUrl_try (now : Z) (nanoid8 : string)
    (long : string) (customAlias : option string) (expires : option Z)
    (uid : Id) (st : State) : Result Url * State :=
  let alias := default "" customAlias in
  let code := if truthy customAlias then alias else nanoid8 in
  if truthy customAlias && negb (aliasRegex alias) then
    (Throw msgAliasFormat, st)
  else if truthy customAlias && bool_decide (is_Some (store st !! alias)) then
    (Throw msgAliasInUse, st)
  else
    let short := baseUrl +:+ "/" +:+ code in
    let qr := toDataURL short in
    let url := newUrl now code long short qr expires uid in
    match save_new now url (store st) with
    | Throw m => (Throw m, st)
    | Ok (url', s') => (Ok url', mkState s' (<[code := url']> (cache st)))
    end.

(** [createShortUrl(longUrl, customAlias, expiresAt, userId)]; [nanoid8] is
    what [nanoid(8)] draws when it is called. *)
Definition createShortUrl (now : Z) (nanoid8 : string)
    (long : string) (customAlias : option string) (expires : option Z)
    (uid : Id) (st : State) : Result Url * State :=
  let '(r, st') := createShortUrl_try now nanoid8 long customAlias expires uid st in
  (rethrow createPrefix r, st').

(** [createShortUrl] when the [expiresAt] it is given is an Invalid Date:
    the guards on the alias as above; then [url.save()] fails the
    validation, and nothing is stored or cached. *)
Definition createShortUrl_invalidDate (nanoid8 : string) (long : string)
    (customAlias : option string) (uid : Id) (st : State) : Result Url * State :=
  let alias := default "" customAlias in
  let code := if truthy customAlias then alias else nanoid8 in
  let r :=
    if truthy customAlias && negb (aliasRegex alias) then Throw msgAliasFormat
    else if truthy customAlias && bool_decide (is_Some (store st !! alias)) then
      Throw msgAliasInUse
    else
      let short := baseUrl +:+ "/" +:+ code in
      Throw (msgInvalidDate
               (missingPaths (newUrl 0 code long short (toDataURL short) None uid)))
  in (rethrow createPrefix r, st).

(** The test of the cache branch of [getUrl]:
    [!cachedUrl.isExpired && (!cachedUrl.expiresAt || new Date() < cachedUrl.expiresAt)] *)
Definition cacheFresh (now : Z) (u : Url) : bool :=
  negb (isExpired u) &&
  match expiresAt u with None => true | Some t => now <? t end.

(** The test of the store branch of [getUrl]:
    [url.isExpired || (url.expiresAt && new Date() > url.expiresAt)] *)
Definition storeExpired (now : Z) (u : Url) : bool :=
  isExpired u ||
  match expiresAt u with None => false | Some t => t <? now end.

(** [getUrl] from [Url.findOne] on: the lookup in the store. *)
Definition getUrl_store (now : Z) (code : string) (st : State)
  : Result Url * State :=
  match store st !! code with
  | None => (Throw msgNotFound, st)
  | Some url =>
      if storeExpired now url then
        let '(_, s') := save_loaded now code (set_isExpired true url) (store st) in
        (Throw msgExpired, mkState s' (cache st))
      else
        (Ok url, mkState (store st) (<[code := url]> (cache st)))
  end.

(** The body of the [try] of [getUrl]: the cache first. *)
Definition getUrl_try (now : Z) (code : string) (st : State)
  : Result Url * State :=
  match cache st !! code with
  | Some cachedUrl =>
      if cacheFresh now cachedUrl then (Ok cachedUrl, st)
      else getUrl_store now code (mkState (store st) (delete code (cache st)))
  | None => getUrl_store now code st
  end.

Definition getUrl (now : Z) (code : string) (st : State) : Result Url * State :=
  let '(r, st') := getUrl_try now code st in (rethrow getPrefix r, st').

(** The analytics entry [trackClick] pushes. *)
Definition clickOf (now : Z) (reqData : ReqData) : ClickEvent :=
  mkClick now (ip reqData) (req_userAgent reqData) (req_referer reqData).

(** The cache refresh of [trackClick]: [if (url) this.cache.set(urlCode, url)]. *)
Definition refreshCache (code : string) (url : option Url) (c : gmap string Url)
  : gmap string Url :=
  match url with
  | Some u => <[code := u]> c
  | None => c
  end.

Definition trackClick (now : Z) (code : string) (reqData : ReqData) (st : State)
  : option Url * State :=
  let '(url, s') := findOneAndUpdate code (clickOf now reqData) (store st) in
  (url, mkState s' (refreshCache code url (cache st))).

(** [deleteUrl(urlCode, userId)]: the ids are compared as strings; the
    document is removed from the collection. *)
Definition deleteUrl (code : string) (uid : Id) (st : State) : Result Url * State :=
  match store st !! code with
  | None => (Throw msgNoSuchUrl, st)
  | Some url =>
      let urlUserId := toString (userId url) in
      let requestUserId := toString uid in
      if negb (urlUserId =? requestUserId)%string then (Throw msgNotAuthorized, st)
      else (Ok url, mkState (delete code (store st)) (cache st))
  end.

(** *** Statistics *)

(** [averageClicksPerDay] is the number [0], or the string
    [x.toFixed(2)] of a number [x]. *)
Inductive Average : Type :=
| AvgZero
| AvgToFixed2 (x : spec_float).

(** What an object used as a histogram holds under a key: a count, or
    the string that [+ 1] makes of a value that is no number. *)
Inductive JsVal : Type :=
| JNum (n : nat)
| JStr (s : string).

(** The text of a built-in function, as Node prints it under [+]. *)
Definition nativeFunction (name : string) : string :=
  "function " +:+ name +:+ "() { [native code] }".

(** The names [Object.prototype] gives every plain object [{}], each with
    the string its value becomes under [+]: the built-in methods, and the
    prototype itself under [__proto__]. *)
Definition inherited (k : string) : option string :=
  if (k =? "constructor")%string then Some (nativeFunction "Object")
  else if (k =? "__proto__")%string then Some "[object Object]"
  else if bool_decide (k ∈ ["__defineGetter__"; "__defineSetter__"; "hasOwnProperty";
                            "__lookupGetter__"; "__lookupSetter__"; "isPrototypeOf";
                            "propertyIsEnumerable"; "toString"; "valueOf";
                            "toLocaleString"])
  then Some (nativeFunction k)
  else None.

(** The analytics object of [getUrlStats]; its [clicksByDate] histogram
    is modelled apart, as [clicksByDate] below. *)
Record Stats : Type := mkStats {
  totalClicks : nat;
  browserStats : gmap string JsVal;
  referrerStats : gmap string JsVal;
  lastClicked : option Z;
  averageClicksPerDay : Average
}.

(** [getBrowserFromUserAgent(userAgent)]; reading [includes] of
    [undefined] is a [TypeError]. *)
Definition getBrowserFromUserAgent (ua : option string) : Result string :=
  match ua with
  | None => Throw msgIncludesOfUndefined
  | Some ua =>
      Ok (if includes ua "Chrome" then "Chrome"
          else if includes ua "Firefox" then "Firefox"
          else if includes ua "Safari" then "Safari"
          else if includes ua "Edge" then "Edge"
          else "Other")
  end.

(** [click.referer || 'Direct'] *)
Definition referrerOf (click : ClickEvent) : string :=
  if truthy (referer click) then default "" (referer click) else "Direct".

(** [stats[k] = (stats[k] || 0) + 1] on a plain object [stats]: [m] holds
    its own properties.  A key the object holds is read from it; any other
    is looked up in [Object.prototype], whose value is no number, so that
    [+] appends ["1"] to its string; the assignment then gives the object
    the key, except for [__proto__], whose setter drops a string. *)
Definition bump (k : string) (m : gmap string JsVal) : gmap string JsVal :=
  match m !! k with
  | Some (JNum n) => <[k := JNum (n + 1)]> m
  | Some (JStr s) =>
      if (s =? "")%string then <[k := JNum 1]> m else <[k := JStr (s +:+ "1")]> m
  | None =>
      match inherited k with
      | Some s => if (k =? "__proto__")%string then m else <[k := JStr (s +:+ "1")]> m
      | None => <[k := JNum 1]> m
      end
  end.

(** One round of [url.analytics.forEach]. *)
Definition countClick (acc : Result (gmap string JsVal * gmap string JsVal))
    (click : ClickEvent) : Result (gmap string JsVal * gmap string JsVal) :=
  match acc with
  | Throw m => Throw m
  | Ok (browsers, referrers) =>
      match getBrowserFromUserAgent (userAgent click) with
      | Throw m => Throw m
      | Ok browser => Ok (bump browser browsers, bump (referrerOf click) referrers)
      end
  end.

Definition msPerDay : Z := 1000 * 60 * 60 * 24.

(** [Math.max(1, Math.ceil((new Date() - firstClick) / (1000 * 60 * 60 * 24)))] *)
Definition daysSinceCreation (now firstClick : Z) : spec_float :=
  Math_max (num 1) (Math_ceil (num_div (num (now - firstClick)) (num msPerDay))).

(** The aggregation of [getUrlStats] over a document. *)
Definition aggregate (now : Z) (url : Url) : Result Stats :=
  let '(last, average) :=
    match analytics url with
    | [] => (None, AvgZero)
    | first :: _ =>
        (timestamp <$> last (analytics url),
         AvgToFixed2 (num_div (num (Z.of_nat (clicks url)))
                              (daysSinceCreation now (timestamp first))))
    end in
  match fold_left countClick (analytics url) (Ok (∅, ∅)) with
  | Throw m => Throw m
  | Ok (browsers, referrers) =>
      Ok (mkStats (clicks url) browsers referrers last average)
  end.

Definition getUrlStats (now : Z) (code : string) (st : State) : Result Stats :=
  rethrow statsPrefix
    match store st !! code with
    | None => Throw msgNotFound
    | Some url => aggregate now url
    end.

(** *** Bulk creation *)

Record BulkItem : Type := mkItem {
  item_longUrl : string;
  item_customAlias : option string;
  item_expiresAt : option Z
}.

(** [{ success: true, originalUrl, shortUrl }] or
    [{ success: false, originalUrl, error }] *)
Inductive BulkOutcome : Type :=
| Created (originalUrl : string) (short : string)
| Failed (originalUrl : string) (error : string).

Definition success (o : BulkOutcome) : bool :=
  match o with Created _ _ => true | Failed _ _ => false end.

Definition originalUrl (o : BulkOutcome) : string :=
  match o with Created u _ => u | Failed u _ => u end.

(** What one call of [createShortUrl] reads from its surroundings. *)
Record Ambient : Type := mkAmbient {
  clock : Z;
  nanoid : string
}.

(** The message of the [TypeError] that reading [url.longUrl] raises when
    [url] is [null] (the text is the engine's). *)
Definition msgLongUrlOfNull : string :=
  "Cannot read properties of null (reading 'longUrl')".

(** The loop of [createBulkUrls] from its [i]-th round on; [results] is
    the array pushed to so far.  An element of [urls] is an object or
    [null] ([None]).  On [null] the [try] block throws while it reads
    [url.longUrl], and so does the [catch] block, which reads it again:
    the error leaves the function, and [results] is lost. *)
Fixpoint createBulkUrls_loop (env : nat -> Ambient) (i : nat)
    (urls : list (option BulkItem)) (uid : Id) (results : list BulkOutcome)
    (st : State) : Result (list BulkOutcome) * State :=
  match urls with
  | [] => (Ok results, st)
  | None :: _ => (Throw msgLongUrlOfNull, st)
  | Some url :: rest =>
      match createShortUrl (clock (env i)) (nanoid (env i)) (item_longUrl url)
              (item_customAlias url) (item_expiresAt url) uid st with
      | (Ok created, st') =>
          createBulkUrls_loop env (S i) rest uid
            (results ++ [Created (item_longUrl url) (shortUrl created)]) st'
      | (Throw m, st') =>
          createBulkUrls_loop env (S i) rest uid
            (results ++ [Failed (item_longUrl url) m]) st'
      end
  end.

Definition createBulkUrls (env : nat -> Ambient) (urls : list (option BulkItem))
    (uid : Id) (st : State) : Result (list BulkOutcome) * State :=
  createBulkUrls_loop env 0 urls uid [] st.

(** *** Runs of the service *)

(** The calls that can change the state ([getUrlStats] and [getAllUrls]
    only read the collection). *)
Inductive Op : Type :=
| OpCreate (now : Z) (nanoid8 : string) (long : string)
    (customAlias : option string) (expires : option Z) (uid : Id)
| OpBulk (env : nat -> Ambient) (urls : list (option BulkItem)) (uid : Id)
| OpGet (now : Z) (code : string)
| OpTrack (now : Z) (code : string) (reqData : ReqData)
| OpDelete (code : string) (uid : Id).

Definition run (op : Op) (st : State) : State :=
  match op with
  | OpCreate now nanoid8 long customAlias expires uid =>
      snd (createShortUrl now nanoid8 long customAlias expires uid st)
  | OpBulk env urls uid => snd (createBulkUrls env urls uid st)
  | OpGet now code => snd (getUrl now code st)
  | OpTrack now code reqData => snd (trackClick now code reqData st)
  | OpDelete code uid => snd (deleteUrl code uid st)
  end.

Definition run_all (ops : list Op) (st : State) : State :=
  fold_left (fun st op => run op st) ops st.

(** The states the service reaches from an empty collection and an empty
    cache. *)
Definition reachable (st : State) : Prop := exists ops, st = run_all ops init.

End UrlService.

(** ** Vocabulary of the statements *)

#[global] Instance Result_eq_dec {A} `{EqDecision A} : EqDecision (Result A).
Proof. solve_decision. Defined.

(** A record the service may hand out at [now]. *)
Definition resolvable (now : Z) (u : Url) : Prop :=
  isExpired u = false /\ forall t, expiresAt u = Some t -> now <= t.

(** A record that is flagged, or whose deadline has come. *)
Definition stale (now : Z) (u : Url) : Prop :=
  isExpired u = true \/ exists t, expiresAt u = Some t /\ t <= now.

(** The state with the cache entry of [code] dropped. *)
Definition evict (code : string) (st : State) : State :=
  mkState (store st) (delete code (cache st)).

(** The cache agrees with the collection wherever both know a code. *)
Definition coherent (st : State) : Prop :=
  forall code c r, cache st !! code = Some c -> store st !! code = Some r -> c = r.

(** [clicks] counts the entries of [analytics]. *)
Definition counts (u : Url) : Prop := clicks u = length (analytics u).

Definition counted_state (st : State) : Prop :=
  forall code u, store st !! code = Some u \/ cache st !! code = Some u -> counts u.

(** The collection holds [code] flagged as expired, and the cache holds
    nothing fresher. *)
Definition flagged (code : string) (st : State) : Prop :=
  (exists r, store st !! code = Some r /\ isExpired r = true) /\
  (forall c, cache st !! code = Some c -> isExpired c = true).

(** The calls other than a [deleteUrl] of [code]. *)
Definition keeps (code : string) (op : Op) : Prop :=
  match op with
  | OpDelete code' _ => code' <> code
  | _ => True
  end.


(** How a call [op] changes the collection and the cache at [code]. *)
Inductive change (op : Op) (code : string) (st st' : State) : Prop :=
| Unchanged :
    store st' !! code = store st !! code -> cache st' !! code = cache st !! code ->
    change op code st st'
| Inserted u :
    store st !! code = None -> clicks u = 0%nat -> analytics u = [] ->
    store st' !! code = Some u -> cache st' !! code = Some u ->
    change op code st st'
| Served u now :
    store st !! code = Some u -> storeExpired now u = false ->
    store st' !! code = Some u -> cache st' !! code = Some u ->
    change op code st st'
| Evicted :
    store st' !! code = store st !! code -> cache st' !! code = None ->
    change op code st st'
| Flagged u now :
    store st !! code = Some u ->
    store st' !! code = Some (preSave now (set_isExpired true u)) ->
    cache st' !! code = None ->
    change op code st st'
| Clicked u now reqData :
    op = OpTrack now code reqData ->
    store st !! code = Some u ->
    store st' !! code = Some (inc_push (clickOf now reqData) u) ->
    cache st' !! code = Some (inc_push (clickOf now reqData) u) ->
    change op code st st'
| Deleted uid :
    op = OpDelete code uid ->
    store st' !! code = None -> cache st' !! code = cache st !! code ->
    change op code st st'.

(** What creations do at [code]: nothing, or the insertion of a document
    with no click yet. *)
Definition created (code : string) (st st' : State) : Prop :=
  (store st' !! code = store st !! code /\ cache st' !! code = cache st !! code) \/
  (exists u, store st !! code = None /\ clicks u = 0%nat /\ analytics u = [] /\
             store st' !! code = Some u /\ cache st' !! code = Some u).

(** How a count shows in an object used as a histogram: a key is there
    once it was counted. *)
Definition counted (n : nat) : option nat :=
  match n with O => None | S _ => Some n end.

(** [n] times the digit [1]. *)
Fixpoint ones (n : nat) : string :=
  match n with O => "" | S n => ones n +:+ "1" end.

(** What a histogram holds under [k] once [k] was counted [n] times: the
    count; but for a name of [Object.prototype] the string of the
    inherited value with a [1] appended each time, and never anything for
    [__proto__]. *)
Definition histogramEntry (k : string) (n : nat) : option JsVal :=
  match n with
  | O => None
  | S _ =>
      match inherited k with
      | None => Some (JNum n)
      | Some s => if (k =? "__proto__")%string then None else Some (JStr (s +:+ ones n))
      end
  end.

(** The histograms [p] of [countClick] tally the clicks [l]. *)
Definition tallied (l : list ClickEvent) (p : gmap string JsVal * gmap string JsVal)
  : Prop :=
  (forall label, p.1 !! label =
     histogramEntry label
       (length (filter (fun c => getBrowserFromUserAgent (userAgent c) = Ok label) l))) /\
  (forall r, p.2 !! r =
     histogramEntry r (length (filter (fun c => referrerOf c = r) l))).

(** The outcome [createBulkUrls] pushes for an item. *)
Definition outcomeOf (url : BulkItem) (r : Result Url) : BulkOutcome :=
  match r with
  | Ok created => Created (item_longUrl url) (shortUrl created)
  | Throw m => Failed (item_longUrl url) m
  end.

(** The call of [createShortUrl] that [createBulkUrls] makes for an item. *)
Definition createItem (baseUrl : string) (toDataURL : string -> string)
    (a : Ambient) (url : BulkItem) (uid : Id) (st : State) : Result Url * State :=
  createShortUrl baseUrl toDataURL (clock a) (nanoid a) (item_longUrl url)
    (item_customAlias url) (item_expiresAt url) uid st.

(** The ceiling of the quotient of two integers. *)
Definition ceilDiv (a b : Z) : Z := - ((- a) / b).

(** ** The rest of the service and its callers

    [getAllUrls] and the histogram by date of [getUrlStats], the handlers
    of the controller, the validator in front of the two creation routes,
    and those routes. *)

#[global] Instance Id_eq_dec : EqDecision Id.
Proof. solve_decision. Defined.

(** *** [getAllUrls] *)

(** What [.select('urlCode longUrl shortUrl clicks createdAt expiresAt')]
    keeps of a document. *)
Record UrlSummary : Type := mkSummary {
  sum_urlCode : string;
  sum_longUrl : string;
  sum_shortUrl : string;
  sum_clicks : nat;
  sum_createdAt : Z;
  sum_expiresAt : option Z
}.

Definition select (u : Url) : UrlSummary :=
  mkSummary (urlCode u) (longUrl u) (shortUrl u) (clicks u) (createdAt u)
            (expiresAt u).

(** [.sort({ createdAt: -1 })]: the later document first. *)
Definition newestFirst (a b : Url) : Prop := createdAt b <= createdAt a.

#[global] Instance newestFirst_dec : RelDecision newestFirst.
Proof. intros a b. unfold newestFirst. apply _. Defined.

(** The documents of the collection, in the order of a scan. *)
Definition documents (st : State) : list Url := snd <$> map_to_list (store st).

(** [getAllUrls(userId)]: the query casts [userId] to an [ObjectId] (every
    id here has the form of one); the documents of the user come newest
    first, those of one instant in the order the sort leaves them in. *)
Definition getAllUrls (uid : Id) (st : State) : list UrlSummary :=
  select <$>
    merge_sort newestFirst
      (filter (fun u => userId u = ObjectId (toString uid)) (documents st)).

(** *** The histogram by date of [getUrlStats] *)

(** [obj[k] = (obj[k] || 0) + 1] on an object whose keys are kept in the
    order of their insertion. *)
Fixpoint bumpEntry (k : string) (l : list (string * nat)) : list (string * nat) :=
  match l with
  | [] => [(k, 1%nat)]
  | (k', n) :: l' =>
      if (k' =? k)%string then (k', S n) :: l' else (k', n) :: bumpEntry k l'
  end.

(** The string of an entry [[k, n]], which [sort()] compares entries by. *)
Definition entryString (e : string * nat) : string :=
  e.1 +:+ "," +:+ pretty e.2.

(** The order of [Array.prototype.sort] without a comparator. *)
Definition entryLe (e1 e2 : string * nat) : Prop :=
  (entryString e1 <=? entryString e2)%string = true.

#[global] Instance entryLe_dec : RelDecision entryLe.
Proof. intros a b. unfold entryLe. apply _. Defined.

(** *** Requests and responses *)

(** What [shortenUrl] reads of [req.body.expiresIn], whatever value it
    is: whether it is truthy, and what [parseInt] makes of it, an integer
    number or, for [NaN] and the infinities, [None]. *)
Record ExpiresIn : Type := mkExpiresIn {
  expiresIn_truthy : bool;
  expiresIn_parseInt : option Z
}.

(** What the handlers read of [req.body]: [urls] is [None] when it is no
    array; an element of the array is an object or [null] ([None]). *)
Record ReqBody : Type := mkBody {
  body_urls : option (list (option BulkItem));
  body_longUrl : option string;
  body_customAlias : option string;
  body_expiresIn : ExpiresIn
}.

(** What a handler sends; [BUnhandled] is the page of Express's default
    error handler for an error of this message. *)
Inductive Body : Type :=
| BError (error : string)
| BInvalidUrl (error : string) (invalidUrl : string)
| BShortened (short qr : string) (created : Z) (expires : option Z)
| BRedirect (location : string)
| BStats (stats : Stats) (byDate : list (string * nat))
| BBulk (results : list BulkOutcome)
| BQr (qr short : string)
| BList (data : list UrlSummary)
| BStatus (status message : string)
| BUnhandled (message : string).

Record Response : Type := mkResponse {
  statusCode : nat;
  body : Body
}.

(** [res.json(b)], [res.status(n).json(b)] and [res.redirect(url)]. *)
Definition json (b : Body) : Response := mkResponse 200 b.
Definition status_json (n : nat) (b : Body) : Response := mkResponse n b.
Definition redirectTo (url : string) : Response := mkResponse 302 (BRedirect url).

(** The answer to an error that a middleware throws: the application
    installs no error handler, so Express's default one answers, with
    status 500. *)
Definition unhandled (message : string) : Response := mkResponse 500 (BUnhandled message).

(** The [expiresAt] that [shortenUrl] hands to the service. *)
Inductive DateArg : Type :=
| DateNull
| DateValid (t : Z)
| DateInvalid.

(** [if (expiresIn) expiresAt = new Date(Date.now() + parseInt(expiresIn) * 1000)],
    where [Date.now()] reads [now0]. *)
Definition expiresAtOf (now0 : Z) (e : ExpiresIn) : DateArg :=
  if expiresIn_truthy e then
    match expiresIn_parseInt e with
    | Some n =>
        match newDate (num_add (num now0) (num_mul (num n) (num 1000))) with
        | Some t => DateValid t
        | None => DateInvalid
        end
    | None => DateInvalid
    end
  else DateNull.

(** A middleware answers, throws, or calls [next()] on the request as it
    left it. *)
Inductive Checked (A : Type) : Type :=
| Rejected (r : Response)
| Thrown (message : string)
| Next (a : A).
Arguments Rejected {A} r.
Arguments Thrown {A} message.
Arguments Next {A} a.

Section Rest.

Variable baseUrl : string.
Variable toDataURL : string -> string.

(** [click.timestamp.toISOString().split('T')[0]], the UTC date of an
    instant; its strings are dates, never array indices. *)
Variable toISODate : Z -> string.

(** [isURL(s, { require_protocol: true })] of the validator package, and
    [encodeURI]. *)
Variable isURL : string -> bool.
Variable encodeURI : string -> string.

(** The [clicksByDate] of the analytics object: the tally of the
    [forEach], then [Object.fromEntries(Object.entries(...).sort())]. *)
Definition tallyByDate (clicks : list ClickEvent) : list (string * nat) :=
  fold_left (fun acc click => bumpEntry (toISODate (timestamp click)) acc) clicks [].

Definition clicksByDate (clicks : list ClickEvent) : list (string * nat) :=
  merge_sort entryLe (tallyByDate clicks).

(** [getUrlStats] with the [clicksByDate] of its analytics object. *)
Definition getUrlStats_full (now : Z) (code : string) (st : State)
  : Result (Stats * list (string * nat)) :=
  rethrow statsPrefix
    match store st !! code with
    | None => Throw msgNotFound
    | Some url =>
        match aggregate now url with
        | Ok stats => Ok (stats, clicksByDate (analytics url))
        | Throw m => Throw m
        end
    end.

(** *** The controller (controllers/urlController.js) *)

(** [shortenUrl]: [now0] is what [Date.now()] reads in the handler and
    [now] what the service reads after it; an absent [longUrl] reaches the
    schema like the empty one. *)
Definition shortenUrl (now0 now : Z) (nanoid8 : string) (b : ReqBody) (uid : Id)
    (st : State) : Response * State :=
  let longUrl := default "" (body_longUrl b) in
  let created :=
    match expiresAtOf now0 (body_expiresIn b) with
    | DateNull =>
        createShortUrl baseUrl toDataURL now nanoid8 longUrl (body_customAlias b)
          None uid st
    | DateValid t =>
        createShortUrl baseUrl toDataURL now nanoid8 longUrl (body_customAlias b)
          (Some t) uid st
    | DateInvalid =>
        createShortUrl_invalidDate baseUrl toDataURL nanoid8 longUrl
          (body_customAlias b) uid st
    end in
  match created with
  | (Ok url, st') =>
      (json (BShortened (shortUrl url) (qrCode url) (createdAt url) (expiresAt url)), st')
  | (Throw m, st') => (status_json 400 (BError m), st')
  end.

(** [redirect]: [now] is the clock of [getUrl], [now'] that of
    [trackClick]. *)
Definition redirect (now now' : Z) (code : string) (reqData : ReqData) (st : State)
  : Response * State :=
  match getUrl now code st with
  | (Ok url, st1) =>
      let '(_, st2) := trackClick now' code reqData st1 in
      (redirectTo (longUrl url), st2)
  | (Throw _, st1) => (status_json 404 (BError "URL not found"), st1)
  end.

(** The handler of [GET /urls/:code/stats]. *)
Definition getUrlStats_handler (now : Z) (code : string) (st : State) : Response :=
  match getUrlStats_full now code st with
  | Ok (stats, byDate) => json (BStats stats byDate)
  | Throw m => status_json 404 (BError m)
  end.

(** The handler of [POST /urls/bulk]. *)
Definition createBulkUrls_handler (env : nat -> Ambient) (b : ReqBody)
    (uid : Id) (st : State) : Response * State :=
  match body_urls b with
  | None | Some [] => (status_json 400 (BError "Invalid URLs array"), st)
  | Some urls =>
      match createBulkUrls baseUrl toDataURL env urls uid st with
      | (Ok results, st') => (json (BBulk results), st')
      | (Throw m, st') => (status_json 400 (BError m), st')
      end
  end.

(** [getQrCode] *)
Definition getQrCode (now : Z) (code : string) (st : State) : Response * State :=
  match getUrl now code st with
  | (Ok url, st') => (json (BQr (qrCode url) (shortUrl url)), st')
  | (Throw m, st') =>
      if includes m "not found" then (status_json 404 (BError m), st')
      else (status_json 500 (BError m), st')
  end.

(** The handler of [GET /urls]. *)
Definition getAllUrls_handler (uid : Id) (st : State) : Response :=
  json (BList (getAllUrls uid st)).

(** The handler of [DELETE /urls/:code]. *)
Definition deleteUrl_handler (code : string) (uid : Id) (st : State)
  : Response * State :=
  match deleteUrl code uid st with
  | (Ok _, st') => (json (BStatus "SUCCESS" "URL deleted successfully"), st')
  | (Throw m, st') =>
      if (m =? "No such URL")%string then
        (status_json 404 (BStatus "CLIENT_ERROR" "No such URL"), st')
      else if (m =? "Not authorized")%string then
        (status_json 403 (BStatus "AUTH_ERROR" "Authorization error"), st')
      else
        (status_json 500 (BStatus "SERVER_ERROR" "Internal server error"), st')
  end.

(** *** The validator (middleware/urlValidator.js) *)

(** [!longUrl || !isURL(longUrl, { require_protocol: true })] *)
Definition invalidUrl (long : string) : bool :=
  (long =? "")%string || negb (isURL long).

(** [urlObj.longUrl = encodeURI(urlObj.longUrl)] *)
Definition sanitize (url : BulkItem) : BulkItem :=
  mkItem (encodeURI (item_longUrl url)) (item_customAlias url) (item_expiresAt url).

(** The loop of the bulk branch: the first invalid URL ends the request
    with a 400, and on a [null] element the reading of [urlObj.longUrl]
    throws. *)
Fixpoint urlValidator_loop (urls : list (option BulkItem))
  : Checked (list (option BulkItem)) :=
  match urls with
  | [] => Next []
  | None :: _ => Thrown msgLongUrlOfNull
  | Some urlObj :: rest =>
      if invalidUrl (item_longUrl urlObj) then
        Rejected (status_json 400
                    (BInvalidUrl "Invalid URL format" (item_longUrl urlObj)))
      else
        match urlValidator_loop rest with
        | Rejected r => Rejected r
        | Thrown m => Thrown m
        | Next rest' => Next (Some (sanitize urlObj) :: rest')
        end
  end.

(** [urlValidator(req, res, next)] on a request of path [path]. *)
Definition urlValidator (path : string) (b : ReqBody) : Checked ReqBody :=
  if (path =? "/urls/bulk")%string then
    match body_urls b with
    | None =>
        Rejected (status_json 400 (BError "URLs must be provided as an array"))
    | Some urls =>
        match urlValidator_loop urls with
        | Rejected r => Rejected r
        | Thrown m => Thrown m
        | Next urls' =>
            Next (mkBody (Some urls') (body_longUrl b) (body_customAlias b)
                         (body_expiresIn b))
        end
    end
  else
    let longUrl := default "" (body_longUrl b) in
    if invalidUrl longUrl then
      Rejected (status_json 400 (BError "Invalid URL format"))
    else
      Next (mkBody (body_urls b) (Some (encodeURI longUrl)) (body_customAlias b)
                   (body_expiresIn b)).

(** *** The routes behind the validator (routes/urlRoutes.js), for a
    request that passed [auth] as [uid] *)

(** [POST /urls], asked for under that very path. *)
Definition post_urls (now0 now : Z) (nanoid8 : string) (b : ReqBody) (uid : Id)
    (st : State) : Response * State :=
  match urlValidator "/urls" b with
  | Rejected r => (r, st)
  | Thrown m => (unhandled m, st)
  | Next b' => shortenUrl now0 now nanoid8 b' uid st
  end.

(** [POST /urls/bulk], asked for under that very path. *)
Definition post_urls_bulk (env : nat -> Ambient) (b : ReqBody) (uid : Id)
    (st : State) : Response * State :=
  match urlValidator "/urls/bulk" b with
  | Rejected r => (r, st)
  | Thrown m => (unhandled m, st)
  | Next b' => createBulkUrls_handler env b' uid st
  end.

End Rest.

(** ** More vocabulary of the statements *)

(** A record as [createShortUrl] files it under [code]. *)
Definition wellFormed (baseUrl : string) (toDataURL : string -> string)
    (code : string) (u : Url) : Prop :=
  urlCode u = code /\ code <> "" /\ longUrl u <> "" /\
  shortUrl u = baseUrl +:+ "/" +:+ code /\
  qrCode u = toDataURL (shortUrl u) /\ qrCode u <> "" /\
  (exists h, userId u = ObjectId h) /\
  (isExpired u = true -> is_Some (expiresAt u)).

(** [u'] is the record [u] at a later time. *)
Definition laterOf (u u' : Url) : Prop :=
  userId u' = userId u /\ urlCode u' = urlCode u /\ longUrl u' = longUrl u /\
  shortUrl u' = shortUrl u /\ qrCode u' = qrCode u /\
  createdAt u' = createdAt u /\ expiresAt u' = expiresAt u /\
  (clicks u <= clicks u')%nat /\ analytics u `prefix_of` analytics u' /\
  (isExpired u = true -> isExpired u' = true).

(** The records a state knows under [code]. *)
Definition known (st : State) (code : string) (u : Url) : Prop :=
  store st !! code = Some u \/ cache st !! code = Some u.

(** [trackClick] on [code] for each of the requests, one after the other. *)
Definition trackClicks (code : string) (reqs : list (Z * ReqData)) (st : State)
  : State :=
  fold_left (fun st r => snd (trackClick r.1 code r.2 st)) reqs st.

(** The count a value of a histogram stands for. *)
Definition countOf (v : JsVal) : nat :=
  match v with JNum n => n | JStr _ => O end.

(** The sum of the counts of a histogram. *)
Definition histogramTotal (m : gmap string JsVal) : nat :=
  sum_list ((fun kv => countOf kv.2) <$> map_to_list m).

Definition browserLabels : list string :=
  ["Chrome"; "Firefox"; "Safari"; "Edge"; "Other"].

(** [sub] occurs in [s]. *)
Definition occursIn (sub s : string) : Prop :=
  exists pre post, s = pre +:+ sub +:+ post.

(** The order of the dates themselves. *)
Definition dateLt (e1 e2 : string * nat) : Prop := (e1.1 <? e2.1)%string = true.

(** The number of the clicks of a date. *)
Definition dateCount (toISODate : Z -> string) (d : string)
    (clicks : list ClickEvent) : nat :=
  length (filter (fun c => toISODate (timestamp c) = d) clicks).


(** The order of a listing: the later record first. *)
Definition newerFirst (a b : UrlSummary) : Prop := sum_createdAt b <= sum_createdAt a.

(** The state [createBulkUrls] is in when it comes to its [k]-th item. *)
Definition stateAt (baseUrl : string) (toDataURL : string -> string)
    (env : nat -> Ambient) (urls : list (option BulkItem)) (uid : Id) (st : State)
    (k : nat) : State :=
  snd (createBulkUrls baseUrl toDataURL env (take k urls) uid st).

(** ** A deployment to run the service on *)

Definition demoBase : string := "http://localhost:3000".

(** A stand-in for the image codec. *)
Definition demoCodec (s : string) : string := "data:image/png;base64," +:+ s.

Definition alice : Id := ObjectId "64f0c2a1".
Definition aliceToken : Id := IdString "64f0c2a1".

Definition createPromo : Op :=
  OpCreate 1000 "Ab3dE6gh" "https://example.com" (Some "promo") None aliceToken.

(** The state once the alias [promo] is taken. *)
Definition promoCreated : State := run demoBase demoCodec createPromo init.

(** The state once its owner has deleted [promo]. *)
Definition promoDeleted : State :=
  run demoBase demoCodec (OpDelete "promo" alice) promoCreated.

Definition promo0 : Url :=
  mkUrl alice "promo" "https://example.com" "http://localhost:3000/promo"
        "data:image/png;base64,http://localhost:3000/promo" 0 [] 1000 None false.

(** A redirect request that carries no [User-Agent] header. *)
Definition headless : ReqData := mkReq (Some "10.0.0.7") None None.

(** The state once [promo] was followed by such a request. *)
Definition promoHeadless : State :=
  run demoBase demoCodec (OpTrack 2000 "promo" headless) promoCreated.

Definition clickA : ClickEvent := mkClick 2000 None (Some "Chrome/96.0") None.
Definition clickB : ClickEvent := mkClick 2001 None (Some "Firefox/95.0") None.

(** A link that lapses at [5000]. *)
Definition createSale : Op :=
  OpCreate 1000 "Zz9yX8wv" "https://example.com/sale" (Some "sale") (Some 5000) alice.

Definition saleCreated : State := run demoBase demoCodec createSale init.

Definition sale0 : Url :=
  mkUrl alice "sale" "https://example.com/sale" "http://localhost:3000/sale"
        "data:image/png;base64,http://localhost:3000/sale" 0 [] 1000 (Some 5000) false.

(** Three clicks, the first of them [200] days before [now]. *)
Definition threeClicks : Url :=
  mkUrl alice "promo" "https://example.com" "http://localhost:3000/promo"
        "data:image/png;base64,http://localhost:3000/promo" 3
        [mkClick 0 None (Some "Chrome/96.0") (Some "https://google.com");
         mkClick 5 None (Some "Firefox/95.0") (Some "");
         mkClick 9 None (Some "Chrome/96.0") (Some "https://github.com")]
        0 None false.

(** Three items; the second has no URL. *)
Definition threeItems : list BulkItem :=
  [mkItem "https://example.com/a" (Some "first") None;
   mkItem "" (Some "b") None;
   mkItem "https://example.com/c" (Some "third") None].

(** The array of these objects with a [null] before the last. *)
Definition itemsWithNull : list (option BulkItem) :=
  [Some (mkItem "https://example.com/a" (Some "first") None);
   Some (mkItem "" (Some "b") None);
   None;
   Some (mkItem "https://example.com/c" (Some "third") None)].

Definition demoEnv (i : nat) : Ambient := mkAmbient 1000 "k3Jd82Lq".

(** *** More of the deployment *)
(** A redirect request of a browser. *)
Definition browserReq : ReqData :=
  mkReq (Some "10.0.0.8") (Some "Mozilla/5.0 Chrome/96.0") (Some "https://news.example").

(** The state once [promo] was followed by such a request. *)
Definition promoClicked : State :=
  run demoBase demoCodec (OpTrack 2000 "promo" browserReq) promoCreated.

(** A request whose [Referer] header is a name of [Object.prototype]. *)
Definition namedReq : ReqData :=
  mkReq (Some "10.0.0.9") (Some "Mozilla/5.0 Chrome/96.0") (Some "constructor").

(** The state once [promo] was followed by the two. *)
Definition promoNamed : State :=
  run demoBase demoCodec (OpTrack 2500 "promo" namedReq) promoClicked.

Definition promo2 : Url :=
  inc_push (clickOf 2500 namedReq) (inc_push (clickOf 2000 browserReq) promo0).

(** The UTC date of an instant of January 1970. *)
Definition januaryDate (t : Z) : string :=
  let day := t / msPerDay + 1 in
  "1970-01-" +:+ (if day <? 10 then "0" else "") +:+ pretty day.

(** Clicks of the first, the second and the eleventh of January. *)
Definition januaryClicks : list ClickEvent :=
  [mkClick (10 * msPerDay + 5) None (Some "Chrome/96.0") None;
   mkClick 7 None (Some "Firefox/95.0") None;
   mkClick (msPerDay + 1) None None None;
   mkClick (10 * msPerDay + 9) None (Some "Chrome/96.0") None].

(** A stand-in for the validator package: a URL starts with its protocol. *)
Definition demoIsURL (s : string) : bool :=
  String.prefix "http://" s || String.prefix "https://" s.

(** A stand-in for [encodeURI]: spaces are escaped. *)
Fixpoint demoEncodeURI (s : string) : string :=
  match s with
  | EmptyString => EmptyString
  | String c s' =>
      if Ascii.eqb c " " then "%20" +:+ demoEncodeURI s' else String c (demoEncodeURI s')
  end.

(** What [shortenUrl] reads of an [expiresIn] that is absent, or a JSON
    integer of at most 21 digits, which [parseInt] reads back from its
    decimal text. *)
Definition secondsOf (n : option Z) : ExpiresIn :=
  match n with
  | Some n => mkExpiresIn (negb (n =? 0)) (Some n)
  | None => mkExpiresIn false None
  end.


Definition singleBody (long : string) (expiresIn : option Z) : ReqBody :=
  mkBody None (Some long) None (secondsOf expiresIn).

(** * Properties

    ** Binary64 arithmetic: division and rounding of normal numbers *)

Lemma digits2_pos_bounds p :
  2 ^ (Z.pos (digits2_pos p) - 1) <= Z.pos p < 2 ^ Z.pos (digits2_pos p).
Proof.
  induction p as [p IH|p IH|]; simpl digits2_pos.
  - rewrite Pos2Z.inj_succ. replace (Z.succ (Z.pos (digits2_pos p)) - 1)
      with (Z.succ (Z.pos (digits2_pos p) - 1)) by lia.
    rewrite !Z.pow_succ_r by lia. lia.
  - rewrite Pos2Z.inj_succ. replace (Z.succ (Z.pos (digits2_pos p)) - 1)
      with (Z.succ (Z.pos (digits2_pos p) - 1)) by lia.
    rewrite !Z.pow_succ_r by lia. lia.
  - simpl. lia.
Qed.

Lemma Zdigits2_unique x d :
  2 ^ (d - 1) <= x < 2 ^ d -> 0 < d -> Zdigits2 x = d.
Proof.
  intros [Hl Hu] Hd. assert (0 < x) by (pose proof (Z.pow_pos_nonneg 2 (d - 1)); lia).
  destruct x as [|p|p]; try lia. simpl.
  pose proof (digits2_pos_bounds p) as [Bl Bu].
  set (k := Z.pos (digits2_pos p)) in *.
  destruct (Z.lt_trichotomy k d) as [Hlt|[Heq|Hgt]]; [|done|].
  - assert (2 ^ k <= 2 ^ (d - 1)) by (apply Z.pow_le_mono_r; lia). lia.
  - assert (2 ^ d <= 2 ^ (k - 1)) by (apply Z.pow_le_mono_r; lia). lia.
Qed.

Lemma iter_xO m d : Z.pos (Pos.iter xO m d) = Z.pos m * 2 ^ Z.pos d.
Proof.
  induction d as [|d IH] using Pos.peano_ind.
  - simpl. lia.
  - rewrite Pos.iter_succ, Pos2Z.inj_succ, Z.pow_succ_r by lia.
    rewrite Pos2Z.inj_xO, IH. lia.
Qed.

Lemma loc_of_shr_record_of_loc m l :
  loc_of_shr_record (shr_record_of_loc m l) = l /\
  shr_m (shr_record_of_loc m l) = m.
Proof. by destruct l as [|[| |]]. Qed.

Lemma fexp53 x : -1021 <= x -> fexp 53 1024 x = x - 53.
Proof. unfold fexp, emin. lia. Qed.

(** Rounding a 53-bit mantissa: at most a carry into the next binade. *)
Lemma binary_round_aux_53 q e l :
  2 ^ 52 <= q < 2 ^ 53 -> -1074 <= e <= 970 ->
  binary_round_aux 53 1024 false q e l =
  let q' := round_nearest_even q l in
  if q' <? 2 ^ 53 then S754_finite false (Z.to_pos q') e
  else S754_finite false (Z.to_pos (2 ^ 52)) (e + 1).
Proof.
  intros Hq He. unfold binary_round_aux, shr_fexp.
  rewrite (Zdigits2_unique q 53) by lia.
  rewrite fexp53 by lia. replace (53 + e - 53 - e) with 0 by lia.
  cbn [shr]. destruct (loc_of_shr_record_of_loc q l) as [-> ->].
  cbv zeta.
  assert (Hr : round_nearest_even q l = q \/ round_nearest_even q l = q + 1).
  { destruct l as [|[| |]]; simpl; auto. destruct (Z.even q); auto. }
  set (q' := round_nearest_even q l) in *.
  destruct (Z.ltb_spec q' (2 ^ 53)) as [Hlt|Hge].
  - rewrite (Zdigits2_unique q' 53) by lia.
    rewrite fexp53 by lia. replace (53 + e - 53 - e) with 0 by lia.
    cbn [shr shr_record_of_loc shr_m].
    destruct q' as [|p|p] eqn:E; try lia.
    destruct (Z.leb_spec e (1024 - 53)); [done|lia].
  - assert (q' = 2 ^ 53) as -> by lia.
    rewrite (Zdigits2_unique (2 ^ 53) 54) by lia.
    rewrite fexp53 by lia. replace (54 + e - 53 - e) with 1 by lia.
    change (2 ^ 53) with 9007199254740992.
    change (Z.to_pos (2 ^ 52)) with 4503599627370496%positive.
    cbn. destruct (Z.leb_spec (e + 1) (1024 - 53)); [done|lia].
Qed.

(** Rounding a 54-bit mantissa: one bit is shifted out first. *)
Lemma binary_round_aux_54 q e l :
  2 ^ 53 <= q < 2 ^ 54 -> -1074 <= e <= 969 ->
  binary_round_aux 53 1024 false q e l =
  let q' := round_nearest_even (q / 2)
              (loc_of_shr_record
                 (Build_shr_record (q / 2) (Z.odd q)
                    (match l with loc_Exact => false | _ => true end))) in
  if q' <? 2 ^ 53 then S754_finite false (Z.to_pos q') (e + 1)
  else S754_finite false (Z.to_pos (2 ^ 52)) (e + 2).
Proof.
  intros Hq He. unfold binary_round_aux, shr_fexp.
  rewrite (Zdigits2_unique q 54) by lia.
  rewrite fexp53 by lia. replace (54 + e - 53 - e) with 1 by lia.
  cbn [shr iter_pos].
  assert (Hs : shr_1 (shr_record_of_loc q l) =
               Build_shr_record (q / 2) (Z.odd q)
                 (match l with loc_Exact => false | _ => true end)).
  { assert (0 < q) by lia. destruct q as [|p|p]; try lia.
    destruct p as [p|p|].
    - rewrite Pos2Z.inj_xI. replace ((2 * Z.pos p + 1) / 2) with (Z.pos p)
        by (apply Z.div_unique with 1; lia).
      by destruct l as [|[| |]].
    - rewrite Pos2Z.inj_xO. replace ((2 * Z.pos p) / 2) with (Z.pos p)
        by (apply Z.div_unique with 0; lia).
      by destruct l as [|[| |]].
    - simpl in Hq. lia. }
  change (SpecFloat.iter_pos shr_1 1 (shr_record_of_loc q l))
    with (shr_1 (shr_record_of_loc q l)).
  rewrite Hs. set (mrs := Build_shr_record _ _ _).
  cbv zeta. change (shr_m mrs) with (q / 2).
  assert (Hh : 2 ^ 52 <= q / 2 < 2 ^ 53).
  { change (2 ^ 53) with (2 * 2 ^ 52) in Hq. change (2 ^ 54) with (2 * 2 ^ 53) in Hq.
    split; [apply Z.div_le_lower_bound; lia | apply Z.div_lt_upper_bound; lia]. }
  assert (Hr : round_nearest_even (q / 2) (loc_of_shr_record mrs) = q / 2 \/
               round_nearest_even (q / 2) (loc_of_shr_record mrs) = q / 2 + 1).
  { destruct (loc_of_shr_record mrs) as [|[| |]]; simpl; auto.
    destruct (Z.even (q / 2)); auto. }
  set (q' := round_nearest_even (q / 2) (loc_of_shr_record mrs)) in *.
  destruct (Z.ltb_spec q' (2 ^ 53)) as [Hlt|Hge].
  - rewrite (Zdigits2_unique q' 53) by lia.
    rewrite fexp53 by lia. replace (53 + (e + 1) - 53 - (e + 1)) with 0 by lia.
    cbn [shr shr_record_of_loc shr_m].
    destruct q' as [|p|p] eqn:E; try lia.
    destruct (Z.leb_spec (e + 1) (1024 - 53)); [done|lia].
  - assert (q' = 2 ^ 53) as -> by lia.
    rewrite (Zdigits2_unique (2 ^ 53) 54) by lia.
    rewrite fexp53 by lia. replace (54 + (e + 1) - 53 - (e + 1)) with 1 by lia.
    change (2 ^ 53) with 9007199254740992.
    change (Z.to_pos (2 ^ 52)) with 4503599627370496%positive.
    cbn. replace (e + 1 + 1) with (e + 2) by lia.
    destruct (Z.leb_spec (e + 2) (1024 - 53)); [done|lia].
Qed.

(** The number of a positive integer below [2^53]: its normal form. *)
Lemma num_normal a :
  0 < a < 2 ^ 53 ->
  exists d, 2 ^ (d - 1) <= a < 2 ^ d /\ 0 < d <= 53 /\
    2 ^ 52 <= a * 2 ^ (53 - d) < 2 ^ 53 /\
    num a = S754_finite false (Z.to_pos (a * 2 ^ (53 - d))) (d - 53).
Proof.
  intros Ha. destruct a as [|p|p]; try lia.
  pose proof (digits2_pos_bounds p) as Hb.
  set (d := Z.pos (digits2_pos p)) in *.
  assert (Hd : 0 < d <= 53).
  { split; [done|]. destruct (Z.le_gt_cases d 53) as [|Hgt]; [done|].
    assert (2 ^ 53 <= 2 ^ (d - 1)) by (apply Z.pow_le_mono_r; lia). lia. }
  assert (Hm : 2 ^ 52 <= Z.pos p * 2 ^ (53 - d) < 2 ^ 53).
  { replace (2 ^ 52) with (2 ^ (d - 1) * 2 ^ (53 - d))
      by (rewrite <- Z.pow_add_r by lia; f_equal; lia).
    replace (2 ^ 53) with (2 ^ d * 2 ^ (53 - d))
      by (rewrite <- Z.pow_add_r by lia; f_equal; lia).
    pose proof (Z.pow_pos_nonneg 2 (53 - d)). nia. }
  exists d. split; [done|]. split; [done|]. split; [done|].
  unfold num, binary_normalize, binary_round, shl_align. fold d.
  rewrite fexp53 by lia.
  destruct (d + 0 - 53 - 0) as [|s|s] eqn:Es; try lia.
  - assert (d = 53) as Hd53 by lia. rewrite Hd53 in *.
    change (2 ^ (53 - 53)) with 1 in *. rewrite Z.mul_1_r in *.
    rewrite binary_round_aux_53 by lia. simpl.
    destruct (Z.ltb_spec (Z.pos p) (2 ^ 53)); [done|lia].
  - assert (Z.pos s = 53 - d) as Hs by lia.
    rewrite iter_xO, Hs.
    rewrite binary_round_aux_53 by lia. cbn [round_nearest_even]. cbv zeta.
    destruct (Z.ltb_spec (Z.pos p * 2 ^ (53 - d)) (2 ^ 53)); [|lia].
    f_equal; lia.
Qed.

Lemma new_location_spec m2 r :
  0 < m2 -> 0 <= r < m2 ->
  new_location m2 r = if r =? 0 then loc_Exact else loc_Inexact (2 * r ?= m2).
Proof.
  intros Hm Hr. unfold new_location.
  destruct (Z.even m2) eqn:Ev; unfold new_location_even, new_location_odd;
    (destruct (Z.eqb_spec r 0) as [->|Hne]; [done|]); [done|].
  f_equal. rewrite <- Z.negb_odd in Ev. apply negb_false_iff in Ev.
  apply Z.odd_spec in Ev as [j ->].
  destruct (Z.compare_spec (2 * r + 1) (2 * j + 1));
    destruct (Z.compare_spec (2 * r) (2 * j + 1)); try done; lia.
Qed.

Lemma SFdiv_normal m1 e1 m2 e2 :
  2 ^ 52 <= Z.pos m1 < 2 ^ 53 -> 2 ^ 52 <= Z.pos m2 < 2 ^ 53 ->
  -52 <= e1 <= 0 -> -52 <= e2 <= 0 ->
  SFdiv 53 1024 (S754_finite false m1 e1) (S754_finite false m2 e2) =
  binary_round_aux 53 1024 false (Z.pos m1 * 2 ^ 53 / Z.pos m2) (e1 - e2 - 53)
    (new_location (Z.pos m2) ((Z.pos m1 * 2 ^ 53) mod Z.pos m2)).
Proof.
  intros H1 H2 He1 He2. unfold SFdiv, SFdiv_core_binary.
  rewrite (Zdigits2_unique (Z.pos m1) 53), (Zdigits2_unique (Z.pos m2) 53) by lia.
  rewrite fexp53 by lia.
  replace (Z.min (53 + e1 - (53 + e2) - 53) (e1 - e2)) with (e1 - e2 - 53) by lia.
  replace (e1 - e2 - (e1 - e2 - 53)) with 53 by lia.
  rewrite Z.shiftl_mul_pow2 by lia.
  unfold Z.div, Z.modulo.
  by destruct (Z.div_eucl (Z.pos m1 * 2 ^ 53) (Z.pos m2)) as [q r].
Qed.

Lemma round_nearest_53 Q R M2 :
  0 < M2 -> 0 <= R < M2 ->
  let q' := round_nearest_even Q (new_location M2 R) in
  (q' = Q \/ q' = Q + 1) /\
  - M2 <= 2 * q' * M2 - 2 * (Q * M2 + R) <= M2.
Proof.
  intros HM HR. rewrite new_location_spec by lia.
  destruct (Z.eqb_spec R 0) as [->|Hne]; simpl; [split; [auto|lia]|].
  destruct (Z.compare_spec (2 * R) M2); [destruct (Z.even Q)|..];
    (split; [auto|nia]).
Qed.

Lemma round_nearest_54 Q R M2 :
  0 < M2 -> 0 <= R < M2 -> 0 <= Q ->
  let l := new_location M2 R in
  let q' := round_nearest_even (Q / 2)
              (loc_of_shr_record
                 (Build_shr_record (Q / 2) (Z.odd Q)
                    (match l with loc_Exact => false | _ => true end))) in
  (q' = Q / 2 \/ (q' = Q / 2 + 1 /\ Z.odd Q = true)) /\
  - M2 <= 2 * q' * M2 - (Q * M2 + R) <= M2.
Proof.
  intros HM HR HQ. rewrite new_location_spec by lia.
  pose proof (Z.div_mod Q 2 ltac:(lia)) as Hd. rewrite Zmod_odd in Hd.
  set (Q2 := Q / 2) in *.
  destruct (Z.eqb_spec R 0) as [->|Hne]; destruct (Z.odd Q); simpl;
    try (destruct (Z.even Q2)); (split; [auto|nia]).
Qed.

(** Division of positive integers below [2^53]: the quotient is a normal
    number, within half a unit in the last place of the exact quotient. *)
Lemma num_div_spec a b :
  0 < a < 2 ^ 53 -> 0 < b < 2 ^ 53 ->
  exists m e,
    num_div (num a) (num b) = S754_finite false m e /\
    2 ^ 52 <= Z.pos m < 2 ^ 53 /\ -105 <= e <= 0 /\
    - b <= 2 * Z.pos m * b - a * 2 ^ (1 - e) <= b.
Proof.
  intros Ha Hb.
  destruct (num_normal a Ha) as (da & Hda & Hda' & HM1 & ->).
  destruct (num_normal b Hb) as (db & Hdb & Hdb' & HM2 & ->).
  set (M1 := a * 2 ^ (53 - da)) in *. set (M2 := b * 2 ^ (53 - db)) in *.
  unfold num_div. rewrite SFdiv_normal by (rewrite ?Z2Pos.id; lia).
  rewrite !Z2Pos.id by lia.
  pose proof (Z.div_mod (M1 * 2 ^ 53) M2 ltac:(lia)) as Hdm.
  pose proof (Z.mod_pos_bound (M1 * 2 ^ 53) M2 ltac:(lia)) as HR.
  set (Q := M1 * 2 ^ 53 / M2) in *. set (R := (M1 * 2 ^ 53) mod M2) in *.
  set (T := 2 ^ (53 - db)) in *.
  assert (HT : 0 < T) by (apply Z.pow_pos_nonneg; lia).
  assert (HX : forall e, e = da - db - 53 -> a * 2 ^ (1 - e) * T = 2 * (M1 * 2 ^ 53)).
  { intros e ->. unfold T, M1. rewrite <- Z.mul_assoc, <- Z.pow_add_r by lia.
    replace (1 - (da - db - 53) + (53 - db)) with (53 - da + 54) by lia.
    rewrite Z.pow_add_r by lia. change (2 ^ 54) with (2 * 2 ^ 53). lia. }
  destruct (Z.lt_ge_cases M1 M2) as [Hlt|Hge].
  - assert (HQ : 2 ^ 52 <= Q < 2 ^ 53).
    { split; [apply Z.div_le_lower_bound; nia | apply Z.div_lt_upper_bound; nia]. }
    rewrite binary_round_aux_53 by lia.
    destruct (round_nearest_53 Q R M2 ltac:(lia) HR) as [Hq' Hbd]. cbv zeta in *.
    set (q' := round_nearest_even Q (new_location M2 R)) in *.
    specialize (HX _ eq_refl).
    destruct (Z.ltb_spec q' (2 ^ 53)) as [Hc|Hc].
    + exists (Z.to_pos q'), (da - 53 - (db - 53) - 53).
      rewrite Z2Pos.id by lia. split; [done|]. split; [lia|]. split; [lia|].
      replace (da - 53 - (db - 53) - 53) with (da - db - 53) by lia.
      set (X := a * 2 ^ (1 - (da - db - 53))) in *.
      fold M2 in Hbd. unfold M2 in Hbd. nia.
    + exists (Z.to_pos (2 ^ 52)), (da - 53 - (db - 53) - 53 + 1).
      rewrite Z2Pos.id by lia. split; [done|]. split; [lia|]. split; [lia|].
      assert (q' = 2 ^ 53) as Hq by lia.
      replace (1 - (da - 53 - (db - 53) - 53 + 1)) with (- (da - db - 53)) by lia.
      replace (1 - (da - db - 53)) with (Z.succ (- (da - db - 53))) in HX by lia.
      rewrite Z.pow_succ_r in HX by lia.
      set (X := a * 2 ^ (- (da - db - 53))) in *.
      rewrite Hq in Hbd. change (2 ^ 53) with (2 * 2 ^ 52) in Hbd.
      unfold M2 in Hbd. nia.
  - assert (HQ : 2 ^ 53 <= Q < 2 ^ 54).
    { split; [apply Z.div_le_lower_bound; nia | apply Z.div_lt_upper_bound; nia]. }
    rewrite binary_round_aux_54 by lia.
    destruct (round_nearest_54 Q R M2 ltac:(lia) HR ltac:(lia)) as [Hq' Hbd].
    cbv zeta in *.
    set (q' := round_nearest_even _ _) in *.
    assert (Hh : 2 ^ 52 <= Q / 2 < 2 ^ 53).
    { change (2 ^ 53) with (2 * 2 ^ 52) in HQ. change (2 ^ 54) with (2 * 2 ^ 53) in HQ.
      split; [apply Z.div_le_lower_bound; lia | apply Z.div_lt_upper_bound; lia]. }
    assert (Hno : q' < 2 ^ 53).
    { destruct Hq' as [->|[-> Hodd]]; [lia|].
      pose proof (Z.div_mod Q 2 ltac:(lia)) as Hd. rewrite Zmod_odd, Hodd in Hd.
      assert (Q <= 2 ^ 54 - 2); [|lia].
      assert (Q * M2 <= (2 ^ 54 - 2) * M2); [|nia].
      change (2 ^ 54) with (2 * 2 ^ 53) in *. nia. }
    destruct (Z.ltb_spec q' (2 ^ 53)) as [Hc|Hc]; [|lia].
    exists (Z.to_pos q'), (da - 53 - (db - 53) - 53 + 1).
    rewrite Z2Pos.id by lia. split; [done|]. split; [lia|].
    split; [lia|].
    replace (1 - (da - 53 - (db - 53) - 53 + 1)) with (- (da - db - 53)) by lia.
    specialize (HX _ eq_refl).
    replace (1 - (da - db - 53)) with (Z.succ (- (da - db - 53))) in HX by lia.
    rewrite Z.pow_succ_r in HX by lia.
    set (X := a * 2 ^ (- (da - db - 53))) in *.
    unfold M2 in Hbd. nia.
Qed.

Lemma Math_max_one k : 1 <= k < 2 ^ 53 -> Math_max (num 1) (num k) = num k.
Proof.
  intros Hk. destruct (Z.eq_dec k 1) as [->|Hne]; [reflexivity|].
  destruct (num_normal k ltac:(lia)) as (d & Hd & Hd' & HM & ->).
  assert (2 <= d).
  { destruct (Z.le_gt_cases 2 d); [done|]. assert (d = 1) as -> by lia.
    simpl in Hd. lia. }
  change (num 1) with (S754_finite false 4503599627370496 (-52)).
  unfold Math_max, SFcompare.
  destruct (Z.compare_spec (-52) (d - 53)); try lia. done.
Qed.

Lemma ceilDiv_spec a b : 0 < b -> (ceilDiv a b - 1) * b < a <= ceilDiv a b * b.
Proof.
  intros Hb. unfold ceilDiv.
  pose proof (Z.div_mod (- a) b ltac:(lia)).
  pose proof (Z.mod_pos_bound (- a) b Hb). nia.
Qed.

Lemma daysSinceCreation_exact now firstClick :
  0 <= now - firstClick < 2 ^ 53 ->
  daysSinceCreation now firstClick =
  num (Z.max 1 (ceilDiv (now - firstClick) msPerDay)).
Proof.
  intros Hd. unfold daysSinceCreation. set (delta := now - firstClick) in *.
  destruct (Z.eq_dec delta 0) as [->|Hne]; [reflexivity|].
  pose proof (ceilDiv_spec delta msPerDay ltac:(done)) as Hk.
  set (k := ceilDiv delta msPerDay) in *.
  change msPerDay with 86400000 in *.
  assert (Hk1 : 1 <= k < 2 ^ 53) by nia.
  rewrite Z.max_r by lia.
  destruct (num_div_spec delta 86400000 ltac:(lia) ltac:(done))
    as (m & e & -> & Hm & He & Hb).
  assert (e < 0).
  { destruct (Z.eq_dec e 0) as [->|]; [|lia]. change (2 ^ (1 - 0)) with 2 in Hb. lia. }
  unfold Math_ceil. destruct (Z.leb_spec 0 e); [lia|].
  replace (1 - e) with (Z.succ (- e)) in Hb by lia.
  rewrite Z.pow_succ_r in Hb by lia.
  assert (HP : 0 < 2 ^ (- e)) by (apply Z.pow_pos_nonneg; lia).
  set (P := 2 ^ (- e)) in *.
  pose proof (Z.div_mod (Z.pos m) P ltac:(lia)) as Hdm.
  pose proof (Z.mod_pos_bound (Z.pos m) P HP) as Hr.
  set (q := Z.pos m / P) in *. set (r := Z.pos m mod P) in *.
  rewrite <- (Math_max_one k Hk1). f_equal. f_equal.
  destruct (Z.eqb_spec r 0) as [E|E].
  - (* the quotient is an integer *)
    assert (q <= k) by nia.
    assert (k <= q); [|lia].
    destruct (Z.le_gt_cases k q); [done|].
    assert (2 * P <= 86400000) by nia.
    assert (2 ^ 52 <= (k - 1) * P) by nia.
    assert (2 ^ 53 <= (k - 1) * 86400000) by nia. lia.
  - assert (q + 1 <= k) by nia.
    assert (k <= q + 1); [|lia].
    destruct (Z.le_gt_cases k (q + 1)); [done|].
    assert (2 * P <= 86400000) by nia.
    assert (2 ^ 52 <= (k - 1) * P) by nia.
    assert (2 ^ 53 <= (k - 1) * 86400000) by nia. lia.
Qed.

Lemma hundredths_nearest c D m e :
  0 < c <= 2 ^ 45 -> 0 < D ->
  2 ^ 52 <= Z.pos m -> e <= 0 ->
  - D <= 2 * Z.pos m * D - c * 2 ^ (1 - e) <= D ->
  0 <= hundredths m e < 10 ^ 23 /\
  - D <= 2 * (hundredths m e * D - 100 * c) <= D.
Proof.
  intros Hc HD Hm He Hb.
  assert (e < 0).
  { destruct (Z.eq_dec e 0) as [->|]; [|lia]. change (2 ^ (1 - 0)) with 2 in Hb.
    change (2 ^ 45) with 35184372088832 in Hc.
    change (2 ^ 52) with 4503599627370496 in Hm. nia. }
  unfold hundredths. destruct (Z.leb_spec 0 e); [lia|].
  replace (1 - e) with (Z.succ (- e)) in Hb by lia.
  replace (- e + 1) with (Z.succ (- e)) by lia.
  rewrite Z.pow_succ_r in * by lia.
  assert (HP : 0 < 2 ^ (- e)) by (apply Z.pow_pos_nonneg; lia).
  set (P := 2 ^ (- e)) in *.
  pose proof (Z.div_mod (200 * Z.pos m + P) (2 * P) ltac:(lia)) as Hdm.
  pose proof (Z.mod_pos_bound (200 * Z.pos m + P) (2 * P) ltac:(lia)) as Hr.
  set (n := (200 * Z.pos m + P) / (2 * P)) in *.
  set (r := (200 * Z.pos m + P) mod (2 * P)) in *.
  change (2 ^ 45) with 35184372088832 in Hc.
  change (2 ^ 52) with 4503599627370496 in Hm.
  assert (HPD : 100 * D < P) by nia.
  assert (Hup : 2 * n * D - 200 * c - D <= 0).
  { destruct (Z.le_gt_cases (2 * n * D - 200 * c - D) 0); [done|].
    assert (P <= P * (2 * n * D - 200 * c - D)) by nia. nia. }
  assert (Hlo : 0 <= 2 * n * D + D - 200 * c).
  { destruct (Z.le_gt_cases 0 (2 * n * D + D - 200 * c)); [done|].
    assert (P * (2 * n * D + D - 200 * c) <= - P) by nia. nia. }
  split; [|lia].
  split; [apply Z.div_pos; lia|].
  assert (n * D <= 100 * c + D) by lia.
  assert (n <= 100 * c + 1) by nia.
  change (10 ^ 23) with 100000000000000000000000. lia.
Qed.

(** ** The resolution cache and the lookup *)

Lemma cacheFresh_resolvable now u : cacheFresh now u = true -> resolvable now u.
Proof.
  unfold cacheFresh, resolvable. intros H.
  apply andb_true_iff in H as [H1 H2]. apply negb_true_iff in H1.
  split; [done|]. intros t Ht. rewrite Ht in H2. lia.
Qed.

Lemma cacheFresh_stale now u : stale now u -> cacheFresh now u = false.
Proof.
  unfold cacheFresh. intros [H | (t & Ht & Hle)].
  - by rewrite H.
  - rewrite Ht. apply andb_false_iff. right. lia.
Qed.

Lemma storeExpired_false_resolvable now u :
  storeExpired now u = false -> resolvable now u.
Proof.
  unfold storeExpired, resolvable. intros H.
  apply orb_false_iff in H as [H1 H2].
  split; [done|]. intros t Ht. rewrite Ht in H2. lia.
Qed.

Lemma getUrl_store_Ok now code st u st' :
  getUrl_store now code st = (Ok u, st') ->
  store st !! code = Some u /\ storeExpired now u = false /\
  st' = mkState (store st) (<[code := u]> (cache st)).
Proof.
  unfold getUrl_store. destruct (store st !! code) as [url|] eqn:E; [|done].
  destruct (storeExpired now url) eqn:X; simpl; [done|].
  intros [= <- <-]. done.
Qed.

Lemma getUrl_try_miss now code st :
  cache st !! code = None -> getUrl_try now code st = getUrl_store now code st.
Proof. unfold getUrl_try. by intros ->. Qed.

Lemma getUrl_try_evicts now code st c :
  cache st !! code = Some c -> stale now c ->
  getUrl_try now code st = getUrl_store now code (evict code st).
Proof.
  intros Hc Hs. unfold getUrl_try. rewrite Hc, (cacheFresh_stale _ _ Hs). done.
Qed.

Lemma getUrl_try_Ok now code st u st' :
  getUrl_try now code st = (Ok u, st') -> resolvable now u.
Proof.
  unfold getUrl_try. destruct (cache st !! code) as [c|] eqn:E.
  - destruct (cacheFresh now c) eqn:F.
    + intros [= <- <-]. by apply cacheFresh_resolvable.
    + intros H. apply getUrl_store_Ok in H as (_ & H & _).
      by apply storeExpired_false_resolvable.
  - intros H. apply getUrl_store_Ok in H as (_ & H & _).
    by apply storeExpired_false_resolvable.
Qed.

Lemma getUrl_Ok now code st u st' :
  getUrl now code st = (Ok u, st') -> getUrl_try now code st = (Ok u, st').
Proof.
  unfold getUrl. destruct (getUrl_try now code st) as [[a|m] s]; simpl; congruence.
Qed.

(** C6: whatever the cache holds, a cached record that is flagged as
    expired or whose deadline has come is never what [getUrl] returns: the
    entry is evicted, the lookup goes on as it does on a miss, and a
    record that is returned comes from the collection and has not
    expired. *)
Theorem getUrl_cache_never_serves_expired now code st c :
  cache st !! code = Some c ->
  stale now c ->
  cache (evict code st) !! code = None /\
  getUrl now code st = getUrl now code (evict code st) /\
  (forall u st', getUrl now code st = (Ok u, st') ->
     store st !! code = Some u /\ resolvable now u).
Proof.
  intros Hc Hs.
  assert (Hev : cache (evict code st) !! code = None) by apply lookup_delete_eq.
  assert (Heq : getUrl now code st = getUrl now code (evict code st)).
  { unfold getUrl. rewrite (getUrl_try_evicts _ _ _ _ Hc Hs).
    by rewrite (getUrl_try_miss _ _ _ Hev). }
  split; [done|]. split; [done|].
  intros u st' H. split.
  - apply getUrl_Ok in H. rewrite (getUrl_try_evicts _ _ _ _ Hc Hs) in H.
    by apply getUrl_store_Ok in H as (H & _).
  - apply getUrl_Ok in H. by eapply getUrl_try_Ok.
Qed.

(** ** Deletion *)

Lemma deleteUrl_missing code uid st :
  store st !! code = None -> deleteUrl code uid st = (Throw msgNoSuchUrl, st).
Proof. unfold deleteUrl. by intros ->. Qed.

Lemma deleteUrl_other_owner code uid st u :
  store st !! code = Some u -> toString (userId u) <> toString uid ->
  deleteUrl code uid st = (Throw msgNotAuthorized, st).
Proof.
  unfold deleteUrl. intros -> Hne.
  destruct (String.eqb_spec (toString (userId u)) (toString uid)); [done|]. done.
Qed.

Lemma deleteUrl_owner code uid st u :
  store st !! code = Some u -> toString (userId u) = toString uid ->
  deleteUrl code uid st = (Ok u, mkState (delete code (store st)) (cache st)).
Proof.
  unfold deleteUrl. intros -> He. rewrite He, String.eqb_refl. done.
Qed.

Lemma getUrl_hit now code st c :
  cache st !! code = Some c -> cacheFresh now c = true ->
  getUrl now code st = (Ok c, st).
Proof. intros Hc Hf. unfold getUrl, getUrl_try. by rewrite Hc, Hf. Qed.

Lemma getUrl_miss_missing now code st :
  cache st !! code = None -> store st !! code = None ->
  getUrl now code st = (Throw NotFound, st).
Proof.
  intros Hc Hs. unfold getUrl. rewrite getUrl_try_miss by done.
  unfold getUrl_store. by rewrite Hs.
Qed.

(** After a delete by the owner the cache still answers for the code. *)
Lemma deleteUrl_keeps_cache_entry now code uid st u c :
  store st !! code = Some u -> toString (userId u) = toString uid ->
  cache st !! code = Some c -> cacheFresh now c = true ->
  let st' := snd (deleteUrl code uid st) in
  store st' !! code = None /\ getUrl now code st' = (Ok c, st').
Proof.
  intros Hs Ho Hc Hf. rewrite (deleteUrl_owner _ _ _ _ Hs Ho). simpl. split.
  - apply lookup_delete_eq.
  - by apply getUrl_hit.
Qed.

(** ** The aggregation *)

Lemma countClick_Throw m l : fold_left countClick l (Throw m) = Throw m.
Proof. induction l; simpl; auto. Qed.

Lemma fold_countClick_absent l : forall p,
  (exists click, In click l /\ userAgent click = None) ->
  fold_left countClick l (Ok p) = Throw msgIncludesOfUndefined.
Proof.
  induction l as [|c l IH]; intros [b r] (click & Hin & Hua); [destruct Hin|].
  simpl. destruct (userAgent c) as [ua|] eqn:E; simpl.
  - apply IH. destruct Hin as [-> | Hin]; [congruence | eauto].
  - apply countClick_Throw.
Qed.

(** A click without a [userAgent] makes the aggregation throw. *)
Lemma aggregate_absent_userAgent now url click :
  In click (analytics url) -> userAgent click = None ->
  aggregate now url = Throw msgIncludesOfUndefined.
Proof.
  intros Hin Hua. unfold aggregate. rewrite fold_countClick_absent by eauto.
  by destruct (analytics url).
Qed.

(** C10: when a click of the record carries no [userAgent] (a request
    without the header), the aggregation fails with the error of reading
    [includes] of [undefined], and so does [getUrlStats]: no histogram is
    returned and the click is not counted as [Other]. *)
Theorem getUrlStats_absent_userAgent_throws now code st url click :
  store st !! code = Some url ->
  In click (analytics url) ->
  userAgent click = None ->
  aggregate now url = Throw msgIncludesOfUndefined /\
  getUrlStats now code st = Throw (statsPrefix +:+ msgIncludesOfUndefined) /\
  forall stats, getUrlStats now code st <> Ok stats.
Proof.
  intros Hs Hin Hua.
  pose proof (aggregate_absent_userAgent now url click Hin Hua) as Ha.
  assert (Hg : getUrlStats now code st
               = Throw (statsPrefix +:+ msgIncludesOfUndefined)).
  { unfold getUrlStats. by rewrite Hs, Ha. }
  split; [done|]. split; [done|]. intros stats. by rewrite Hg.
Qed.

Lemma append_cons c (s t : string) : String c s +:+ t = String c (s +:+ t).
Proof. reflexivity. Qed.

Lemma append_nonempty_r (s t : string) : t <> "" -> s +:+ t <> "".
Proof. destruct s; [done|]. by rewrite append_cons. Qed.

Lemma append_assoc (s t u : string) : (s +:+ t) +:+ u = s +:+ (t +:+ u).
Proof.
  induction s as [|c s IH]; [done|]. by rewrite !append_cons, IH.
Qed.

Lemma ones_nonempty n : ones (S n) <> "".
Proof. cbn [ones]. by apply append_nonempty_r. Qed.

(** Counting [k] once more in a histogram that holds every key as counted. *)
Lemma bump_entry k n (m : gmap string JsVal) :
  m !! k = histogramEntry k n ->
  bump k m = match histogramEntry k (S n) with
             | Some v => <[k := v]> m
             | None => m
             end.
Proof.
  intros Hk. unfold bump. rewrite Hk. unfold histogramEntry.
  destruct n as [|n], (inherited k) as [s|], (k =? "__proto__")%string;
    try done.
  - assert (Hs : (s +:+ ones (S n) =? "")%string = false).
    { apply String.eqb_neq, append_nonempty_r, ones_nonempty. }
    rewrite Hs. do 2 f_equal. cbn [ones]. by rewrite append_assoc.
  - do 2 f_equal. lia.
  - do 2 f_equal. lia.
Qed.

Lemma histogramEntry_proto k n :
  histogramEntry k (S n) = None -> histogramEntry k n = None.
Proof.
  unfold histogramEntry. destruct (inherited k) as [s|]; [|done].
  destruct (k =? "__proto__")%string; [|done]. by destruct n.
Qed.

Lemma bump_histogramEntry k k' n (m : gmap string JsVal) :
  m !! k = histogramEntry k n ->
  bump k m !! k' =
  if decide (k = k') then histogramEntry k (S n) else m !! k'.
Proof.
  intros Hk. rewrite (bump_entry k n m Hk).
  destruct (decide (k = k')) as [<-|Hne].
  - destruct (histogramEntry k (S n)) as [v|] eqn:Ev; [by rewrite lookup_insert_eq|].
    by rewrite Hk, (histogramEntry_proto k n Ev).
  - destruct (histogramEntry k (S n)) as [v|]; [|done]. by rewrite lookup_insert_ne.
Qed.

Lemma fold_countClick_tallied l : forall seen p,
  Forall (fun c => is_Some (userAgent c)) l ->
  tallied seen p ->
  exists p', fold_left countClick l (Ok p) = Ok p' /\ tallied (seen ++ l) p'.
Proof.
  induction l as [|c l IH]; intros seen [b r] Hall Hp.
  - exists (b, r). by rewrite app_nil_r.
  - apply Forall_cons in Hall as [[ua Hua] Hall]. simpl. rewrite Hua.
    assert (exists label, getBrowserFromUserAgent (Some ua) = Ok label)
      as [label El] by (eexists; reflexivity).
    rewrite El.
    replace (seen ++ c :: l)%list with ((seen ++ [c]) ++ l)%list
      by by rewrite <- app_assoc.
    apply IH; [done|].
    destruct Hp as (P1 & P2). split; simpl.
    + intros lab. rewrite (bump_histogramEntry _ _ _ _ (P1 label)).
      rewrite filter_app, length_app, filter_cons, filter_nil, Hua, El.
      destruct (decide (label = lab)) as [->|Hne].
      * rewrite decide_True by done. f_equal. simpl. lia.
      * rewrite decide_False by congruence. rewrite P1. f_equal. simpl. lia.
    + intros ref. rewrite (bump_histogramEntry _ _ _ _ (P2 (referrerOf c))).
      rewrite filter_app, length_app, filter_cons, filter_nil.
      destruct (decide (referrerOf c = ref)) as [->|Hne].
      * f_equal. simpl. lia.
      * rewrite P2. f_equal. simpl. lia.
Qed.

Lemma tallied_nil : tallied [] (∅, ∅).
Proof. split; simpl; intros; by rewrite lookup_empty. Qed.

Lemma inherited_browserLabel ua label :
  getBrowserFromUserAgent (Some ua) = Ok label -> inherited label = None.
Proof.
  unfold getBrowserFromUserAgent.
  destruct (includes ua "Chrome"), (includes ua "Firefox"),
    (includes ua "Safari"), (includes ua "Edge"); by intros [= <-].
Qed.

(** A browser label is counted as a number. *)
Lemma histogramEntry_browser label (l : list ClickEvent) :
  histogramEntry label
    (length (filter (fun c => getBrowserFromUserAgent (userAgent c) = Ok label) l)) =
  JNum <$> counted
    (length (filter (fun c => getBrowserFromUserAgent (userAgent c) = Ok label) l)).
Proof.
  destruct (filter (fun c => getBrowserFromUserAgent (userAgent c) = Ok label) l)
    as [|c l'] eqn:Ef; [done|].
  assert (Hc : c ∈ filter (fun c => getBrowserFromUserAgent (userAgent c) = Ok label) l)
    by (rewrite Ef; left).
  apply list_elem_of_filter in Hc as [Hc _].
  destruct (userAgent c) as [ua|]; [|done].
  unfold histogramEntry. simpl length. by rewrite (inherited_browserLabel ua label Hc).
Qed.

(** When every click carries a [userAgent], the two histograms partition
    the clicks: each key holds what counting the clicks of its class
    leaves under it. *)
Lemma aggregate_partition now url :
  Forall (fun c => is_Some (userAgent c)) (analytics url) ->
  exists stats, aggregate now url = Ok stats /\
    totalClicks stats = clicks url /\
    (forall label, browserStats stats !! label =
       JNum <$> counted
         (length (filter (fun c => getBrowserFromUserAgent (userAgent c) = Ok label)
                         (analytics url)))) /\
    (forall r, referrerStats stats !! r =
       histogramEntry r (length (filter (fun c => referrerOf c = r) (analytics url)))).
Proof.
  intros Hall.
  destruct (fold_countClick_tallied (analytics url) [] (∅, ∅) Hall tallied_nil)
    as ([b r] & Hf & P1 & P2).
  simpl in *. unfold aggregate. rewrite Hf.
  match goal with |- context [let '(_, _) := ?x in _] => destruct x as [la avg] end.
  eexists; split; [reflexivity|]; simpl; split; [done|]; split; [|done].
  intros label. rewrite P1. apply histogramEntry_browser.
Qed.

Lemma getBrowserFromUserAgent_priority ua :
  getBrowserFromUserAgent (Some ua) =
  Ok (if includes ua "Chrome" then "Chrome"
      else if includes ua "Firefox" then "Firefox"
      else if includes ua "Safari" then "Safari"
      else if includes ua "Edge" then "Edge" else "Other").
Proof. reflexivity. Qed.

Lemma referrerOf_direct c :
  referer c = None \/ referer c = Some "" -> referrerOf c = "Direct".
Proof. unfold referrerOf. by intros [-> | ->]. Qed.

Lemma referrerOf_given c r : referer c = Some r -> r <> "" -> referrerOf c = r.
Proof.
  unfold referrerOf. intros -> Hr. simpl.
  destruct (String.eqb_spec r ""); done.
Qed.

Lemma aggregate_average now url stats :
  aggregate now url = Ok stats ->
  averageClicksPerDay stats =
  match analytics url with
  | [] => AvgZero
  | first :: _ =>
      AvgToFixed2 (num_div (num (Z.of_nat (clicks url)))
                           (daysSinceCreation now (timestamp first)))
  end.
Proof.
  unfold aggregate.
  destruct (fold_left countClick (analytics url) (Ok (∅, ∅)))
    as [[b r]|m]; [|by destruct (analytics url)].
  destruct (analytics url); intros [= <-]; done.
Qed.

(** C8: [averageClicksPerDay] is [0] for an empty click log.  Otherwise it
    is the two-decimal string of a hundredth [n / 100] nearest to
    [clicks / max(1, ceil((now - firstClick) / 1 day))]: within half a
    hundredth of the exact quotient, [firstClick] being the timestamp of
    the first entry of the log (for a first click not after [now], time
    differences below [2^53] ms and at most [2^45] clicks, where binary64
    arithmetic is accurate enough). *)
Theorem averageClicksPerDay_rounded now url stats :
  aggregate now url = Ok stats ->
  match analytics url with
  | [] => averageClicksPerDay stats = AvgZero
  | first :: _ =>
      0 <= now - timestamp first < 2 ^ 53 ->
      Z.of_nat (clicks url) <= 2 ^ 45 ->
      let days := Z.max 1 (ceilDiv (now - timestamp first) msPerDay) in
      exists x n,
        averageClicksPerDay stats = AvgToFixed2 x /\
        toFixed2 x = Some (fixed2 n) /\
        0 <= n /\
        - days <= 2 * (n * days - 100 * Z.of_nat (clicks url)) <= days
  end.
Proof.
  intros Ha. rewrite (aggregate_average _ _ _ Ha).
  destruct (analytics url) as [|first rest]; [done|].
  intros Hd Hc days. rewrite daysSinceCreation_exact by done. fold days.
  exists (num_div (num (Z.of_nat (clicks url))) (num days)).
  assert (Hdays : 1 <= days < 2 ^ 53).
  { pose proof (ceilDiv_spec (now - timestamp first) msPerDay ltac:(done)).
    change msPerDay with 86400000 in *. unfold days. nia. }
  destruct (Z.eq_dec (Z.of_nat (clicks url)) 0) as [E|E].
  - exists 0. split; [done|]. rewrite E.
    destruct (num_normal days ltac:(lia)) as (d & _ & _ & _ & ->).
    split; [done|]. lia.
  - destruct (num_div_spec (Z.of_nat (clicks url)) days) as (m & e & Hx & Hm & He & Hb);
      [change (2 ^ 45) with 35184372088832 in Hc;
       change (2 ^ 53) with 9007199254740992; lia | lia |].
    destruct (hundredths_nearest (Z.of_nat (clicks url)) days m e) as [Hn Hb'];
      [lia..|].
    exists (hundredths m e). split; [done|]. rewrite Hx. split; [|lia].
    unfold toFixed2. destruct (Z.ltb_spec (hundredths m e) (10 ^ 23)); [done|lia].
Qed.

(** ** Creation *)

Section Properties.

Variable baseUrl : string.
Variable toDataURL : string -> string.

Lemma aliasRegex_nonempty a : aliasRegex a = true -> a <> "".
Proof. unfold aliasRegex. intros H ->. done. Qed.

Lemma truthy_Some a : a <> "" -> truthy (Some a) = true.
Proof. intros H. simpl. by destruct (String.eqb_spec a ""). Qed.

Lemma createShortUrl_bad_alias now nano long a expires uid st :
  a <> "" -> aliasRegex a = false ->
  createShortUrl baseUrl toDataURL now nano long (Some a) expires uid st
    = (Throw InvalidAliasFormat, st).
Proof.
  intros Ha Hr. unfold createShortUrl, createShortUrl_try.
  rewrite (truthy_Some _ Ha). simpl. by rewrite Hr.
Qed.

Lemma createShortUrl_taken now nano long a expires uid st :
  aliasRegex a = true -> is_Some (store st !! a) ->
  createShortUrl baseUrl toDataURL now nano long (Some a) expires uid st
    = (Throw AliasAlreadyInUse, st).
Proof.
  intros Hr Hs. unfold createShortUrl, createShortUrl_try.
  rewrite (truthy_Some _ (aliasRegex_nonempty _ Hr)). simpl. rewrite Hr. simpl.
  by rewrite bool_decide_eq_true_2.
Qed.

Lemma preSave_fields now u :
  urlCode (preSave now u) = urlCode u /\ clicks (preSave now u) = clicks u /\
  analytics (preSave now u) = analytics u /\ expiresAt (preSave now u) = expiresAt u /\
  userId (preSave now u) = userId u.
Proof. unfold preSave. destruct (expiresAt u) eqn:E; [destruct (_ <? _)|]; done. Qed.

Lemma save_new_Ok now u s u' s' :
  save_new now u s = Ok (u', s') ->
  s !! urlCode u = None /\ u' = preSave now u /\ s' = <[urlCode u := u']> s.
Proof.
  unfold save_new. destruct (missingPaths u); [|done].
  destruct (s !! urlCode u); [done|]. by intros [= <- <-].
Qed.

(** What a successful [createShortUrl] did. *)
Lemma createShortUrl_Ok now nano long customAlias expires uid st u st' :
  createShortUrl baseUrl toDataURL now nano long customAlias expires uid st
    = (Ok u, st') ->
  let code := if truthy customAlias then default "" customAlias else nano in
  urlCode u = code /\ clicks u = 0%nat /\ analytics u = [] /\
  expiresAt u = expires /\ userId u = ObjectId (toString uid) /\
  store st !! code = None /\
  st' = mkState (<[code := u]> (store st)) (<[code := u]> (cache st)).
Proof.
  intros H code. revert H.
  unfold createShortUrl, createShortUrl_try. fold code. intros H.
  destruct (truthy customAlias && negb (aliasRegex (default "" customAlias)));
    [done|].
  destruct (truthy customAlias && bool_decide _); [done|].
  match type of H with context [save_new ?n ?x ?s] =>
    destruct (save_new n x s) as [[u1 s1]|m] eqn:E end; [|done].
  simpl in H. injection H as <- <-.
  apply save_new_Ok in E as (E1 & E2 & E3). simpl in *.
  destruct (preSave_fields now (newUrl now code long (baseUrl +:+ "/" +:+ code)
     (toDataURL (baseUrl +:+ "/" +:+ code)) expires uid)) as (F1 & F2 & F3 & F4 & F5).
  rewrite <- E2 in *. simpl in *. subst s1. done.
Qed.

(** A failed [createShortUrl] leaves the state as it was. *)
Lemma createShortUrl_Throw now nano long customAlias expires uid st m st' :
  createShortUrl baseUrl toDataURL now nano long customAlias expires uid st
    = (Throw m, st') ->
  st' = st.
Proof.
  unfold createShortUrl, createShortUrl_try. intros H.
  destruct (truthy customAlias && negb (aliasRegex (default "" customAlias)));
    [by injection H|].
  destruct (truthy customAlias && bool_decide _); [by injection H|].
  match type of H with context [save_new ?n ?x ?s] =>
    destruct (save_new n x s) as [[u1 s1]|m1] eqn:E end; [done|].
  by injection H.
Qed.

Lemma createShortUrl_free_alias now nano long a expires uid st :
  aliasRegex a = true -> store st !! a = None ->
  long <> "" -> toDataURL (baseUrl +:+ "/" +:+ a) <> "" ->
  exists u st',
    createShortUrl baseUrl toDataURL now nano long (Some a) expires uid st
    = (Ok u, st').
Proof.
  intros Hr Hs Hl Hq. unfold createShortUrl, createShortUrl_try.
  pose proof (aliasRegex_nonempty _ Hr) as Ha.
  rewrite (truthy_Some _ Ha). simpl. rewrite Hr. simpl.
  rewrite bool_decide_eq_false_2 by (rewrite Hs; by intros [? ?]).
  assert (Hshort : baseUrl +:+ "/" +:+ a <> "") by by destruct baseUrl.
  unfold save_new, missingPaths, requiredPaths. simpl.
  apply String.eqb_neq in Ha, Hl, Hq, Hshort. rewrite Ha, Hl, Hq, Hshort.
  simpl. rewrite Hs. simpl. eauto.
Qed.

(** C5 (amended): for a create with a non-empty [customAlias]: an alias
    that does not match [[A-Za-z0-9_-]+] fails with [InvalidAliasFormat] and
    the state is as before; a matching alias that a record already has
    fails with [AliasAlreadyInUse]; a matching alias that is free is, on
    success, the code of the created record, success is what happens when
    the document passes validation, and from then on every create with
    that alias fails with [AliasAlreadyInUse]. *)
Theorem createShortUrl_custom_alias now nano long a expires uid st :
  a <> "" ->
  (aliasRegex a = false ->
   createShortUrl baseUrl toDataURL now nano long (Some a) expires uid st
     = (Throw InvalidAliasFormat, st)) /\
  (aliasRegex a = true -> is_Some (store st !! a) ->
   createShortUrl baseUrl toDataURL now nano long (Some a) expires uid st
     = (Throw AliasAlreadyInUse, st)) /\
  (aliasRegex a = true -> store st !! a = None ->
   (long <> "" -> toDataURL (baseUrl +:+ "/" +:+ a) <> "" ->
    exists u st',
      createShortUrl baseUrl toDataURL now nano long (Some a) expires uid st
      = (Ok u, st')) /\
   (forall u st',
      createShortUrl baseUrl toDataURL now nano long (Some a) expires uid st
        = (Ok u, st') ->
      urlCode u = a /\ store st' !! a = Some u /\
      forall now' nano' long' expires' uid',
        createShortUrl baseUrl toDataURL now' nano' long' (Some a) expires' uid' st'
        = (Throw AliasAlreadyInUse, st'))).
Proof.
  intros Ha. split; [|split].
  - by apply createShortUrl_bad_alias.
  - by apply createShortUrl_taken.
  - intros Hr Hs. split; [by apply createShortUrl_free_alias|].
    intros u st' H. apply createShortUrl_Ok in H. cbv zeta in H.
    rewrite (truthy_Some _ Ha) in H. simpl in H.
    destruct H as (H1 & _ & _ & _ & _ & _ & ->). simpl.
    split; [done|]. split; [by rewrite lookup_insert_eq|].
    intros. apply createShortUrl_taken; [done|]. simpl.
    by rewrite lookup_insert_eq.
Qed.

(** *** The loop of [createBulkUrls] *)
Lemma createBulkUrls_loop_cons env i url rest uid results st :
  createBulkUrls_loop baseUrl toDataURL env i (Some url :: rest) uid results st =
  createBulkUrls_loop baseUrl toDataURL env (S i) rest uid
    (results ++ [outcomeOf url (fst (createItem baseUrl toDataURL (env i) url uid st))])
    (snd (createItem baseUrl toDataURL (env i) url uid st)).
Proof.
  simpl. unfold createItem.
  by destruct (createShortUrl baseUrl toDataURL _ _ _ _ _ _ _) as [[c|m] st'].
Qed.

Lemma createBulkUrls_loop_state env urls uid : forall i r1 r2 st,
  snd (createBulkUrls_loop baseUrl toDataURL env i urls uid r1 st) =
  snd (createBulkUrls_loop baseUrl toDataURL env i urls uid r2 st).
Proof.
  induction urls as [|[url|] rest IH]; intros; [done| |done].
  rewrite !createBulkUrls_loop_cons. apply IH.
Qed.

(** A call that returns had no [null] in its array, and pushed the outcome
    of every element. *)
Lemma createBulkUrls_loop_results env urls uid : forall i results st out,
  fst (createBulkUrls_loop baseUrl toDataURL env i urls uid results st) = Ok out ->
  exists outcomes,
    out = results ++ outcomes /\
    length outcomes = length urls /\
    forall k e, urls !! k = Some e ->
      exists url, e = Some url /\
      outcomes !! k =
      Some (outcomeOf url (fst (createItem baseUrl toDataURL (env (i + k)%nat) url uid
              (snd (createBulkUrls_loop baseUrl toDataURL env i (take k urls) uid [] st))))).
Proof.
  induction urls as [|[url|] rest IH]; intros i results st out Hout.
  - simpl in Hout. injection Hout as <-. exists []. rewrite app_nil_r. done.
  - rewrite createBulkUrls_loop_cons in Hout.
    destruct (IH _ _ _ _ Hout) as (outs & E & L & K).
    eexists (_ :: outs). split; [|split].
    + rewrite E, <- app_assoc. reflexivity.
    + simpl. by rewrite L.
    + intros [|k] e Hk; simpl in Hk.
      * injection Hk as <-. exists url. split; [done|]. simpl. by rewrite Nat.add_0_r.
      * destruct (K k e Hk) as (item & -> & Ho). exists item. split; [done|].
        simpl take. rewrite createBulkUrls_loop_cons. simpl lookup.
        rewrite Ho. replace (i + S k)%nat with (S i + k)%nat by lia.
        do 4 f_equal. apply createBulkUrls_loop_state.
  - done.
Qed.

(** On an array of objects the loop returns. *)
Lemma createBulkUrls_loop_objects env items uid : forall i results st,
  exists out,
    fst (createBulkUrls_loop baseUrl toDataURL env i (Some <$> items) uid results st)
    = Ok out.
Proof.
  induction items as [|url rest IH]; intros i results st.
  - by eexists.
  - rewrite fmap_cons, createBulkUrls_loop_cons. apply IH.
Qed.

(** The first [null] of the array ends the call with the [TypeError], in
    the state the objects before it left; what follows it is not looked
    at. *)
Lemma createBulkUrls_loop_null env items rest uid : forall i results st,
  createBulkUrls_loop baseUrl toDataURL env i ((Some <$> items) ++ None :: rest)
    uid results st =
  (Throw msgLongUrlOfNull,
   snd (createBulkUrls_loop baseUrl toDataURL env i (Some <$> items) uid results st)).
Proof.
  induction items as [|url items IH]; intros i results st; [done|].
  rewrite fmap_cons, <- app_comm_cons, !createBulkUrls_loop_cons. apply IH.
Qed.

(** On an array of objects [createBulkUrls] returns one outcome per item, in
    the order of the items; the outcome of an item is that of its own
    [createShortUrl], run in the state the items before it left, a failure
    being recorded as [Failed originalUrl error]. *)
Lemma createBulkUrls_objects env items uid st :
  exists results,
    fst (createBulkUrls baseUrl toDataURL env (Some <$> items) uid st) = Ok results /\
    length results = length items /\
    map originalUrl results = map item_longUrl items /\
    forall k url, items !! k = Some url ->
      let before :=
        snd (createBulkUrls baseUrl toDataURL env (Some <$> take k items) uid st) in
      results !! k = Some
        match fst (createShortUrl baseUrl toDataURL (clock (env k)) (nanoid (env k))
                     (item_longUrl url) (item_customAlias url) (item_expiresAt url)
                     uid before) with
        | Ok created => Created (item_longUrl url) (shortUrl created)
        | Throw m => Failed (item_longUrl url) m
        end.
Proof.
  unfold createBulkUrls.
  destruct (createBulkUrls_loop_objects env items uid 0 [] st) as [results Hr].
  exists results. split; [done|].
  destruct (createBulkUrls_loop_results env _ uid 0 [] st results Hr)
    as (outs & E & L & K).
  simpl in E. subst outs. rewrite length_fmap in L.
  assert (K' : forall k url, items !! k = Some url ->
            results !! k = Some (outcomeOf url
              (fst (createItem baseUrl toDataURL (env k) url uid
                 (snd (createBulkUrls_loop baseUrl toDataURL env 0
                         (Some <$> take k items) uid [] st)))))).
  { intros k url Hk.
    destruct (K k (Some url)) as (url' & [= <-] & Ho).
    - by rewrite list_lookup_fmap, Hk.
    - by rewrite Ho, fmap_take. }
  split; [done|]. split.
  - apply list_eq. intros k. rewrite !list_lookup_fmap.
    destruct (items !! k) as [url|] eqn:Hk.
    + rewrite (K' k url Hk). simpl. f_equal.
      by destruct (fst (createItem baseUrl toDataURL _ _ _ _)).
    + apply lookup_ge_None in Hk. rewrite lookup_ge_None_2 by lia. done.
  - intros k url Hk. rewrite (K' k url Hk). done.
Qed.

(** With a [null] among its elements [createBulkUrls] throws: the objects
    before the first [null] were processed, and no outcome is returned. *)
Lemma createBulkUrls_null env items rest uid st :
  createBulkUrls baseUrl toDataURL env ((Some <$> items) ++ None :: rest) uid st =
  (Throw msgLongUrlOfNull,
   snd (createBulkUrls baseUrl toDataURL env (Some <$> items) uid st)).
Proof. apply createBulkUrls_loop_null. Qed.

(** ** Runs of the service *)

Lemma created_refl code st : created code st st.
Proof. by left. Qed.

Lemma created_trans code st st1 st2 :
  created code st st1 -> created code st1 st2 -> created code st st2.
Proof.
  intros [[A1 A2] | (u & A1 & A2 & A3 & A4 & A5)]
         [[B1 B2] | (v & B1 & B2 & B3 & B4 & B5)].
  - left. split; congruence.
  - right. exists v. rewrite <- A1. done.
  - right. exists u. rewrite B1, B2. done.
  - congruence.
Qed.

Lemma created_change op code st st' : created code st st' -> change op code st st'.
Proof.
  intros [[A1 A2] | (u & A1 & A2 & A3 & A4 & A5)].
  - by apply Unchanged.
  - by apply (Inserted _ _ _ _ u).
Qed.

Lemma createShortUrl_created now nano long alias expires uid st code :
  created code st
    (snd (createShortUrl baseUrl toDataURL now nano long alias expires uid st)).
Proof.
  destruct (createShortUrl baseUrl toDataURL now nano long alias expires uid st)
    as [[u|m] st'] eqn:E.
  - apply createShortUrl_Ok in E. cbv zeta in E.
    destruct E as (E1 & E2 & E3 & _ & _ & E6 & ->). simpl.
    set (k := if truthy alias then _ else _) in *.
    destruct (decide (k = code)) as [<-|Hne].
    + right. exists u. simpl. rewrite !lookup_insert_eq. done.
    + left. simpl. by rewrite !lookup_insert_ne.
  - apply createShortUrl_Throw in E as ->. apply created_refl.
Qed.

Lemma createBulkUrls_loop_created env urls uid code : forall i results st,
  created code st (snd (createBulkUrls_loop baseUrl toDataURL env i urls uid results st)).
Proof.
  induction urls as [|[url|] rest IH]; intros i results st; try apply created_refl.
  rewrite createBulkUrls_loop_cons.
  eapply created_trans; [|apply IH]. apply createShortUrl_created.
Qed.

Lemma getUrl_store_evict_change op now k st code :
  change op code st (snd (getUrl_store now k (evict k st))).
Proof.
  unfold getUrl_store, evict. simpl.
  destruct (store st !! k) as [u|] eqn:Hs; simpl.
  - destruct (storeExpired now u) eqn:X; simpl;
      (destruct (decide (k = code)) as [<-|Hne]; simpl).
    + apply (Flagged _ _ _ _ u now); simpl;
        rewrite ?lookup_insert_eq, ?lookup_delete_eq; done.
    + apply Unchanged; simpl;
        rewrite ?lookup_insert_ne, ?lookup_delete_ne by done; done.
    + apply (Served _ _ _ _ u now); simpl; rewrite ?lookup_insert_eq; done.
    + apply Unchanged; simpl;
        rewrite ?lookup_insert_ne, ?lookup_delete_ne by done; done.
  - destruct (decide (k = code)) as [<-|Hne].
    + apply Evicted; simpl; [done|apply lookup_delete_eq].
    + apply Unchanged; simpl; [done|by apply lookup_delete_ne].
Qed.

Lemma evict_absent k st : cache st !! k = None -> evict k st = st.
Proof. intros H. destruct st as [s c]. unfold evict. simpl in *. by rewrite delete_id. Qed.

Lemma snd_getUrl now k st : snd (getUrl now k st) = snd (getUrl_try now k st).
Proof. unfold getUrl. by destruct (getUrl_try now k st). Qed.

Lemma getUrl_change op now k st code :
  change op code st (snd (getUrl now k st)).
Proof.
  rewrite snd_getUrl. unfold getUrl_try.
  destruct (cache st !! k) as [c|] eqn:Hc.
  - destruct (cacheFresh now c); [by apply Unchanged|].
    apply getUrl_store_evict_change.
  - rewrite <- (evict_absent k st Hc) at 2. apply getUrl_store_evict_change.
Qed.

Lemma trackClick_change now k reqData st code :
  change (OpTrack now k reqData) code st (snd (trackClick now k reqData st)).
Proof.
  unfold trackClick, findOneAndUpdate.
  destruct (store st !! k) as [u|] eqn:Hs; simpl; [|by apply Unchanged].
  destruct (decide (k = code)) as [<-|Hne].
  - apply (Clicked _ _ _ _ u now reqData); simpl; rewrite ?lookup_insert_eq; done.
  - apply Unchanged; simpl; by rewrite lookup_insert_ne.
Qed.

Lemma deleteUrl_change k uid st code :
  change (OpDelete k uid) code st (snd (deleteUrl k uid st)).
Proof.
  unfold deleteUrl.
  destruct (store st !! k) as [u|] eqn:Hs; simpl; [|by apply Unchanged].
  destruct (negb _); simpl; [by apply Unchanged|].
  destruct (decide (k = code)) as [<-|Hne].
  - apply (Deleted _ _ _ _ uid); simpl; [done|apply lookup_delete_eq|done].
  - apply Unchanged; simpl; [by apply lookup_delete_ne|done].
Qed.

Lemma run_change op st code : change op code st (run baseUrl toDataURL op st).
Proof.
  destruct op; simpl.
  - apply created_change, createShortUrl_created.
  - apply created_change, createBulkUrls_loop_created.
  - apply getUrl_change.
  - apply trackClick_change.
  - apply deleteUrl_change.
Qed.

(** *** What the runs preserve *)

Lemma preSave_set_isExpired now u :
  isExpired (preSave now (set_isExpired true u)) = true /\
  clicks (preSave now (set_isExpired true u)) = clicks u /\
  analytics (preSave now (set_isExpired true u)) = analytics u.
Proof.
  unfold preSave. simpl. destruct (expiresAt u); [destruct (_ <? _)|]; done.
Qed.

Lemma coherent_change op st st' :
  (forall code, change op code st st') -> coherent st -> coherent st'.
Proof.
  intros Hch Hco code c r Hc Hr.
  destruct (Hch code) as [A B|u A B C D E|u n A B C D|A B|u n A C D|u n q A B C D|u A B C];
    try congruence.
  rewrite A in Hr. rewrite B in Hc. eauto.
Qed.

Lemma counted_change op st st' :
  (forall code, change op code st st') -> counted_state st -> counted_state st'.
Proof.
  intros Hch Hco code x Hx. unfold counts.
  destruct (Hch code) as [A B|u A B C D E|u n A B C D|A B|u n A C D|u n q A B C D|u A B C].
  - rewrite A, B in Hx. by apply (Hco code).
  - assert (x = u) as -> by (destruct Hx; congruence). rewrite B, C. done.
  - assert (x = u) as -> by (destruct Hx; congruence). apply (Hco code). by left.
  - rewrite A, B in Hx. apply (Hco code). left. by destruct Hx.
  - rewrite C, D in Hx. destruct Hx as [[= <-]|]; [|done].
    destruct (preSave_set_isExpired n u) as (_ & -> & ->). apply (Hco code). by left.
  - assert (x = inc_push (clickOf n q) u) as -> by (destruct Hx; congruence).
    simpl. rewrite length_app. simpl.
    assert (counts u) as -> by (apply (Hco code); by left). lia.
  - rewrite B, C in Hx. apply (Hco code). right. by destruct Hx.
Qed.

Lemma flagged_change op code st st' :
  keeps code op -> change op code st st' -> flagged code st -> flagged code st'.
Proof.
  intros Hk Hch ((r & Hr & He) & Hc).
  destruct Hch as [A B|u A B C D E|u n A B C D|A B|u n A C D|u n q A B C D|u A B C].
  - split; [exists r; by rewrite A|]. intros c. rewrite B. apply Hc.
  - congruence.
  - assert (u = r) as -> by congruence. unfold storeExpired in B.
    rewrite He in B. done.
  - split; [exists r; by rewrite A|]. intros c. by rewrite B.
  - split; [|intros c; by rewrite D].
    eexists; split; [done|]. apply preSave_set_isExpired.
  - assert (u = r) as -> by congruence. split.
    + eexists; split; [done|]. done.
    + intros c. rewrite D. by intros [= <-].
  - subst op. simpl in Hk. done.
Qed.



Lemma run_all_snoc ops op st :
  run_all baseUrl toDataURL (ops ++ [op]) st
  = run baseUrl toDataURL op (run_all baseUrl toDataURL ops st).
Proof. unfold run_all. by rewrite fold_left_app. Qed.

Lemma reachable_ind' (P : State -> Prop) :
  P init ->
  (forall op st,
     reachable baseUrl toDataURL st -> P st -> P (run baseUrl toDataURL op st)) ->
  forall st, reachable baseUrl toDataURL st -> P st.
Proof.
  intros H0 Hs st [ops ->]. induction ops as [|op ops IH] using rev_ind; [done|].
  rewrite run_all_snoc. apply Hs; [by exists ops|done].
Qed.

Lemma reachable_coherent st : reachable baseUrl toDataURL st -> coherent st.
Proof.
  apply reachable_ind'.
  - intros code c r H. cbn in H. by rewrite lookup_empty in H.
  - intros op s _ H. eapply coherent_change; [|done]. intros code. apply run_change.
Qed.

Lemma reachable_counted st : reachable baseUrl toDataURL st -> counted_state st.
Proof.
  apply reachable_ind'.
  - intros code u [H|H]; cbn in H; by rewrite lookup_empty in H.
  - intros op s _ H. eapply counted_change; [|done]. intros code. apply run_change.
Qed.

Lemma flagged_run_all code ops : forall st,
  Forall (keeps code) ops -> flagged code st ->
  flagged code (run_all baseUrl toDataURL ops st).
Proof.
  induction ops as [|op ops IH]; intros st Hk Hf; [done|].
  apply Forall_cons in Hk as [Hk1 Hk2]. simpl. apply IH; [done|].
  eapply flagged_change; [done| |done]. apply run_change.
Qed.

Lemma getUrl_flagged now code st :
  flagged code st -> fst (getUrl now code st) = Throw Expired.
Proof.
  intros ((r & Hr & He) & Hc). unfold getUrl, getUrl_try.
  assert (X : storeExpired now r = true) by (unfold storeExpired; by rewrite He).
  destruct (cache st !! code) as [c|] eqn:E.
  - unfold cacheFresh. rewrite (Hc c eq_refl). simpl.
    unfold getUrl_store. simpl. rewrite Hr, X. done.
  - unfold getUrl_store. rewrite Hr, X. done.
Qed.


Lemma preSave_flagged now u t :
  expiresAt u = Some t -> t < now ->
  preSave now (set_isExpired true u) = set_isExpired true u.
Proof.
  intros He Ht. unfold preSave. simpl. rewrite He.
  destruct (Z.ltb_spec t now); [done|lia].
Qed.

Lemma getUrl_store_expired now code st u t :
  store st !! code = Some u -> expiresAt u = Some t -> t < now ->
  getUrl_store now code st =
  (Throw msgExpired, mkState (<[code := set_isExpired true u]> (store st)) (cache st)).
Proof.
  intros Hs He Ht. unfold getUrl_store, storeExpired, save_loaded.
  rewrite Hs, He. destruct (Z.ltb_spec t now); [|lia].
  rewrite orb_true_r. by rewrite (preSave_flagged now u t).
Qed.

(** C3: in a state the service reaches, [getUrl] on a record whose
    [expiresAt] has passed fails with [Expired], and the collection then
    holds the record with [isExpired] set; after any further calls that
    do not delete the record, at any time, [getUrl] on it fails with
    [Expired] again. *)
Theorem getUrl_expired_is_terminal st code u t now :
  reachable baseUrl toDataURL st ->
  store st !! code = Some u -> expiresAt u = Some t -> t < now ->
  fst (getUrl now code st) = Throw Expired /\
  store (snd (getUrl now code st)) !! code = Some (set_isExpired true u) /\
  forall ops now',
    Forall (keeps code) ops ->
    fst (getUrl now' code
           (run_all baseUrl toDataURL ops (snd (getUrl now code st))))
    = Throw Expired.
Proof.
  intros Hr Hs He Ht.
  assert (Hg : getUrl now code st =
    (Throw Expired,
     mkState (<[code := set_isExpired true u]> (store st)) (delete code (cache st)))).
  { unfold getUrl, getUrl_try. destruct (cache st !! code) as [c|] eqn:Hc.
    - rewrite (reachable_coherent st Hr code c u Hc Hs).
      unfold cacheFresh. rewrite He. destruct (Z.ltb_spec now t); [lia|].
      rewrite andb_false_r.
      by rewrite (getUrl_store_expired now code _ u t).
    - rewrite (getUrl_store_expired now code _ u t) by done.
      by rewrite delete_id. }
  rewrite Hg. simpl. split; [done|]. split; [apply lookup_insert_eq|].
  intros ops now' Hk. apply getUrl_flagged, flagged_run_all; [done|].
  split; simpl.
  - eexists. split; [apply lookup_insert_eq|done].
  - intros c. by rewrite lookup_delete_eq.
Qed.

(** C4 (amended): when the calls complete one after the other, the cache
    refresh of [trackClick] replaces what is cached for the code by the
    record the store update returned, which has exactly one click more
    than the cached one, and the cached log with the entry of this call
    appended. *)
Theorem trackClick_refresh_sequential st now code reqData old u st' :
  reachable baseUrl toDataURL st ->
  cache st !! code = Some old ->
  trackClick now code reqData st = (Some u, st') ->
  cache st' !! code = Some u /\
  clicks u = S (clicks old) /\
  analytics u = analytics old ++ [clickOf now reqData].
Proof.
  intros Hr Hc. unfold trackClick, findOneAndUpdate.
  destruct (store st !! code) as [r|] eqn:Hs; [|done].
  intros [= <- <-]. simpl. rewrite lookup_insert_eq.
  rewrite (reachable_coherent st Hr code old r Hc Hs). split; [done|]. split; done.
Qed.

End Properties.

(** ** The service at work *)

Lemma promoCreated_reachable : reachable demoBase demoCodec promoCreated.
Proof. exists [createPromo]. reflexivity. Qed.

Lemma promoHeadless_reachable : reachable demoBase demoCodec promoHeadless.
Proof. exists [createPromo; OpTrack 2000 "promo" headless]. reflexivity. Qed.

Lemma saleCreated_reachable : reachable demoBase demoCodec saleCreated.
Proof. exists [createSale]. reflexivity. Qed.

(** The example of the aggregation: two browsers, three referrers, and
    three clicks over two hundred days. *)
Example aggregate_threeClicks :
  match aggregate (200 * msPerDay) threeClicks with
  | Ok stats =>
      (totalClicks stats, lastClicked stats) = (3%nat, Some 9) /\
      (browserStats stats !! "Chrome", browserStats stats !! "Firefox",
       browserStats stats !! "Other") = (Some (JNum 2), Some (JNum 1), None) /\
      (referrerStats stats !! "https://google.com", referrerStats stats !! "Direct",
       referrerStats stats !! "https://github.com", referrerStats stats !! "")
      = (Some (JNum 1), Some (JNum 1), Some (JNum 1), None) /\
      match averageClicksPerDay stats with
      | AvgToFixed2 x => toFixed2 x = Some "0.01"
      | AvgZero => False
      end
  | Throw _ => False
  end.
Proof. vm_compute. split_and!; reflexivity. Qed.

(** C1: [deleteUrl] takes the record out of the collection and leaves
    [this.cache] alone: after the owner has deleted [promo], which
    [createShortUrl] had cached, the collection no longer has it, and yet
    [getUrl] returns it from the cache instead of failing with
    [NotFound]. *)
Theorem deleteUrl_then_getUrl_still_resolves :
  fst (deleteUrl "promo" alice promoCreated) = Ok promo0 /\
  store promoDeleted !! "promo" = None /\
  cache promoDeleted !! "promo" = Some promo0 /\
  getUrl 2000 "promo" promoDeleted = (Ok promo0, promoDeleted) /\
  fst (getUrl 2000 "promo" promoDeleted) <> Throw NotFound.
Proof.
  assert (Hs : store promoCreated !! "promo" = Some promo0) by (vm_compute; reflexivity).
  assert (Hc : cache promoCreated !! "promo" = Some promo0) by (vm_compute; reflexivity).
  destruct (deleteUrl_keeps_cache_entry 2000 "promo" alice promoCreated promo0 promo0
              Hs eq_refl Hc eq_refl) as [H1 H2].
  unfold promoDeleted, run.
  rewrite (deleteUrl_owner "promo" alice promoCreated promo0 Hs eq_refl) in *.
  simpl in *. split; [done|]. split; [done|]. split; [done|].
  split; [done|]. rewrite H2. discriminate.
Qed.

(** C7: a click recorded from a request without a [User-Agent] header is
    not counted as [Other]: [getUrlStats] fails on the record, with the
    [TypeError] of [userAgent.includes], and returns no histogram. *)
Theorem getUrlStats_headless_click_not_Other :
  fst (trackClick 2000 "promo" headless promoCreated)
    = Some (inc_push (clickOf 2000 headless) promo0) /\
  userAgent (clickOf 2000 headless) = None /\
  getUrlStats 3000 "promo" promoHeadless
    = Throw (statsPrefix +:+ msgIncludesOfUndefined) /\
  forall stats, getUrlStats 3000 "promo" promoHeadless <> Ok stats.
Proof.
  assert (Hs : store promoHeadless !! "promo"
               = Some (inc_push (clickOf 2000 headless) promo0))
    by (vm_compute; reflexivity).
  assert (Hg : getUrlStats 3000 "promo" promoHeadless
               = Throw (statsPrefix +:+ msgIncludesOfUndefined)).
  { unfold getUrlStats. rewrite Hs.
    by rewrite (aggregate_absent_userAgent 3000 _ (clickOf 2000 headless))
      by (by left || done). }
  split; [vm_compute; reflexivity|]. split; [done|]. split; [done|].
  intros stats. by rewrite Hg.
Qed.

(** C4, the claim as stated fails: two click updates of [promo] complete in
    the store, the second one refreshes the cache first, the first one
    after it; the refresh then replaces a cached record of two clicks by
    one of a single click, while the collection holds two. *)
Lemma refreshCache_overwrites_newer :
  let s0 : gmap string Url := {[ "promo" := promo0 ]} in
  let '(urlA, s1) := findOneAndUpdate "promo" clickA s0 in
  let '(urlB, s2) := findOneAndUpdate "promo" clickB s1 in
  let c1 := refreshCache "promo" urlB {[ "promo" := promo0 ]} in
  let c2 := refreshCache "promo" urlA c1 in
  (clicks <$> s2 !! "promo") = Some 2%nat /\
  (clicks <$> c1 !! "promo") = Some 2%nat /\
  (clicks <$> c2 !! "promo") = Some 1%nat.
Proof. vm_compute. done. Qed.

(** C5, the claim as stated fails: the empty alias does not match
    [[A-Za-z0-9_-]+], and yet a create that supplies it succeeds, under a
    generated code. *)
Lemma createShortUrl_empty_alias_accepted :
  aliasRegex "" = false /\
  (exists u,
     fst (createShortUrl demoBase demoCodec 1000 "Ab3dE6gh" "https://example.com"
            (Some "") None alice init) = Ok u /\
     urlCode u = "Ab3dE6gh") /\
  fst (createShortUrl demoBase demoCodec 1000 "Ab3dE6gh" "https://example.com"
         (Some "") None alice init) <> Throw InvalidAliasFormat.
Proof.
  split; [reflexivity|]. split.
  - eexists. split; vm_compute; reflexivity.
  - vm_compute. discriminate.
Qed.

(** *** The statements above at concrete inputs *)


Lemma getUrl_expired_is_terminal_witness :
  reachable demoBase demoCodec saleCreated /\
  store saleCreated !! "sale" = Some sale0 /\
  expiresAt sale0 = Some 5000 /\ 5000 < 6000 /\
  fst (getUrl 6000 "sale" saleCreated) = Throw Expired /\
  store (snd (getUrl 6000 "sale" saleCreated)) !! "sale"
    = Some (set_isExpired true sale0) /\
  forall ops now',
    Forall (keeps "sale") ops ->
    fst (getUrl now' "sale"
           (run_all demoBase demoCodec ops (snd (getUrl 6000 "sale" saleCreated))))
    = Throw Expired.
Proof.
  assert (Hs : store saleCreated !! "sale" = Some sale0) by (vm_compute; reflexivity).
  split; [apply saleCreated_reachable|]. split; [exact Hs|].
  split; [reflexivity|]. split; [lia|].
  apply (getUrl_expired_is_terminal demoBase demoCodec saleCreated "sale" sale0 5000 6000);
    [apply saleCreated_reachable | exact Hs | reflexivity | lia].
Defined.

Lemma trackClick_refresh_sequential_witness :
  reachable demoBase demoCodec promoCreated /\
  cache promoCreated !! "promo" = Some promo0 /\
  trackClick 2000 "promo" headless promoCreated
    = (Some (inc_push (clickOf 2000 headless) promo0), promoHeadless) /\
  cache promoHeadless !! "promo" = Some (inc_push (clickOf 2000 headless) promo0) /\
  clicks (inc_push (clickOf 2000 headless) promo0) = S (clicks promo0) /\
  analytics (inc_push (clickOf 2000 headless) promo0)
    = analytics promo0 ++ [clickOf 2000 headless].
Proof.
  assert (Hc : cache promoCreated !! "promo" = Some promo0) by (vm_compute; reflexivity).
  assert (Ht : trackClick 2000 "promo" headless promoCreated
               = (Some (inc_push (clickOf 2000 headless) promo0), promoHeadless))
    by (vm_compute; reflexivity).
  split; [apply promoCreated_reachable|]. split; [exact Hc|]. split; [exact Ht|].
  apply (trackClick_refresh_sequential demoBase demoCodec promoCreated 2000 "promo"
           headless promo0 _ promoHeadless promoCreated_reachable Hc Ht).
Defined.

Lemma createShortUrl_custom_alias_witness :
  "promo" <> "" /\ aliasRegex "promo" = true /\ store init !! "promo" = None /\
  (exists u st',
     createShortUrl demoBase demoCodec 1000 "Ab3dE6gh" "https://example.com"
       (Some "promo") None aliceToken init = (Ok u, st') /\
     urlCode u = "promo" /\ store st' !! "promo" = Some u /\
     createShortUrl demoBase demoCodec 4000 "Qw7rT2yu" "https://example.org"
       (Some "promo") None alice st' = (Throw AliasAlreadyInUse, st')).
Proof.
  assert (Hne : "promo" <> "") by discriminate.
  split; [exact Hne|]. split; [reflexivity|]. split; [reflexivity|].
  destruct (createShortUrl_custom_alias demoBase demoCodec 1000 "Ab3dE6gh"
              "https://example.com" "promo" None aliceToken init Hne)
    as (_ & _ & H).
  destruct (H eq_refl eq_refl) as [Hex Hok].
  destruct Hex as (u & st' & E); [discriminate | discriminate |].
  exists u, st'. split; [exact E|].
  destruct (Hok u st' E) as (H1 & H2 & H3).
  split; [exact H1|]. split; [exact H2|]. apply H3.
Defined.

Lemma getUrl_cache_never_serves_expired_witness :
  cache saleCreated !! "sale" = Some sale0 /\ stale 6000 sale0 /\
  cache (evict "sale" saleCreated) !! "sale" = None /\
  getUrl 6000 "sale" saleCreated = getUrl 6000 "sale" (evict "sale" saleCreated) /\
  fst (getUrl 6000 "sale" saleCreated) = Throw Expired.
Proof.
  assert (Hc : cache saleCreated !! "sale" = Some sale0) by (vm_compute; reflexivity).
  assert (Hs : stale 6000 sale0) by (right; exists 5000; split; [reflexivity|lia]).
  destruct (getUrl_cache_never_serves_expired 6000 "sale" saleCreated sale0 Hc Hs)
    as (H1 & H2 & _).
  split; [exact Hc|]. split; [exact Hs|]. split; [exact H1|]. split; [exact H2|].
  vm_compute. reflexivity.
Defined.

Lemma averageClicksPerDay_rounded_witness :
  exists stats,
    aggregate (200 * msPerDay) threeClicks = Ok stats /\
    exists x n,
      averageClicksPerDay stats = AvgToFixed2 x /\
      toFixed2 x = Some (fixed2 n) /\ 0 <= n /\
      - 200 <= 2 * (n * 200 - 100 * 3) <= 200.
Proof.
  destruct (aggregate (200 * msPerDay) threeClicks) as [stats|m] eqn:E;
    [|vm_compute in E; discriminate E].
  exists stats. split; [reflexivity|].
  pose proof (averageClicksPerDay_rounded (200 * msPerDay) threeClicks stats E) as H.
  cbn [analytics threeClicks] in H.
  apply H; [vm_compute; split; [discriminate | reflexivity] | vm_compute; discriminate].
Defined.

(** C9: a [null] among the items defeats the per-item capture of
    [createBulkUrls].  On [itemsWithNull] the call throws the [TypeError]
    of reading [longUrl] of [null] instead of returning four outcomes: the
    record of the first item is stored all the same, the failure of the
    second, captured so far, is lost with the array of outcomes, and the
    fourth item is never processed.  The three objects alone get their
    three outcomes. *)
Theorem createBulkUrls_null_element :
  (exists st',
     createBulkUrls demoBase demoCodec demoEnv itemsWithNull alice init
     = (Throw msgLongUrlOfNull, st') /\
     is_Some (store st' !! "first") /\ store st' !! "third" = None) /\
  (exists results st',
     createBulkUrls demoBase demoCodec demoEnv (Some <$> threeItems) alice init
     = (Ok results, st') /\
     map success results = [true; false; true] /\
     map originalUrl results = map item_longUrl threeItems).
Proof.
  split.
  - exists (snd (createBulkUrls demoBase demoCodec demoEnv itemsWithNull alice init)).
    split; [by vm_compute|]. split; [|by vm_compute].
    vm_compute. by eexists.
  - destruct (createBulkUrls_objects demoBase demoCodec demoEnv threeItems alice init)
      as (results & E & _ & O & _).
    exists results,
      (snd (createBulkUrls demoBase demoCodec demoEnv (Some <$> threeItems) alice init)).
    split; [|split; [|done]].
    + rewrite <- E. by destruct (createBulkUrls _ _ _ _ _ _).
    + revert E. vm_compute. by intros [= <-].
Qed.

Lemma getUrlStats_absent_userAgent_throws_witness :
  store promoHeadless !! "promo" = Some (inc_push (clickOf 2000 headless) promo0) /\
  In (clickOf 2000 headless) (analytics (inc_push (clickOf 2000 headless) promo0)) /\
  userAgent (clickOf 2000 headless) = None /\
  aggregate 3000 (inc_push (clickOf 2000 headless) promo0)
    = Throw msgIncludesOfUndefined /\
  getUrlStats 3000 "promo" promoHeadless
    = Throw (statsPrefix +:+ msgIncludesOfUndefined) /\
  forall stats, getUrlStats 3000 "promo" promoHeadless <> Ok stats.
Proof.
  assert (Hs : store promoHeadless !! "promo"
               = Some (inc_push (clickOf 2000 headless) promo0))
    by (vm_compute; reflexivity).
  assert (Hin : In (clickOf 2000 headless)
                   (analytics (inc_push (clickOf 2000 headless) promo0)))
    by (left; reflexivity).
  split; [exact Hs|]. split; [exact Hin|]. split; [reflexivity|].
  apply (getUrlStats_absent_userAgent_throws 3000 "promo" promoHeadless _ _ Hs Hin
           eq_refl).
Defined.

(** * The rest of the service: more properties *)

(** ** Creation and lookup *)

Section MoreProperties.
Variable baseUrl : string.
Variable toDataURL : string -> string.

(** X1: [createShortUrl] is all or nothing.  A call that throws leaves the
    collection and the cache as they were.  A call that returns a record
    found its code free, files the record under that code in the collection
    and in the cache, and keeps every record the collection held. *)
Theorem createShortUrl_all_or_nothing now nano long customAlias expires uid st :
  match createShortUrl baseUrl toDataURL now nano long customAlias expires uid st with
  | (Throw _, st') => st' = st
  | (Ok u, st') =>
      store st !! urlCode u = None /\
      st' = mkState (<[urlCode u := u]> (store st)) (<[urlCode u := u]> (cache st)) /\
      forall code r, store st !! code = Some r -> store st' !! code = Some r
  end.
Proof.
  destruct (createShortUrl baseUrl toDataURL now nano long customAlias expires uid st)
    as [[u|m] st'] eqn:E.
  - apply createShortUrl_Ok in E. cbv zeta in E.
    destruct E as (E1 & _ & _ & _ & _ & E6 & ->). rewrite E1.
    split; [done|]. split; [done|]. intros code r Hr. simpl.
    rewrite lookup_insert_ne; [done|]. intros <-. congruence.
  - by apply createShortUrl_Throw in E.
Qed.

(** X2: without a custom alias (absent, [null] or empty) the code is the
    one [nanoid(8)] drew, and there is no second draw: when the collection
    holds that code already, the call fails with the duplicate key error of
    the unique index, wrapped by the [catch], and changes nothing; when the
    code is free, the record is filed under it with the long URL as given.
    (The long URL, the drawn code and the QR code are not empty, so that the
    schema accepts the record.) *)
Theorem createShortUrl_generated_code now nano long customAlias expires uid st :
  truthy customAlias = false ->
  long <> "" -> nano <> "" -> toDataURL (baseUrl +:+ "/" +:+ nano) <> "" ->
  let r := createShortUrl baseUrl toDataURL now nano long customAlias expires uid st in
  match store st !! nano with
  | Some _ => r = (Throw (createPrefix +:+ msgDuplicateKey nano), st)
  | None =>
      exists u, fst r = Ok u /\ urlCode u = nano /\ longUrl u = long /\
                store (snd r) !! nano = Some u
  end.
Proof.
  intros Ht Hl Hn Hq r. subst r. unfold createShortUrl, createShortUrl_try.
  rewrite Ht. simpl. unfold save_new, missingPaths, requiredPaths. simpl.
  assert (Hshort : (baseUrl +:+ "/" +:+ nano =? "")%string = false)
    by (apply String.eqb_neq; by destruct baseUrl).
  rewrite Hshort.
  apply String.eqb_neq in Hl, Hn, Hq. rewrite Hl, Hn, Hq. simpl.
  destruct (store st !! nano) eqn:Hs; simpl; [done|].
  eexists. split; [done|]. split; [apply preSave_fields|]. split.
  - unfold preSave. simpl. destruct expires as [d|]; [destruct (d <? now)|]; done.
  - by rewrite lookup_insert_eq.
Qed.

(** The three ways [getUrl] goes: a fresh cache entry; or else the store,
    which has no record, an expired one, or one to serve. *)
Lemma getUrl_cases now code st :
  (exists c, cache st !! code = Some c /\ cacheFresh now c = true /\
             getUrl now code st = (Ok c, st)) \/
  ((forall c, cache st !! code = Some c -> cacheFresh now c = false) /\
   match store st !! code with
   | None => getUrl now code st = (Throw NotFound, evict code st)
   | Some u =>
       if storeExpired now u then
         getUrl now code st =
         (Throw Expired,
          mkState (<[code := preSave now (set_isExpired true u)]> (store st))
                  (delete code (cache st)))
       else
         getUrl now code st =
         (Ok u, mkState (store st) (<[code := u]> (cache st)))
   end).
Proof.
  unfold getUrl, getUrl_try.
  destruct (cache st !! code) as [c|] eqn:Hc.
  - destruct (cacheFresh now c) eqn:Hf; [left; eauto|].
    right. split; [by intros ? [= <-]|].
    unfold getUrl_store. simpl.
    destruct (store st !! code) as [u|]; [|done].
    destruct (storeExpired now u); simpl; [done|]. by rewrite insert_delete_eq.
  - right. split; [done|]. rewrite (evict_absent code st Hc), (delete_id _ _ Hc).
    unfold getUrl_store.
    destruct (store st !! code) as [u|]; [|done].
    by destruct (storeExpired now u).
Qed.

(** X3: the record [getUrl] returns is resolvable at that instant and is
    the cache entry of the code afterwards; the collection is not written;
    and the same call in the state it left returns the same record and
    changes nothing more. *)
Theorem getUrl_again now code st u st' :
  getUrl now code st = (Ok u, st') ->
  resolvable now u /\ cache st' !! code = Some u /\ store st' = store st /\
  getUrl now code st' = (Ok u, st').
Proof.
  intros H.
  destruct (getUrl_cases now code st) as [(c & Hc & Hf & E)|[Hn E]].
  - rewrite E in H. injection H as <- <-.
    split; [by apply cacheFresh_resolvable|]. done.
  - destruct (store st !! code) as [r|] eqn:Hs; [|congruence].
    destruct (storeExpired now r) eqn:X; [congruence|].
    rewrite E in H. injection H as <- <-.
    split; [by apply storeExpired_false_resolvable|]. simpl.
    split; [apply lookup_insert_eq|]. split; [done|].
    set (st1 := mkState (store st) (<[code := r]> (cache st))).
    destruct (getUrl_cases now code st1) as [(c & Hc & Hf & E1)|[Hn1 E1]].
    + unfold st1 in Hc. simpl in Hc. rewrite lookup_insert_eq in Hc.
      injection Hc as <-. done.
    + unfold st1 in E1 at 1 2. simpl in E1. rewrite Hs, X in E1. rewrite E1.
      unfold st1. simpl. by rewrite insert_insert_eq.
Qed.

(** X4: creation and lookup compose.  The record [createShortUrl] returned
    has no click, and at every instant at which it is resolvable [getUrl]
    returns it for its code, leaving the state as it is. *)
Theorem getUrl_after_create now nano long customAlias expires uid st u st' t :
  createShortUrl baseUrl toDataURL now nano long customAlias expires uid st = (Ok u, st') ->
  resolvable t u ->
  clicks u = 0%nat /\ analytics u = [] /\ getUrl t (urlCode u) st' = (Ok u, st').
Proof.
  intros E [Hx Hd]. apply createShortUrl_Ok in E. cbv zeta in E.
  destruct E as (E1 & E2 & E3 & _ & _ & E6 & ->). rewrite E1.
  set (code := if truthy customAlias then _ else _) in *.
  split; [done|]. split; [done|].
  set (st1 := mkState _ _).
  destruct (getUrl_cases t code st1) as [(c & Hc & Hf & E)|[Hn E]].
  - unfold st1 in Hc. simpl in Hc. rewrite lookup_insert_eq in Hc.
    by injection Hc as <-.
  - unfold st1 in E at 1 2. simpl in E. rewrite lookup_insert_eq in E.
    assert (X : storeExpired t u = false).
    { unfold storeExpired. rewrite Hx. simpl. destruct (expiresAt u) as [d|] eqn:Ed; [|done].
      specialize (Hd d eq_refl). lia. }
    rewrite X in E. rewrite E. unfold st1. simpl. by rewrite insert_insert_eq.
Qed.

End MoreProperties.

(** ** Records over the runs of the service *)

Section MoreRuns.
Variable baseUrl : string.
Variable toDataURL : string -> string.

Lemma laterOf_refl u : laterOf u u.
Proof. unfold laterOf. repeat split; auto. Qed.

Lemma laterOf_trans u v w : laterOf u v -> laterOf v w -> laterOf u w.
Proof.
  unfold laterOf. intros (A1&A2&A3&A4&A5&A6&A7&A8&A9&A10) (B1&B2&B3&B4&B5&B6&B7&B8&B9&B10).
  repeat split; try congruence; [lia|by etrans|auto].
Qed.

Lemma laterOf_flagged now u : laterOf u (preSave now (set_isExpired true u)).
Proof.
  unfold laterOf, preSave. simpl.
  destruct (expiresAt u) eqn:E; [destruct (_ <? _)|]; simpl; repeat split; auto.
Qed.

Lemma laterOf_clicked ev u : laterOf u (inc_push ev u).
Proof.
  unfold laterOf. simpl. repeat split; auto. by apply prefix_app_r.
Qed.

Lemma run_laterOf op st code u :
  keeps code op -> store st !! code = Some u ->
  exists u', store (run baseUrl toDataURL op st) !! code = Some u' /\ laterOf u u'.
Proof.
  intros Hk Hs.
  destruct (run_change baseUrl toDataURL op st code)
    as [A B|v A B C D E|v n A B C D|A B|v n A C D|v n q A B C D|v A B C].
  - exists u. split; [congruence|apply laterOf_refl].
  - congruence.
  - exists u. split; [congruence|apply laterOf_refl].
  - exists u. split; [congruence|apply laterOf_refl].
  - assert (v = u) as -> by congruence. eexists. split; [done|apply laterOf_flagged].
  - assert (v = u) as -> by congruence. eexists. split; [done|apply laterOf_clicked].
  - subst op. simpl in Hk. done.
Qed.

(** X5: as long as a code is not deleted, no run of the service changes
    what its record was created with: the owner, the code, the long and the
    short URL, the QR code, the dates of creation and expiry.  The clicks
    never decrease, the analytics only grow at their end, and the expired
    flag is never cleared. *)
Theorem record_fields_are_immutable ops st code u :
  Forall (keeps code) ops ->
  store st !! code = Some u ->
  exists u', store (run_all baseUrl toDataURL ops st) !! code = Some u' /\ laterOf u u'.
Proof.
  revert st u. induction ops as [|op ops IH]; intros st u Hk Hs.
  - exists u. split; [done|apply laterOf_refl].
  - apply Forall_cons in Hk as [Hk1 Hk2].
    destruct (run_laterOf op st code u Hk1 Hs) as (v & Hv & Huv).
    destruct (IH _ v Hk2 Hv) as (w & Hw & Hvw).
    exists w. split; [done|]. by eapply laterOf_trans.
Qed.


(** *** Where the records of a state come from *)

Lemma missingPaths_nil u :
  missingPaths u = [] ->
  urlCode u <> "" /\ longUrl u <> "" /\ shortUrl u <> "" /\ qrCode u <> "".
Proof.
  unfold missingPaths, requiredPaths. simpl.
  destruct (String.eqb_spec (urlCode u) ""); [done|].
  destruct (String.eqb_spec (longUrl u) ""); [done|].
  destruct (String.eqb_spec (shortUrl u) ""); [done|].
  destruct (String.eqb_spec (qrCode u) ""); done.
Qed.

Lemma preSave_wellFormed now code long expires uid :
  code <> "" -> long <> "" -> toDataURL (baseUrl +:+ "/" +:+ code) <> "" ->
  wellFormed baseUrl toDataURL code
    (preSave now (newUrl now code long (baseUrl +:+ "/" +:+ code)
                    (toDataURL (baseUrl +:+ "/" +:+ code)) expires uid)).
Proof.
  intros Hc Hl Hq. unfold wellFormed, preSave, newUrl. simpl.
  destruct expires as [t|]; [destruct (t <? now)|]; simpl; repeat split; eauto; done.
Qed.

Lemma createShortUrl_wellFormed now nano long customAlias expires uid st u st' :
  createShortUrl baseUrl toDataURL now nano long customAlias expires uid st = (Ok u, st') ->
  wellFormed baseUrl toDataURL (urlCode u) u.
Proof.
  unfold createShortUrl, createShortUrl_try.
  set (code := if truthy customAlias then _ else _).
  destruct (truthy customAlias && negb (aliasRegex (default "" customAlias))); [done|].
  destruct (truthy customAlias && bool_decide _); [done|].
  unfold save_new.
  destruct (missingPaths _) eqn:Hm; [|done].
  apply missingPaths_nil in Hm as (H1 & H2 & H3 & H4). simpl in *.
  destruct (store st !! code); [done|]. simpl. intros [= <- <-].
  destruct (preSave_fields now (newUrl now code long (baseUrl +:+ "/" +:+ code)
     (toDataURL (baseUrl +:+ "/" +:+ code)) expires uid)) as (-> & _).
  simpl. by apply preSave_wellFormed.
Qed.

Lemma createShortUrl_known now nano long customAlias expires uid st code u :
  known (snd (createShortUrl baseUrl toDataURL now nano long customAlias expires uid st))
        code u ->
  known st code u \/ wellFormed baseUrl toDataURL code u.
Proof.
  destruct (createShortUrl baseUrl toDataURL now nano long customAlias expires uid st)
    as [[v|m] st'] eqn:E; simpl.
  - pose proof (createShortUrl_wellFormed _ _ _ _ _ _ _ _ _ E) as Hwf.
    apply createShortUrl_Ok in E. cbv zeta in E.
    destruct E as (E1 & _ & _ & _ & _ & _ & ->). rewrite <- E1. unfold known. simpl.
    destruct (decide (urlCode v = code)) as [<-|Hne].
    + rewrite !lookup_insert_eq. intros [[= <-]|[= <-]]; by right.
    + rewrite !lookup_insert_ne by done. by left.
  - apply createShortUrl_Throw in E as ->. by left.
Qed.

Lemma createBulkUrls_loop_known env urls uid code u : forall i results st,
  known (snd (createBulkUrls_loop baseUrl toDataURL env i urls uid results st)) code u ->
  known st code u \/ wellFormed baseUrl toDataURL code u.
Proof.
  induction urls as [|[url|] rest IH]; intros i results st; [by left| |by left].
  rewrite createBulkUrls_loop_cons. intros H.
  destruct (IH _ _ _ H) as [H1|H1]; [|by right].
  by apply createShortUrl_known in H1.
Qed.

Lemma getUrl_known now k st code u' :
  known (snd (getUrl now k st)) code u' ->
  exists u, known st code u /\
    (u' = u \/ (u' = preSave now (set_isExpired true u) /\ storeExpired now u = true)).
Proof.
  unfold known.
  destruct (getUrl_cases now k st) as [(c & Hc & Hf & E)|[Hn E]].
  - rewrite E. simpl. eauto.
  - destruct (store st !! k) as [r|] eqn:Hs.
    + destruct (storeExpired now r) eqn:X; rewrite E; simpl;
        (destruct (decide (k = code)) as [<-|Hne];
         [rewrite ?lookup_insert_eq, ?lookup_delete_eq
         |rewrite ?lookup_insert_ne, ?lookup_delete_ne by done; eauto]).
      * intros [[= <-]|?]; [|done]. exists r. split; [by left|]. by right.
      * intros [H|[= <-]]; exists r; (split; [by left|]); left; congruence.
    + rewrite E. simpl. destruct (decide (k = code)) as [<-|Hne].
      * rewrite lookup_delete_eq, Hs. by intros [?|?].
      * rewrite lookup_delete_ne by done. eauto.
Qed.

Lemma trackClick_known now k reqData st code u' :
  known (snd (trackClick now k reqData st)) code u' ->
  exists u, known st code u /\ (u' = u \/ u' = inc_push (clickOf now reqData) u).
Proof.
  unfold known, trackClick, findOneAndUpdate.
  destruct (store st !! k) as [r|] eqn:Hs; simpl; [|eauto].
  destruct (decide (k = code)) as [<-|Hne].
  - rewrite !lookup_insert_eq. intros [[= <-]|[= <-]]; eauto.
  - rewrite !lookup_insert_ne by done. eauto.
Qed.

Lemma deleteUrl_known k uid st code u :
  known (snd (deleteUrl k uid st)) code u -> known st code u.
Proof.
  unfold known, deleteUrl.
  destruct (store st !! k) as [r|] eqn:Hs; simpl; [|done].
  destruct (negb _); simpl; [done|].
  intros [H|H]; [|by right]. left.
  destruct (decide (k = code)) as [<-|Hne].
  - by rewrite lookup_delete_eq in H.
  - by rewrite lookup_delete_ne in H.
Qed.

Lemma wellFormed_flagged now code u :
  wellFormed baseUrl toDataURL code u -> storeExpired now u = true ->
  wellFormed baseUrl toDataURL code (preSave now (set_isExpired true u)).
Proof.
  unfold wellFormed. intros (H1&H2&H3&H4&H5&H6&H7&H8) X.
  assert (He : is_Some (expiresAt u)).
  { unfold storeExpired in X. destruct (isExpired u); [auto|].
    destruct (expiresAt u); [eauto|done]. }
  unfold preSave. simpl. destruct (expiresAt u) eqn:E; [destruct (_ <? _)|];
    simpl; rewrite ?E; repeat split; auto.
Qed.

Lemma wellFormed_clicked ev code u :
  wellFormed baseUrl toDataURL code u ->
  wellFormed baseUrl toDataURL code (inc_push ev u).
Proof. unfold wellFormed. simpl. tauto. Qed.

Lemma wellFormed_run op st :
  (forall code u, known st code u -> wellFormed baseUrl toDataURL code u) ->
  forall code u, known (run baseUrl toDataURL op st) code u ->
                 wellFormed baseUrl toDataURL code u.
Proof.
  intros Hwf code u. destruct op; simpl.
  - intros [H|H]%createShortUrl_known; auto.
  - intros [H|H]%createBulkUrls_loop_known; auto.
  - intros (v & Hv & [->|[-> X]])%getUrl_known; [auto|].
    apply wellFormed_flagged; auto.
  - intros (v & Hv & [->| ->])%trackClick_known; [auto|].
    apply wellFormed_clicked; auto.
  - intros H%deleteUrl_known. auto.
Qed.

Lemma reachable_wellFormed st :
  reachable baseUrl toDataURL st ->
  forall code u, known st code u -> wellFormed baseUrl toDataURL code u.
Proof.
  revert st.
  apply (reachable_ind' baseUrl toDataURL
           (fun st => forall code u, known st code u -> wellFormed baseUrl toDataURL code u)).
  - intros code u [H|H]; cbn in H; by rewrite lookup_empty in H.
  - intros op st _ IH. by apply wellFormed_run.
Qed.

(** X6: in every state the service reaches, the cache agrees with the
    collection wherever both hold a code, and every record either of them
    holds under a code carries that code, which is not empty, a long URL
    that is not empty, the short URL [baseUrl/code], the QR code of that
    short URL, an [ObjectId] as its owner, and the expired flag only
    together with an expiry date. *)
Theorem reachable_records_wellFormed st :
  reachable baseUrl toDataURL st ->
  (forall code c r, cache st !! code = Some c -> store st !! code = Some r -> c = r) /\
  (forall code u, known st code u -> wellFormed baseUrl toDataURL code u).
Proof.
  intros Hr. split; [apply (reachable_coherent baseUrl toDataURL st Hr)|].
  by apply reachable_wellFormed.
Qed.

Lemma getUrl_agreeing_cache st code u t :
  store st !! code = Some u ->
  (forall c, cache st !! code = Some c -> c = u) ->
  fst (getUrl t code st) = if storeExpired t u then Throw Expired else Ok u.
Proof.
  intros Hs Hr.
  destruct (getUrl_cases t code st) as [(c & Hc & Hf & E)|[Hn E]].
  - rewrite (Hr c Hc) in *.
    rewrite E. simpl.
    apply cacheFresh_resolvable in Hf as [Hx Hd].
    unfold storeExpired. rewrite Hx. simpl.
    destruct (expiresAt u) as [d|]; [|done]. specialize (Hd d eq_refl).
    destruct (Z.ltb_spec d t); [lia|done].
  - rewrite Hs in E. destruct (storeExpired t u); by rewrite E.
Qed.

Lemma getUrl_coherent_store st code u t :
  coherent st ->
  store st !! code = Some u ->
  fst (getUrl t code st) = if storeExpired t u then Throw Expired else Ok u.
Proof.
  intros Hr Hs. apply getUrl_agreeing_cache; [done|].
  intros c Hc. by apply (Hr code).
Qed.

(** X7: in a reachable state the cache never changes what [getUrl] answers
    for a code the collection holds: the call throws [Expired] when the
    stored record is flagged or its deadline lies before the clock, and
    returns the stored record otherwise. *)
Theorem getUrl_decided_by_store st code u t :
  reachable baseUrl toDataURL st ->
  store st !! code = Some u ->
  fst (getUrl t code st) = if storeExpired t u then Throw Expired else Ok u.
Proof.
  intros Hr. apply getUrl_coherent_store.
  by apply (reachable_coherent baseUrl toDataURL).
Qed.

End MoreRuns.

(** ** Clicks *)

(** X8: [trackClick] called for one stored code by [k] requests, one after
    the other, leaves its record with [k] more clicks and with the [k]
    events appended to the analytics in the order of the calls; after the
    first call the cache holds that record as well; the records of the
    other codes, in the collection and in the cache, are not touched. *)
Theorem trackClick_k_times code reqs st u :
  store st !! code = Some u ->
  exists u',
    store (trackClicks code reqs st) !! code = Some u' /\
    clicks u' = (clicks u + length reqs)%nat /\
    analytics u' = analytics u ++ map (fun r => clickOf r.1 r.2) reqs /\
    (reqs <> [] -> cache (trackClicks code reqs st) !! code = Some u') /\
    forall code', code' <> code ->
      store (trackClicks code reqs st) !! code' = store st !! code' /\
      cache (trackClicks code reqs st) !! code' = cache st !! code'.
Proof.
  revert st u. induction reqs as [|[now rq] reqs IH]; intros st u Hs.
  - exists u. simpl. rewrite app_nil_r. split; [done|]. split; [lia|]. done.
  - simpl. set (st1 := snd (trackClick now code rq st)).
    assert (H1 : store st1 !! code = Some (inc_push (clickOf now rq) u) /\
                 cache st1 !! code = Some (inc_push (clickOf now rq) u) /\
                 forall code', code' <> code ->
                   store st1 !! code' = store st !! code' /\
                   cache st1 !! code' = cache st !! code').
    { unfold st1, trackClick, findOneAndUpdate. rewrite Hs. simpl.
      rewrite !lookup_insert_eq. split; [done|]. split; [done|].
      intros code' Hne. by rewrite !lookup_insert_ne. }
    destruct H1 as (H1 & H2 & H3).
    destruct (IH st1 _ H1) as (u' & I1 & I2 & I3 & I4 & I5).
    exists u'. split; [done|]. split; [simpl in I2; lia|].
    split; [simpl in I3; by rewrite <- app_assoc in I3|]. split.
    + intros _. destruct reqs as [|r reqs']; [|apply I4; done].
      simpl in *. congruence.
    + intros code' Hne. destruct (I5 code' Hne) as [-> ->]. by apply H3.
Qed.

(** ** Substrings *)

Lemma prefix_spec sub s :
  String.prefix sub s = true <-> exists post, s = sub +:+ post.
Proof.
  revert s. induction sub as [|a sub IH]; intros [|b s]; simpl.
  - split; [intros _; by exists ""|done].
  - split; [intros _; by exists (String b s)|done].
  - split; [done|intros [post [=]]].
  - destruct (Ascii.ascii_dec a b) as [->|Hne]; [|split; [done|]].
    + rewrite IH. split; intros [post H]; exists post; [by rewrite H|by injection H].
    + intros [post [= ? _]]. congruence.
Qed.

Lemma includes_spec s sub : includes s sub = true <-> occursIn sub s.
Proof.
  unfold occursIn. induction s as [|a s IH].
  - cbn [includes]. rewrite orb_false_r, prefix_spec. split.
    + intros [post ->]. by exists "", post.
    + intros ([|b pre] & post & H); [by exists post|done].
  - cbn [includes]. rewrite orb_true_iff, prefix_spec, IH. split.
    + intros [[post ->] | (pre & post & ->)].
      * by exists "", post.
      * by exists (String a pre), post.
    + intros ([|b pre] & post & H).
      * left. by exists post.
      * right. injection H as _ ->. by exists pre, post.
Qed.

Lemma includes_false s sub : includes s sub = false <-> ~ occursIn sub s.
Proof. rewrite <- includes_spec. by destruct (includes s sub). Qed.

Lemma getBrowserFromUserAgent_labels ua :
  exists label, getBrowserFromUserAgent (Some ua) = Ok label /\ label ∈ browserLabels.
Proof.
  unfold getBrowserFromUserAgent, browserLabels.
  destruct (includes ua "Chrome"), (includes ua "Firefox"),
    (includes ua "Safari"), (includes ua "Edge");
  (eexists; split; [reflexivity|set_solver]).
Qed.

(** X9: [getBrowserFromUserAgent] by substrings.  The label is one of the
    five; it is [Chrome] exactly when [Chrome] occurs in the user agent,
    [Firefox] exactly when [Firefox] occurs and [Chrome] does not, and so on
    down the list: [Edge] is answered only for a user agent in which none
    of [Chrome], [Firefox] and [Safari] occurs. *)
Theorem getBrowserFromUserAgent_by_substring ua :
  exists label, getBrowserFromUserAgent (Some ua) = Ok label /\
    label ∈ browserLabels /\
    (label = "Chrome" <-> occursIn "Chrome" ua) /\
    (label = "Firefox" <-> ~ occursIn "Chrome" ua /\ occursIn "Firefox" ua) /\
    (label = "Safari" <->
       ~ occursIn "Chrome" ua /\ ~ occursIn "Firefox" ua /\ occursIn "Safari" ua) /\
    (label = "Edge" <->
       ~ occursIn "Chrome" ua /\ ~ occursIn "Firefox" ua /\
       ~ occursIn "Safari" ua /\ occursIn "Edge" ua) /\
    (label = "Other" <->
       ~ occursIn "Chrome" ua /\ ~ occursIn "Firefox" ua /\
       ~ occursIn "Safari" ua /\ ~ occursIn "Edge" ua).
Proof.
  unfold getBrowserFromUserAgent, browserLabels.
  destruct (includes ua "Chrome") eqn:C;
  destruct (includes ua "Firefox") eqn:F;
  destruct (includes ua "Safari") eqn:S';
  destruct (includes ua "Edge") eqn:E;
  rewrite ?includes_spec, ?includes_false in *;
  (eexists; split; [reflexivity|]); (split; [set_solver|]);
  repeat split; try done; try tauto; intros; try tauto.
Qed.

(** ** The histograms of [getUrlStats] *)

(** X10: when every click of the record carries a user agent,
    [getUrlStats] returns; [totalClicks] is the counter of the record,
    [lastClicked] the time of its last click, and each browser label is a
    key exactly when a click has it, with the number of those clicks.  So
    is each referrer ([Direct] for a click without one) that is no name of
    [Object.prototype]; a referrer that is such a name ([constructor],
    [toString], ...) holds a string instead, the inherited value with one
    [1] for each of its clicks, and [__proto__] is never a key. *)
Theorem getUrlStats_counts_each_class now code st url :
  store st !! code = Some url ->
  Forall (fun c => is_Some (userAgent c)) (analytics url) ->
  exists stats, getUrlStats now code st = Ok stats /\
    totalClicks stats = clicks url /\
    lastClicked stats = timestamp <$> last (analytics url) /\
    (forall label, browserStats stats !! label =
       JNum <$> counted
         (length (filter (fun c => getBrowserFromUserAgent (userAgent c) = Ok label)
                         (analytics url)))) /\
    (forall r, inherited r = None ->
       referrerStats stats !! r =
       JNum <$> counted (length (filter (fun c => referrerOf c = r) (analytics url)))) /\
    (forall r text, inherited r = Some text ->
       referrerStats stats !! r =
       if (r =? "__proto__")%string then None
       else (fun n => JStr (text +:+ ones n)) <$>
              counted (length (filter (fun c => referrerOf c = r) (analytics url)))).
Proof.
  intros Hs Hall.
  destruct (aggregate_partition now url Hall) as (stats & E & T & B & R).
  exists stats. unfold getUrlStats. rewrite Hs, E. simpl.
  split; [done|]. split; [done|]. split; [|split; [done|split]].
  - unfold aggregate in E.
    destruct (fold_left countClick (analytics url) (Ok (∅, ∅))) as [[b r]|m]; [|
      by destruct (analytics url)].
    destruct (analytics url) as [|c l]; by injection E as <-.
  - intros r Hr. rewrite R. unfold histogramEntry. rewrite Hr.
    by destruct (length _).
  - intros r text Hr. rewrite R. unfold histogramEntry. rewrite Hr.
    destruct (length _); [by destruct (r =? "__proto__")%string|].
    by destruct (r =? "__proto__")%string.
Qed.

(** *** Their totals *)

Lemma sum_list_Permutation (l l' : list nat) :
  l ≡ₚ l' -> sum_list l = sum_list l'.
Proof. induction 1; simpl; lia. Qed.

Lemma histogramTotal_insert k v (m : gmap string JsVal) :
  m !! k = None -> histogramTotal (<[k := v]> m) = (countOf v + histogramTotal m)%nat.
Proof.
  intros H. unfold histogramTotal.
  rewrite (sum_list_Permutation _
             ((fun kv => countOf kv.2) <$> ((k, v) :: map_to_list m))); [done|].
  by rewrite (map_to_list_insert m k v H).
Qed.

Lemma histogramTotal_delete k (m : gmap string JsVal) :
  histogramTotal m =
  (default 0%nat (countOf <$> m !! k) + histogramTotal (delete k m))%nat.
Proof.
  destruct (m !! k) as [v|] eqn:E; simpl.
  - rewrite <- (insert_delete_id m k v E) at 1.
    by rewrite histogramTotal_insert by apply lookup_delete_eq.
  - by rewrite delete_id.
Qed.

Lemma histogramTotal_empty : histogramTotal ∅ = 0%nat.
Proof. unfold histogramTotal. by rewrite map_to_list_empty. Qed.

(** Counting a key once more adds one to the total, unless the key is a
    name of [Object.prototype]. *)
Lemma histogramTotal_bump k n (m : gmap string JsVal) :
  m !! k = histogramEntry k n ->
  histogramTotal (bump k m) =
  (histogramTotal m + if decide (inherited k = None) then 1 else 0)%nat.
Proof.
  intros Hk. rewrite (bump_entry k n m Hk).
  rewrite (histogramTotal_delete k m), Hk.
  destruct (histogramEntry k (S n)) as [v|] eqn:Ev.
  - rewrite <- insert_delete_eq, histogramTotal_insert by apply lookup_delete_eq.
    unfold histogramEntry in *.
    destruct (inherited k) as [s|].
    + rewrite decide_False by done.
      destruct (k =? "__proto__")%string; [done|]. injection Ev as <-.
      destruct n; simpl; lia.
    + rewrite decide_True by done. injection Ev as <-. destruct n; simpl; lia.
  - rewrite (histogramTotal_delete k m), Hk, (histogramEntry_proto k n Ev). simpl.
    unfold histogramEntry in Ev. destruct (inherited k) as [s|]; [|done].
    rewrite decide_False by done. lia.
Qed.

Lemma fold_countClick_present l : forall p p',
  fold_left countClick l (Ok p) = Ok p' ->
  Forall (fun c => is_Some (userAgent c)) l.
Proof.
  induction l as [|c l IH]; intros [b r] p' H; [constructor|].
  simpl in H. destruct (userAgent c) as [ua|] eqn:Hua; simpl in H.
  - constructor; [by rewrite Hua|]. by eapply IH.
  - by rewrite countClick_Throw in H.
Qed.

Lemma fold_countClick_totals l : forall seen b r b' r',
  tallied seen (b, r) ->
  fold_left countClick l (Ok (b, r)) = Ok (b', r') ->
  histogramTotal b' = (histogramTotal b + length l)%nat /\
  histogramTotal r' =
    (histogramTotal r +
     length (filter (fun c => inherited (referrerOf c) = None) l))%nat.
Proof.
  induction l as [|c l IH]; intros seen b r b' r' Hp H; simpl in H.
  - injection H as <- <-. simpl. lia.
  - destruct (userAgent c) as [ua|] eqn:Hua;
      [|simpl in H; by rewrite countClick_Throw in H].
    assert (exists label, getBrowserFromUserAgent (Some ua) = Ok label)
      as [label El] by (eexists; reflexivity).
    rewrite El in H.
    destruct (fold_countClick_tallied [c] seen (b, r)) as (p1 & E1 & T1);
      [constructor; [by rewrite Hua|constructor]|done|].
    simpl in E1. rewrite Hua, El in E1. injection E1 as <-.
    destruct (IH _ _ _ _ _ T1 H) as [H1 H2].
    destruct Hp as [P1 P2]. simpl in P1, P2.
    rewrite (histogramTotal_bump _ _ _ (P1 label)) in H1.
    rewrite (histogramTotal_bump _ _ _ (P2 (referrerOf c))) in H2.
    rewrite (inherited_browserLabel ua label El) in H1.
    rewrite decide_True in H1 by done.
    rewrite filter_cons. simpl length.
    destruct (decide (inherited (referrerOf c) = None)); simpl; lia.
Qed.

Section Histograms.

Variable baseUrl : string.
Variable toDataURL : string -> string.

(** X11: in a reachable state, when [getUrlStats] returns for a record, the
    counts of its browser histogram add up to [totalClicks] and the browser
    histogram has no key besides the five labels.  The counts of its
    referrer histogram add up to the number of the clicks whose referrer is
    no name of [Object.prototype]: to [totalClicks] when no click has such
    a referrer. *)
Theorem getUrlStats_histograms_add_up st now code url stats :
  reachable baseUrl toDataURL st ->
  store st !! code = Some url ->
  getUrlStats now code st = Ok stats ->
  histogramTotal (browserStats stats) = totalClicks stats /\
  (forall label, is_Some (browserStats stats !! label) -> label ∈ browserLabels) /\
  histogramTotal (referrerStats stats) =
    length (filter (fun c => inherited (referrerOf c) = None) (analytics url)) /\
  (Forall (fun c => inherited (referrerOf c) = None) (analytics url) ->
   histogramTotal (referrerStats stats) = totalClicks stats).
Proof.
  intros Hr Es H. unfold getUrlStats in H. rewrite Es in H.
  assert (Hc : counts url) by (eapply reachable_counted; eauto).
  unfold counts in Hc.
  destruct (aggregate now url) as [stats'|m] eqn:Ea; [|done].
  simpl in H. injection H as ->.
  unfold aggregate in Ea.
  match type of Ea with context [let '(_, _) := ?x in _] => destruct x as [la avg] end.
  destruct (fold_left countClick (analytics url) (Ok (∅, ∅))) as [[b r]|m] eqn:Ef;
    [|done].
  pose proof (fold_countClick_present _ _ _ Ef) as Hall.
  destruct (fold_countClick_tallied (analytics url) [] (∅, ∅) Hall tallied_nil)
    as (p' & Ef' & P1 & _).
  rewrite Ef in Ef'. injection Ef' as <-. simpl in P1.
  destruct (fold_countClick_totals _ _ _ _ _ _ tallied_nil Ef) as [H1 H2].
  rewrite histogramTotal_empty in H1, H2. injection Ea as <-. simpl.
  split; [lia|]. split; [|split; [done|]].
  - intros label [v Hv]. rewrite P1, histogramEntry_browser in Hv.
    destruct (filter (fun c => getBrowserFromUserAgent (userAgent c) = Ok label)
                (analytics url)) as [|c l] eqn:Efl; [done|].
    assert (Hin : c ∈ filter (fun c => getBrowserFromUserAgent (userAgent c) = Ok label)
                    (analytics url)) by (rewrite Efl; left).
    apply list_elem_of_filter in Hin as [Hin _].
    destruct (userAgent c) as [ua|]; [|done].
    destruct (getBrowserFromUserAgent_labels ua) as (l0 & E0 & Hl0). congruence.
  - intros Hno. rewrite H2. simpl. rewrite Hc. clear -Hno.
    induction Hno as [|c l Hc Hno IH]; [done|].
    rewrite filter_cons. destruct (decide _); [simpl; by rewrite IH|done].
Qed.

End Histograms.

(** ** The order of strings *)

Lemma ascii_compare_refl c : (c ?= c)%char = Eq.
Proof. unfold Ascii.compare. apply N.compare_refl. Qed.

Lemma ascii_compare_Lt_trans a b c :
  (a ?= b)%char = Lt -> (b ?= c)%char = Lt -> (a ?= c)%char = Lt.
Proof. unfold Ascii.compare. rewrite !N.compare_lt_iff. lia. Qed.

Lemma string_compare_refl s : (s ?= s)%string = Eq.
Proof. induction s as [|c s IH]; simpl; [done|]. by rewrite ascii_compare_refl. Qed.

Lemma string_compare_Lt_trans s1 : forall s2 s3,
  (s1 ?= s2)%string = Lt -> (s2 ?= s3)%string = Lt -> (s1 ?= s3)%string = Lt.
Proof.
  induction s1 as [|a s1 IH]; intros [|b s2] [|c s3]; simpl; try done.
  destruct (a ?= b)%char eqn:Eab; [|
    |done].
  - apply Ascii.compare_eq_iff in Eab as ->.
    destruct (b ?= c)%char; [apply IH|done|done].
  - intros _. destruct (b ?= c)%char eqn:Ebc; [| |done].
    + apply Ascii.compare_eq_iff in Ebc as ->. by rewrite Eab.
    + by rewrite (ascii_compare_Lt_trans a b c).
Qed.

Lemma string_leb_spec s1 s2 :
  (s1 <=? s2)%string = true <-> (s1 ?= s2)%string = Lt \/ s1 = s2.
Proof.
  unfold String.leb. destruct (s1 ?= s2)%string eqn:E.
  - apply String.compare_eq_iff in E. split; [by right|done].
  - split; [by left|done].
  - split; [done|]. intros [?| ->]; [done|]. by rewrite string_compare_refl in E.
Qed.

#[global] Instance entryLe_trans : Transitive entryLe.
Proof.
  intros x y z. unfold entryLe. rewrite !string_leb_spec.
  intros [H1|H1] [H2|H2]; try (rewrite ?H1, <- ?H2; tauto).
  left. eapply string_compare_Lt_trans; eauto.
Qed.

#[global] Instance entryLe_total : Total entryLe.
Proof. intros x y. apply String.leb_total. Qed.

(** Strings of one length that differ are ordered by themselves, whatever
    follows them. *)
Lemma compare_app_same_length k1 : forall k2 r1 r2,
  String.length k1 = String.length k2 -> k1 <> k2 ->
  (k1 +:+ r1 ?= k2 +:+ r2)%string = (k1 ?= k2)%string.
Proof.
  induction k1 as [|a k1 IH]; intros [|b k2] r1 r2 Hl Hne; simpl in *; try done.
  destruct (a ?= b)%char eqn:E; [|done..].
  apply Ascii.compare_eq_iff in E as ->. apply IH; [lia|congruence].
Qed.

(** ** The histogram by date *)

Lemma list_to_map_bumpEntry k l :
  list_to_map (bumpEntry k l) =@{gmap string nat}
  <[k := (default 0%nat ((list_to_map l : gmap string nat) !! k) + 1)%nat]>
    (list_to_map l).
Proof.
  induction l as [|[k' n] l IH]; simpl; [done|].
  destruct (String.eqb_spec k' k) as [->|Hne]; simpl.
  - rewrite lookup_insert_eq, insert_insert_eq. simpl. by rewrite Nat.add_1_r.
  - rewrite IH, lookup_insert_ne by done. by apply insert_insert_ne.
Qed.

Lemma tally_lookup k k' (m : gmap string nat) :
  default 0%nat (<[k := (default 0%nat (m !! k) + 1)%nat]> m !! k') =
  (default 0%nat (m !! k') + (if decide (k = k') then 1 else 0))%nat.
Proof.
  destruct (decide (k = k')) as [->|Hne].
  - by rewrite lookup_insert_eq.
  - rewrite lookup_insert_ne by done. lia.
Qed.

Lemma tally_positive k k' (m : gmap string nat) :
  (forall j n, m !! j = Some n -> (0 < n)%nat) ->
  forall n, <[k := (default 0%nat (m !! k) + 1)%nat]> m !! k' = Some n -> (0 < n)%nat.
Proof.
  intros Hm n. destruct (decide (k = k')) as [->|Hne].
  - rewrite lookup_insert_eq. intros [= <-]. lia.
  - rewrite lookup_insert_ne by done. apply Hm.
Qed.

Lemma bumpEntry_keys k l :
  NoDup l.*1 -> NoDup (bumpEntry k l).*1 /\
  forall d, d ∈ (bumpEntry k l).*1 <-> d = k \/ d ∈ l.*1.
Proof.
  induction l as [|[k' n] l IH]; simpl; intros Hnd.
  - split; [apply NoDup_singleton|]. intros d.
    rewrite list_elem_of_singleton, elem_of_nil. tauto.
  - apply NoDup_cons in Hnd as [Hk' Hnd]. destruct (IH Hnd) as [I1 I2].
    destruct (String.eqb_spec k' k) as [->|Hne]; simpl.
    + split; [by apply NoDup_cons|]. intros d. rewrite !elem_of_cons. tauto.
    + split.
      * apply NoDup_cons. split; [|done]. rewrite I2. intros [?|?]; [congruence|done].
      * intros d. rewrite !elem_of_cons, I2. tauto.
Qed.

Section ClicksByDate.

Variable toISODate : Z -> string.

Lemma tallyByDate_snoc clicks c :
  tallyByDate toISODate (clicks ++ [c]) =
  bumpEntry (toISODate (timestamp c)) (tallyByDate toISODate clicks).
Proof. unfold tallyByDate. by rewrite fold_left_app. Qed.

Lemma tallyByDate_spec clicks :
  NoDup (tallyByDate toISODate clicks).*1 /\
  (forall d n,
     (list_to_map (tallyByDate toISODate clicks) : gmap string nat) !! d = Some n ->
     (0 < n)%nat) /\
  (forall d,
     default 0%nat
       ((list_to_map (tallyByDate toISODate clicks) : gmap string nat) !! d) =
     dateCount toISODate d clicks).
Proof.
  induction clicks as [|c clicks IH] using rev_ind.
  - split; [apply NoDup_nil_2|]. split; [|done].
    intros d n. unfold tallyByDate. simpl. by rewrite lookup_empty.
  - destruct IH as (I1 & I2 & I3). rewrite tallyByDate_snoc. split; [|split].
    + by apply bumpEntry_keys.
    + intros d n. rewrite list_to_map_bumpEntry. by apply tally_positive.
    + intros d. rewrite list_to_map_bumpEntry, tally_lookup, I3.
      unfold dateCount. rewrite filter_app, length_app. f_equal.
      rewrite filter_cons, filter_nil.
      destruct (decide (toISODate (timestamp c) = d)); done.
Qed.

Lemma clicksByDate_entries clicks :
  NoDup (clicksByDate toISODate clicks).*1 /\
  (forall d n, (d, n) ∈ clicksByDate toISODate clicks <->
     n = dateCount toISODate d clicks /\ (0 < n)%nat).
Proof.
  destruct (tallyByDate_spec clicks) as (H1 & H2 & H3).
  assert (Hp : clicksByDate toISODate clicks ≡ₚ tallyByDate toISODate clicks)
    by apply merge_sort_Permutation.
  split; [by rewrite Hp|].
  intros d n. rewrite Hp, (elem_of_list_to_map (M := gmap string)) by done.
  specialize (H3 d). split.
  - intros E. specialize (H2 d n E). rewrite E in H3. simpl in H3. split; [done|lia].
  - intros [-> Hn].
    destruct ((list_to_map (tallyByDate toISODate clicks) : gmap string nat) !! d)
      as [m|] eqn:E;
      simpl in H3; [by rewrite H3|lia].
Qed.

(** X12: the [clicksByDate] histogram has one entry per date on which a
    click fell, each with the number of the clicks of that date (never
    zero), and its entries are in the order of [sort()]: ascending by the
    string [date,count]. *)
Theorem clicksByDate_counts_and_order clicks :
  NoDup (clicksByDate toISODate clicks).*1 /\
  (forall d n, (d, n) ∈ clicksByDate toISODate clicks <->
     n = dateCount toISODate d clicks /\ (0 < n)%nat) /\
  StronglySorted entryLe (clicksByDate toISODate clicks).
Proof.
  destruct (clicksByDate_entries clicks) as [Hnd Hin].
  split; [exact Hnd|]. split; [exact Hin|].
  unfold clicksByDate. apply StronglySorted_merge_sort.
  - apply entryLe_trans.
  - apply entryLe_total.
Qed.

(** X13: when the dates of the clicks are strings of one length (as the
    ISO dates of the years 0000 to 9999 are), the entries of [clicksByDate]
    are in strictly ascending order of their dates: the count that [sort()]
    compares along with the date never decides. *)
Theorem clicksByDate_chronological clicks w :
  Forall (fun c => String.length (toISODate (timestamp c)) = w) clicks ->
  StronglySorted dateLt (clicksByDate toISODate clicks).
Proof.
  intros Hw.
  destruct (clicksByDate_entries clicks) as [Hnd Hin].
  assert (Hs : StronglySorted entryLe (clicksByDate toISODate clicks))
    by (apply StronglySorted_merge_sort; apply _).
  assert (Hlen : Forall (fun e => String.length e.1 = w)
                   (clicksByDate toISODate clicks)).
  { apply Forall_forall. intros [d n] Hdn. apply Hin in Hdn as [-> Hn]. simpl.
    unfold dateCount in Hn.
    destruct (filter (fun c => toISODate (timestamp c) = d) clicks) as [|c l] eqn:Ef;
      [simpl in Hn; lia|].
    assert (Hc : c ∈ filter (fun c => toISODate (timestamp c) = d) clicks)
      by (rewrite Ef; left).
    apply list_elem_of_filter in Hc as [<- Hc].
    by apply (proj1 (Forall_forall _ _) Hw). }
  clear Hin. revert Hnd Hlen. generalize (clicksByDate toISODate clicks) Hs.
  clear Hs. intros l Hs.
  induction Hs as [|e l Hs IH Hall]; intros Hnd Hlen; [constructor|].
  rewrite fmap_cons in Hnd. apply NoDup_cons in Hnd as [Hne Hnd].
  apply Forall_cons in Hlen as [He Hlen].
  constructor; [by apply IH|].
  apply Forall_forall. intros e' He'.
  assert (Hle : entryLe e e') by by apply (proj1 (Forall_forall _ _) Hall).
  assert (Hl' : String.length e'.1 = w) by by apply (proj1 (Forall_forall _ _) Hlen).
  assert (Hd : e.1 <> e'.1).
  { intros Heq. apply Hne. rewrite Heq. by apply list_elem_of_fmap_2. }
  unfold entryLe, entryString, String.leb in Hle. unfold dateLt, String.ltb.
  rewrite compare_app_same_length in Hle by (done || lia).
  destruct (e.1 ?= e'.1)%string eqn:E; [|done..].
  by apply String.compare_eq_iff in E.
Qed.

End ClicksByDate.

(** ** The listing *)

#[global] Instance newestFirst_trans : Transitive newestFirst.
Proof. intros x y z. unfold newestFirst. lia. Qed.

#[global] Instance newestFirst_total : Total newestFirst.
Proof. intros x y. unfold newestFirst. lia. Qed.

Lemma elem_of_documents st u :
  u ∈ documents st <-> exists code, store st !! code = Some u.
Proof.
  unfold documents. rewrite list_elem_of_fmap. split.
  - intros ([code v] & -> & H). exists code. by apply elem_of_map_to_list.
  - intros [code H]. exists (code, u). split; [done|]. by apply elem_of_map_to_list.
Qed.

Lemma elem_of_getAllUrls uid st s :
  s ∈ getAllUrls uid st <->
  exists code u, store st !! code = Some u /\
                 userId u = ObjectId (toString uid) /\ s = select u.
Proof.
  unfold getAllUrls. rewrite list_elem_of_fmap. split.
  - intros (u & -> & H). rewrite merge_sort_Permutation in H.
    apply list_elem_of_filter in H as [Hu H].
    apply elem_of_documents in H as [code H]. by exists code, u.
  - intros (code & u & H & Hu & ->). exists u. split; [done|].
    rewrite merge_sort_Permutation. apply list_elem_of_filter. split; [done|].
    apply elem_of_documents. by exists code.
Qed.

Section Listing.

Variable baseUrl : string.
Variable toDataURL : string -> string.

Lemma wellFormed_owner code u uid :
  wellFormed baseUrl toDataURL code u ->
  userId u = ObjectId (toString uid) <-> toString (userId u) = toString uid.
Proof.
  intros (_ & _ & _ & _ & _ & _ & [h Hh] & _). rewrite Hh. simpl.
  split; [by intros [= ->]|by intros ->].
Qed.

Lemma reachable_listed uid st s :
  reachable baseUrl toDataURL st ->
  s ∈ getAllUrls uid st <->
  exists u, store st !! sum_urlCode s = Some u /\
            toString (userId u) = toString uid /\ s = select u.
Proof.
  intros Hr. rewrite elem_of_getAllUrls. split.
  - intros (code & u & H & Hu & ->). exists u.
    assert (Hw : wellFormed baseUrl toDataURL code u)
      by (apply (reachable_wellFormed baseUrl toDataURL st Hr); by left).
    split; [|split; [by apply (wellFormed_owner code)|done]].
    simpl. by rewrite (proj1 Hw).
  - intros (u & H & Hu & ->). exists (urlCode u), u.
    assert (Hw : wellFormed baseUrl toDataURL (urlCode u) u)
      by (apply (reachable_wellFormed baseUrl toDataURL st Hr); by left).
    split; [done|]. split; [by apply (wellFormed_owner (urlCode u))|done].
Qed.

Lemma reachable_documents_NoDup st l :
  reachable baseUrl toDataURL st ->
  l ≡ₚ documents st -> NoDup (urlCode <$> l).
Proof.
  intros Hr Hp.
  assert (Hcode : forall u, u ∈ documents st -> store st !! urlCode u = Some u).
  { intros u [code H]%elem_of_documents.
    assert (Hw : wellFormed baseUrl toDataURL code u)
      by (apply (reachable_wellFormed baseUrl toDataURL st Hr); by left).
    by rewrite (proj1 Hw). }
  rewrite Hp. apply NoDup_fmap_2_strong.
  - intros x y Hx%Hcode Hy%Hcode E. rewrite E in Hx. congruence.
  - unfold documents. apply NoDup_fmap_2_strong; [|apply NoDup_map_to_list].
    intros [c1 x] [c2 y] H1 H2 E. simpl in E. subst y.
    apply elem_of_map_to_list in H1, H2.
    assert (c1 = urlCode x).
    { symmetry. apply (reachable_wellFormed baseUrl toDataURL st Hr c1 x). by left. }
    assert (c2 = urlCode x).
    { symmetry. apply (reachable_wellFormed baseUrl toDataURL st Hr c2 x). by left. }
    congruence.
Qed.

(** X14: in a reachable state [getAllUrls] lists exactly the records of
    the collection whose owner has the string form of the requesting id,
    each by its selected fields, every code once, a later record never
    after an earlier one. *)
Theorem getAllUrls_lists_the_owners_records uid st :
  reachable baseUrl toDataURL st ->
  (forall s, s ∈ getAllUrls uid st <->
     exists u, store st !! sum_urlCode s = Some u /\
               toString (userId u) = toString uid /\ s = select u) /\
  NoDup (sum_urlCode <$> getAllUrls uid st) /\
  StronglySorted newerFirst (getAllUrls uid st).
Proof.
  intros Hr. split; [intros s; by apply reachable_listed|]. split.
  - unfold getAllUrls. rewrite <- list_fmap_compose.
    change (sum_urlCode ∘ select) with urlCode.
    rewrite merge_sort_Permutation.
    pose proof (reachable_documents_NoDup st (documents st) Hr (reflexivity _)) as Hn.
    revert Hn. generalize (documents st). intros l Hn.
    induction l as [|u l IH]; [constructor|].
    rewrite fmap_cons in Hn. apply NoDup_cons in Hn as [Hu Hn].
    rewrite filter_cons. destruct (decide _); [|by apply IH].
    rewrite fmap_cons. apply NoDup_cons. split; [|by apply IH].
    intros Hin. apply Hu. apply list_elem_of_fmap in Hin as (v & E & Hv).
    apply list_elem_of_filter in Hv as [_ Hv]. apply list_elem_of_fmap. by exists v.
  - unfold getAllUrls. apply (StronglySorted_fmap select newestFirst newerFirst); [done|].
    apply StronglySorted_merge_sort; apply _.
Qed.

(** X15: listing and deletion agree in a reachable state.  [deleteUrl]
    succeeds for a user and a code exactly when [getAllUrls] lists that code
    for the user; and after a successful deletion the listing of every user
    is what it was, without that code. *)
Theorem deleteUrl_iff_listed uid code st :
  reachable baseUrl toDataURL st ->
  ((exists u, fst (deleteUrl code uid st) = Ok u) <->
   code ∈ sum_urlCode <$> getAllUrls uid st) /\
  (forall u, fst (deleteUrl code uid st) = Ok u ->
     forall uid' s, s ∈ getAllUrls uid' (snd (deleteUrl code uid st)) <->
                    s ∈ getAllUrls uid' st /\ sum_urlCode s <> code).
Proof.
  intros Hr. split.
  - rewrite list_elem_of_fmap. split.
    + intros [u H]. destruct (store st !! code) as [v|] eqn:Es;
        [|by rewrite deleteUrl_missing in H].
      destruct (decide (toString (userId v) = toString uid)) as [Ho|Ho];
        [|by rewrite (deleteUrl_other_owner _ _ _ _ Es Ho) in H].
      assert (Hw : wellFormed baseUrl toDataURL code v)
        by (apply (reachable_wellFormed baseUrl toDataURL st Hr); by left).
      exists (select v). split; [simpl; by rewrite (proj1 Hw)|].
      apply reachable_listed; [done|]. exists v. simpl.
      by rewrite (proj1 Hw).
    + intros (s & -> & Hs). apply reachable_listed in Hs as (u & Hu & Ho & _); [|done].
      exists u. by rewrite (deleteUrl_owner _ _ _ _ Hu Ho).
  - intros u H uid' s.
    destruct (store st !! code) as [v|] eqn:Es;
      [|by rewrite deleteUrl_missing in H].
    destruct (decide (toString (userId v) = toString uid)) as [Ho|Ho];
      [|by rewrite (deleteUrl_other_owner _ _ _ _ Es Ho) in H].
    rewrite (deleteUrl_owner _ _ _ _ Es Ho). simpl.
    rewrite !elem_of_getAllUrls. simpl. split.
    + intros (c & w & Hc & Hw & ->).
      apply lookup_delete_Some in Hc as [Hne Hc].
      assert (Hf : wellFormed baseUrl toDataURL c w)
        by (apply (reachable_wellFormed baseUrl toDataURL st Hr); by left).
      split; [by exists c, w|]. simpl. rewrite (proj1 Hf). congruence.
    + intros [(c & w & Hc & Hw & ->) Hne].
      assert (Hf : wellFormed baseUrl toDataURL c w)
        by (apply (reachable_wellFormed baseUrl toDataURL st Hr); by left).
      exists c, w. split; [|done]. apply lookup_delete_Some. split; [|done].
      simpl in Hne. rewrite (proj1 Hf) in Hne. congruence.
Qed.

End Listing.

(** ** Binary64 arithmetic: products, sums and dates *)

Lemma iter_pos_comm {A} (f : A -> A) p x :
  SpecFloat.iter_pos f p (f x) = f (SpecFloat.iter_pos f p x).
Proof.
  revert x. induction p as [p IH|p IH|]; intros x; simpl; [|by rewrite !IH|done].
  by rewrite !IH.
Qed.

Lemma iter_pos_succ {A} (f : A -> A) p x :
  SpecFloat.iter_pos f (Pos.succ p) x = f (SpecFloat.iter_pos f p x).
Proof.
  revert x. induction p as [p IH|p IH|]; intros x; simpl.
  - rewrite !IH. by rewrite !iter_pos_comm.
  - by rewrite !iter_pos_comm.
  - done.
Qed.

Lemma shr_1_even m : 0 < m ->
  shr_1 (Build_shr_record (2 * m) false false) = Build_shr_record m false false.
Proof. intros H. destruct m; try lia. done. Qed.

Lemma iter_shr_1_exact m s :
  0 < m ->
  SpecFloat.iter_pos shr_1 s (Build_shr_record (m * 2 ^ Z.pos s) false false) =
  Build_shr_record m false false.
Proof.
  intros Hm. revert m Hm. induction s as [|s IH] using Pos.peano_ind; intros m Hm.
  - simpl. replace (m * 2 ^ 1) with (2 * m) by lia. by apply shr_1_even.
  - rewrite iter_pos_succ, Pos2Z.inj_succ, Z.pow_succ_r by lia.
    replace (m * (2 * 2 ^ Z.pos s)) with ((2 * m) * 2 ^ Z.pos s) by lia.
    rewrite IH by lia. by apply shr_1_even.
Qed.

(** Rounding a mantissa that only has zeros below its 53 leading bits is
    exact. *)
Lemma binary_round_aux_exact M s e :
  2 ^ 52 <= M < 2 ^ 53 -> 0 <= s -> -1074 <= e + s <= 970 -> -1021 <= 53 + s + e ->
  binary_round_aux 53 1024 false (M * 2 ^ s) e loc_Exact =
  S754_finite false (Z.to_pos M) (e + s).
Proof.
  intros HM Hs He He'. unfold binary_round_aux, shr_fexp.
  assert (Hd : Zdigits2 (M * 2 ^ s) = 53 + s).
  { apply Zdigits2_unique; [|lia].
    replace (53 + s - 1) with (52 + s) by lia. rewrite !Z.pow_add_r by lia.
    pose proof (Z.pow_pos_nonneg 2 s). nia. }
  rewrite Hd, fexp53 by lia.
  replace (53 + s + e - 53 - e) with s by lia.
  assert (Hsh : shr (shr_record_of_loc (M * 2 ^ s) loc_Exact) e s =
                (Build_shr_record M false false, e + s)).
  { destruct s as [|p|p]; try lia.
    - simpl. rewrite Z.mul_1_r. by rewrite Z.add_0_r.
    - cbn [shr shr_record_of_loc]. by rewrite iter_shr_1_exact by lia. }
  rewrite Hsh. cbn [shr_m loc_of_shr_record round_nearest_even].
  cbv zeta.
  rewrite (Zdigits2_unique M 53) by lia.
  rewrite fexp53 by lia. replace (53 + (e + s) - 53 - (e + s)) with 0 by lia.
  cbn [shr shr_record_of_loc shr_m].
  destruct M as [|p|p]; try lia.
  destruct (Z.leb_spec (e + s) (1024 - 53)); [done|lia].
Qed.

Lemma digits_mul a b da db d :
  2 ^ (da - 1) <= a < 2 ^ da -> 2 ^ (db - 1) <= b < 2 ^ db ->
  2 ^ (d - 1) <= a * b < 2 ^ d -> 0 < da -> 0 < db -> 0 < d ->
  da + db - 1 <= d <= da + db.
Proof.
  intros Ha Hb Hv ? ? ?.
  pose proof (Z.pow_pos_nonneg 2 (da - 1)). pose proof (Z.pow_pos_nonneg 2 (db - 1)).
  split.
  - destruct (Z.le_gt_cases (da + db - 1) d) as [|Hlt]; [done|].
    assert (2 ^ d <= 2 ^ (da - 1 + (db - 1))) by (apply Z.pow_le_mono_r; lia).
    rewrite Z.pow_add_r in * by lia. nia.
  - destruct (Z.le_gt_cases d (da + db)) as [|Hlt]; [done|].
    assert (2 ^ (da + db) <= 2 ^ (d - 1)) by (apply Z.pow_le_mono_r; lia).
    rewrite Z.pow_add_r in * by lia. nia.
Qed.

Lemma num_mul_exact a b :
  0 < a -> 0 < b -> a * b < 2 ^ 53 -> num_mul (num a) (num b) = num (a * b).
Proof.
  intros Ha Hb Hab.
  assert (a < 2 ^ 53 /\ b < 2 ^ 53) as [? ?] by nia.
  destruct (num_normal a ltac:(lia)) as (da & Hda & Hda' & HMa & ->).
  destruct (num_normal b ltac:(lia)) as (db & Hdb & Hdb' & HMb & ->).
  destruct (num_normal (a * b) ltac:(lia)) as (d & Hd & Hd' & HM & ->).
  pose proof (digits_mul a b da db d Hda Hdb Hd ltac:(lia) ltac:(lia) ltac:(lia)) as Hdd.
  unfold num_mul, SFmul. cbn [xorb].
  rewrite Pos2Z.inj_mul, !Z2Pos.id by lia.
  set (s := d + 53 - da - db).
  replace (a * 2 ^ (53 - da) * (b * 2 ^ (53 - db)))
    with ((a * b * 2 ^ (53 - d)) * 2 ^ s).
  2:{ unfold s. rewrite <- !Z.mul_assoc. f_equal.
      replace (2 ^ (53 - da) * (b * 2 ^ (53 - db))) with (b * (2 ^ (53 - da) * 2 ^ (53 - db))) by lia.
      f_equal. rewrite <- !Z.pow_add_r by lia. f_equal. lia. }
  rewrite binary_round_aux_exact by (unfold s; lia).
  f_equal. unfold s. lia.
Qed.

Lemma digits_le a b da db :
  2 ^ (da - 1) <= a < 2 ^ da -> 2 ^ (db - 1) <= b < 2 ^ db -> a <= b ->
  0 < da -> 0 < db -> da <= db.
Proof.
  intros Ha Hb Hab ? ?.
  destruct (Z.le_gt_cases da db) as [|Hlt]; [done|].
  assert (2 ^ db <= 2 ^ (da - 1)) by (apply Z.pow_le_mono_r; lia). lia.
Qed.

Lemma shl_align_fst M d e' :
  0 < M -> 0 <= d - 53 - e' ->
  Z.pos (shl_align (Z.to_pos M) (d - 53) e').1 = M * 2 ^ (d - 53 - e').
Proof.
  intros HM Hd. unfold shl_align.
  destruct (e' - (d - 53)) as [|p|p] eqn:E; try lia.
  - replace (d - 53 - e') with 0 by lia. simpl. rewrite Z2Pos.id by lia. lia.
  - simpl. rewrite iter_xO, Z2Pos.id by lia. f_equal. f_equal. lia.
Qed.

Lemma num_add_exact a b :
  0 < a -> 0 < b -> a + b < 2 ^ 53 -> num_add (num a) (num b) = num (a + b).
Proof.
  intros Ha Hb Hab.
  destruct (num_normal a ltac:(lia)) as (da & Hda & Hda' & HMa & ->).
  destruct (num_normal b ltac:(lia)) as (db & Hdb & Hdb' & HMb & ->).
  destruct (num_normal (a + b) ltac:(lia)) as (d & Hd & Hd' & HM & ->).
  pose proof (digits_le a (a + b) da d Hda Hd ltac:(lia) ltac:(lia) ltac:(lia)).
  pose proof (digits_le b (a + b) db d Hdb Hd ltac:(lia) ltac:(lia) ltac:(lia)).
  unfold num_add, SFadd. cbv zeta. cbn [cond_Zopp].
  set (ez := Z.min (da - 53) (db - 53)).
  rewrite !shl_align_fst by (unfold ez; lia).
  set (j := - ez).
  assert (Hj : 0 <= j <= 52) by (unfold j, ez; lia).
  replace (a * 2 ^ (53 - da) * 2 ^ (da - 53 - ez) + b * 2 ^ (53 - db) * 2 ^ (db - 53 - ez))
    with ((a + b) * 2 ^ j).
  2:{ rewrite <- !Z.mul_assoc, <- !Z.pow_add_r by (unfold ez; lia).
      replace (53 - da + (da - 53 - ez)) with j by (unfold j; lia).
      replace (53 - db + (db - 53 - ez)) with j by (unfold j; lia). lia. }
  pose proof (Z.pow_pos_nonneg 2 j ltac:(lia) ltac:(lia)).
  assert (Hv : Zdigits2 ((a + b) * 2 ^ j) = d + j).
  { apply Zdigits2_unique; [|lia].
    replace (d + j - 1) with (d - 1 + j) by lia. rewrite !Z.pow_add_r by lia. nia. }
  unfold binary_normalize.
  destruct ((a + b) * 2 ^ j) as [|p|p] eqn:Ep; try lia.
  unfold binary_round. change (Z.pos (digits2_pos p)) with (Zdigits2 (Z.pos p)).
  rewrite Hv, fexp53 by (unfold ez in *; lia).
  unfold shl_align.
  destruct (d + j + ez - 53 - ez) as [|q|q] eqn:Eq; try (unfold j in *; lia).
  - rewrite <- Ep.
    replace ((a + b) * 2 ^ j) with ((a + b) * 2 ^ (53 - d) * 2 ^ 0).
    2:{ rewrite Z.mul_1_r. do 2 f_equal. unfold j in *. lia. }
    rewrite binary_round_aux_exact by (unfold j in *; lia).
    f_equal. unfold j in *. lia.
  - rewrite <- Ep.
    replace ((a + b) * 2 ^ j) with ((a + b) * 2 ^ (53 - d) * 2 ^ Z.pos q).
    2:{ rewrite <- Z.mul_assoc, <- Z.pow_add_r by lia. do 2 f_equal. unfold j in *. lia. }
    rewrite binary_round_aux_exact by (unfold j in *; lia).
    f_equal. unfold j in *. lia.
Qed.

Lemma newDate_num v : 0 < v <= maxTime -> newDate (num v) = Some v.
Proof.
  intros Hv. assert (maxTime < 2 ^ 53) by (by vm_compute).
  destruct (num_normal v ltac:(lia)) as (d & Hd & Hd' & HM & ->).
  unfold newDate. cbv zeta. rewrite Z2Pos.id by lia.
  pose proof (Z.pow_pos_nonneg 2 (53 - d) ltac:(lia) ltac:(lia)).
  destruct (Z.leb_spec 0 (d - 53)).
  - assert (d = 53) as -> by lia. change (2 ^ (53 - 53)) with 1. rewrite !Z.mul_1_r.
    destruct (Z.leb_spec v maxTime); [done|lia].
  - replace (- (d - 53)) with (53 - d) by lia.
    destruct (Z.leb_spec (v * 2 ^ (53 - d)) (maxTime * 2 ^ (53 - d))); [|nia].
    by rewrite Z.div_mul by lia.
Qed.

(** The date [shortenUrl] builds: exact as long as it is a time value. *)
Lemma newDate_sum now0 n :
  0 < now0 -> 0 <= n -> now0 + n * 1000 <= maxTime ->
  newDate (num_add (num now0) (num_mul (num n) (num 1000))) = Some (now0 + n * 1000).
Proof.
  intros H0 Hn Hs. assert (maxTime < 2 ^ 53) by (by vm_compute).
  destruct (Z.eq_dec n 0) as [->|Hne].
  - change (num_mul (num 0) (num 1000)) with (S754_zero false).
    destruct (num_normal now0 ltac:(lia)) as (d & _ & _ & _ & E).
    replace (num_add (num now0) (S754_zero false)) with (num now0) by (by rewrite E).
    rewrite newDate_num by lia. f_equal. lia.
  - rewrite num_mul_exact by lia. rewrite num_add_exact by lia.
    apply newDate_num. lia.
Qed.

(** ** The handlers *)

Section Handlers.

Variable baseUrl : string.
Variable toDataURL : string -> string.
Variable toISODate : Z -> string.
Variable isURL : string -> bool.
Variable encodeURI : string -> string.

(** The record a successful [createShortUrl] filed. *)
Lemma createShortUrl_record now nano long customAlias expires uid st u st' :
  createShortUrl baseUrl toDataURL now nano long customAlias expires uid st
    = (Ok u, st') ->
  let code := if truthy customAlias then default "" customAlias else nano in
  u = preSave now (newUrl now code long (baseUrl +:+ "/" +:+ code)
                     (toDataURL (baseUrl +:+ "/" +:+ code)) expires uid).
Proof.
  intros H code. revert H.
  unfold createShortUrl, createShortUrl_try. fold code. intros H.
  destruct (truthy customAlias && negb (aliasRegex (default "" customAlias)));
    [done|].
  destruct (truthy customAlias && bool_decide _); [done|].
  match type of H with context [save_new ?n ?x ?s] =>
    destruct (save_new n x s) as [[u1 s1]|m] eqn:E end; [|done].
  simpl in H. injection H as <- <-.
  by apply save_new_Ok in E as (E1 & E2 & E3).
Qed.

Lemma preSave_newUrl now code long short qr expires uid :
  let u := preSave now (newUrl now code long short qr expires uid) in
  longUrl u = long /\ shortUrl u = short /\ qrCode u = qr /\ createdAt u = now /\
  expiresAt u = expires /\
  (isExpired u = true <-> exists d, expires = Some d /\ d < now).
Proof.
  unfold preSave, newUrl. simpl. destruct expires as [d|]; simpl.
  - destruct (Z.ltb_spec d now); simpl; repeat split; try done.
    + intros _. by exists d.
    + intros [d' [[= <-] ?]]. lia.
  - repeat split; try done. by intros (? & ? & _).
Qed.

(** X16: the redirect handler in a reachable state, for a code whose stored
    record is neither flagged nor past its deadline: the answer is the
    redirect to the long URL of the record; afterwards the collection and
    the cache hold the record with exactly one more click, the event of this
    request appended; no other code is touched. *)
Theorem redirect_counts_one_click st now now' code rq u :
  reachable baseUrl toDataURL st ->
  store st !! code = Some u ->
  storeExpired now u = false ->
  exists st',
    redirect now now' code rq st = (redirectTo (longUrl u), st') /\
    store st' !! code = Some (inc_push (clickOf now' rq) u) /\
    cache st' !! code = Some (inc_push (clickOf now' rq) u) /\
    forall code', code' <> code ->
      store st' !! code' = store st !! code' /\
      cache st' !! code' = cache st !! code'.
Proof.
  intros Hr Hs He.
  pose proof (reachable_coherent baseUrl toDataURL st Hr) as Hco.
  unfold redirect.
  destruct (getUrl_cases now code st) as [(c & Hc & Hf & E)|[Hn E]].
  - rewrite (Hco code c u Hc Hs) in *. rewrite E.
    unfold trackClick, findOneAndUpdate. rewrite Hs. simpl.
    eexists. split; [reflexivity|]. simpl. rewrite !lookup_insert_eq.
    split; [done|]. split; [done|]. intros code' Hne.
    by rewrite !lookup_insert_ne.
  - rewrite Hs, He in E. rewrite E.
    unfold trackClick, findOneAndUpdate. simpl. rewrite Hs. simpl.
    eexists. split; [reflexivity|]. simpl. rewrite !lookup_insert_eq.
    split; [done|]. split; [done|]. intros code' Hne.
    by rewrite !lookup_insert_ne.
Qed.

(** X17: a redirect answered with 404 carries the body [URL not found]
    (also when the record has expired) and counts nothing: every record of
    the collection is still there with the clicks and the analytics it
    had. *)
Theorem redirect_404_counts_nothing st now now' code rq r st' :
  redirect now now' code rq st = (r, st') ->
  statusCode r = 404%nat ->
  body r = BError "URL not found" /\
  forall code' u, store st !! code' = Some u ->
    exists u', store st' !! code' = Some u' /\
               clicks u' = clicks u /\ analytics u' = analytics u.
Proof.
  unfold redirect. intros H Hst.
  destruct (getUrl_cases now code st) as [(c & Hc & Hf & E)|[Hn E]].
  - rewrite E in H. destruct (trackClick now' code rq st) as [o st2].
    injection H as <- <-. done.
  - destruct (store st !! code) as [v|] eqn:Es.
    + destruct (storeExpired now v).
      * rewrite E in H. injection H as <- <-. split; [done|]. simpl.
        intros code' u Hu. destruct (decide (code' = code)) as [->|Hne].
        -- rewrite lookup_insert_eq. eexists. split; [done|].
           assert (u = v) as -> by congruence.
           destruct (preSave_fields now (set_isExpired true v)) as (_ & F2 & F3 & _).
           by rewrite F2, F3.
        -- rewrite lookup_insert_ne by done. by exists u.
      * rewrite E in H. destruct (trackClick now' code rq _) as [o st2].
        injection H as <- <-. done.
    + rewrite E in H. injection H as <- <-. split; [done|]. simpl.
      intros code' u Hu. by exists u.
Qed.

(** X18: a code that is gone from the collection but still fresh in the
    cache keeps redirecting to its long URL, and the click is lost: the
    state is left exactly as it was. *)
Theorem redirect_deleted_code_from_cache st now now' code rq c :
  store st !! code = None ->
  cache st !! code = Some c ->
  cacheFresh now c = true ->
  redirect now now' code rq st = (redirectTo (longUrl c), st).
Proof.
  intros Hs Hc Hf. unfold redirect. rewrite (getUrl_hit now code st c Hc Hf).
  unfold trackClick, findOneAndUpdate. rewrite Hs. simpl. by destruct st.
Qed.

(** X19: the answers of the delete handler.  404 [No such URL] when the
    collection has no record of the code, 403 when the string forms of the
    owner and of the requesting id differ, 200 otherwise; only the 200
    changes the state, by removing the record from the collection (the
    cache is left alone); the 500 of the handler is never sent. *)
Theorem deleteUrl_handler_status code uid st :
  deleteUrl_handler code uid st =
  match store st !! code with
  | None => (status_json 404 (BStatus "CLIENT_ERROR" "No such URL"), st)
  | Some u =>
      if decide (toString (userId u) = toString uid)
      then (json (BStatus "SUCCESS" "URL deleted successfully"),
            mkState (delete code (store st)) (cache st))
      else (status_json 403 (BStatus "AUTH_ERROR" "Authorization error"), st)
  end.
Proof.
  unfold deleteUrl_handler. destruct (store st !! code) as [u|] eqn:Es.
  - destruct (decide _) as [Ho|Ho].
    + by rewrite (deleteUrl_owner _ _ _ _ Es Ho).
    + by rewrite (deleteUrl_other_owner _ _ _ _ Es Ho).
  - by rewrite deleteUrl_missing.
Qed.

(** X20: the answers of the QR code handler in a reachable state.  For a
    code the collection holds: 500 with the [Expired] message when the
    record is flagged or past its deadline, else 200 with the QR code of
    [baseUrl/code] and that short URL.  For a code it does not hold: the
    same 200 when the cache still has a fresh entry, else 404 with the
    [NotFound] message. *)
Theorem getQrCode_status st now code :
  reachable baseUrl toDataURL st ->
  let short := baseUrl +:+ "/" +:+ code in
  let found := json (BQr (toDataURL short) short) in
  fst (getQrCode now code st) =
  match store st !! code, cache st !! code with
  | Some u, _ =>
      if storeExpired now u then status_json 500 (BError Expired) else found
  | None, Some c =>
      if cacheFresh now c then found else status_json 404 (BError NotFound)
  | None, None => status_json 404 (BError NotFound)
  end.
Proof.
  intros Hr short found.
  pose proof (reachable_coherent baseUrl toDataURL st Hr) as Hco.
  pose proof (reachable_wellFormed baseUrl toDataURL st Hr) as Hwf.
  assert (Hq : forall u, known st code u ->
            json (BQr (qrCode u) (shortUrl u)) = found).
  { intros u Hu. destruct (Hwf code u Hu) as (_ & _ & _ & H4 & H5 & _).
    unfold found, short. by rewrite H5, H4. }
  unfold getQrCode.
  destruct (store st !! code) as [u|] eqn:Es.
  - pose proof (getUrl_coherent_store st code u now Hco Es) as Hg.
    destruct (getUrl now code st) as [[v|m] st1]; simpl in Hg.
    + destruct (storeExpired now u); [done|]. injection Hg as ->. simpl.
      apply Hq. by left.
    + destruct (storeExpired now u); [|done]. by injection Hg as ->.
  - destruct (getUrl_cases now code st) as [(c & Hc & Hf & E)|[Hn E]].
    + rewrite E, Hc, Hf. simpl. apply Hq. by right.
    + rewrite Es in E. rewrite E. simpl.
      destruct (cache st !! code) as [c|] eqn:Ec; [|done].
      by rewrite (Hn c eq_refl).
Qed.

Lemma createShortUrl_invalidDate_Throw nano long customAlias uid st :
  exists m,
    createShortUrl_invalidDate baseUrl toDataURL nano long customAlias uid st
    = (Throw m, st).
Proof.
  unfold createShortUrl_invalidDate.
  destruct (truthy customAlias && negb (aliasRegex (default "" customAlias)));
    [by eexists|].
  destruct (truthy customAlias && bool_decide _); by eexists.
Qed.

(** A sum that is no time value makes an Invalid Date of [expiresAt], which
    the schema refuses: the request is answered with a 400 and leaves the
    state as it was. *)
Lemma shortenUrl_invalid_date now0 now nano b uid st :
  expiresAtOf now0 (body_expiresIn b) = DateInvalid ->
  exists m,
    shortenUrl baseUrl toDataURL now0 now nano b uid st
    = (status_json 400 (BError m), st).
Proof.
  intros E. unfold shortenUrl. rewrite E. cbv zeta.
  destruct (createShortUrl_invalidDate_Throw nano (default "" (body_longUrl b))
              (body_customAlias b) uid st) as [m ->].
  by exists m.
Qed.

(** What a 200 of [shortenUrl] says of the call it made. *)
Lemma shortenUrl_200 now0 now nano b uid st r st' :
  shortenUrl baseUrl toDataURL now0 now nano b uid st = (r, st') ->
  statusCode r = 200%nat ->
  exists expires u,
    match expiresAtOf now0 (body_expiresIn b) with
    | DateNull => expires = None
    | DateValid t => expires = Some t
    | DateInvalid => False
    end /\
    createShortUrl baseUrl toDataURL now nano (default "" (body_longUrl b))
      (body_customAlias b) expires uid st = (Ok u, st') /\
    body r = BShortened (shortUrl u) (qrCode u) (createdAt u) (expiresAt u).
Proof.
  unfold shortenUrl. cbv zeta. intros H Hst.
  destruct (expiresAtOf now0 (body_expiresIn b)) as [|d|].
  - destruct (createShortUrl _ _ _ _ _ _ _ _ _) as [[u|m] st1] eqn:E;
      injection H as <- <-; [|done].
    by exists None, u.
  - destruct (createShortUrl _ _ _ _ _ _ _ _ _) as [[u|m] st1] eqn:E;
      injection H as <- <-; [|done].
    by exists (Some d), u.
  - destruct (createShortUrl_invalidDate_Throw nano (default "" (body_longUrl b))
                (body_customAlias b) uid st) as [m E].
    rewrite E in H. by injection H as <- <-.
Qed.

(** X21: the expiry a [shortenUrl] request sets.  After a 200 the record
    is in the collection, created at the clock of the service.  It never
    expires when [expiresIn] is falsy.  When [expiresIn] is truthy,
    [parseInt] made a number [n] of it and the record expires at the time
    value of the date built from the handler's clock [now0] plus [n] times
    1000, computed in binary64: that is [now0 + n * 1000] itself for
    [0 < now0], [0 <= n] and a sum of at most [maxTime].  At an instant
    [t] not before the creation, [getUrl] returns the record exactly when
    no expiry date lies before [t]. *)
Theorem shortenUrl_expiry now0 now nano b uid st r st' t :
  shortenUrl baseUrl toDataURL now0 now nano b uid st = (r, st') ->
  statusCode r = 200%nat ->
  now <= t ->
  exists u,
    store st' !! urlCode u = Some u /\
    body r = BShortened (shortUrl u) (qrCode u) now (expiresAt u) /\
    (expiresIn_truthy (body_expiresIn b) = false -> expiresAt u = None) /\
    (expiresIn_truthy (body_expiresIn b) = true ->
     exists n d,
       expiresIn_parseInt (body_expiresIn b) = Some n /\
       expiresAt u = Some d /\
       newDate (num_add (num now0) (num_mul (num n) (num 1000))) = Some d /\
       (0 < now0 -> 0 <= n -> now0 + n * 1000 <= maxTime -> d = now0 + n * 1000)) /\
    (fst (getUrl t (urlCode u) st') = Ok u <->
     forall d, expiresAt u = Some d -> t <= d).
Proof.
  intros H Hst Ht.
  destruct (shortenUrl_200 _ _ _ _ _ _ _ _ H Hst) as (expires & u & Hd & E & Hb).
  pose proof (createShortUrl_record _ _ _ _ _ _ _ _ _ E) as Hu. cbv zeta in Hu.
  apply createShortUrl_Ok in E. cbv zeta in E.
  destruct E as (E1 & _ & _ & E4 & _ & _ & ->).
  match type of Hu with _ = preSave _ (newUrl _ ?c ?l ?s ?q ?e _) =>
    destruct (preSave_newUrl now c l s q e uid) as (F1 & F2 & F3 & F4 & F5 & F6) end.
  rewrite <- Hu in F1, F2, F3, F4, F5, F6. rewrite <- E1.
  exists u. simpl. rewrite lookup_insert_eq. split; [done|].
  split; [by rewrite Hb, F4|].
  split; [|split].
  - intros Hf. unfold expiresAtOf in Hd. rewrite Hf in Hd. congruence.
  - intros Hf. unfold expiresAtOf in Hd. rewrite Hf in Hd.
    destruct (expiresIn_parseInt (body_expiresIn b)) as [n|]; [|done].
    destruct (newDate _) as [d|] eqn:Ed; [|done].
    exists n, d. split; [done|]. split; [congruence|]. split; [done|].
    intros H0 Hn Hs. rewrite newDate_sum in Ed by done. congruence.
  - set (st1 := mkState _ _).
    destruct (getUrl_cases t (urlCode u) st1) as [(c & Hc & Hf & G)|[Hn G]].
    + unfold st1 in Hc. simpl in Hc. rewrite lookup_insert_eq in Hc.
      injection Hc as <-. rewrite G. simpl. split; [|done]. intros _ d Hd'.
      apply cacheFresh_resolvable in Hf as [_ Hf]. by apply Hf.
    + unfold st1 in G at 1. simpl in G. rewrite lookup_insert_eq in G.
      unfold storeExpired in G. destruct (isExpired u) eqn:Ex; simpl in G.
      * rewrite G. simpl. split; [done|]. intros Hd'.
        destruct (proj1 F6 eq_refl) as (d & Hd1 & Hd2).
        rewrite F5 in Hd'. specialize (Hd' d Hd1). lia.
      * destruct (expiresAt u) as [d|] eqn:Ed.
        -- destruct (Z.ltb_spec d t); rewrite G; simpl.
           ++ split; [done|]. intros Hd'. specialize (Hd' d eq_refl). lia.
           ++ split; [|done]. intros _ d' [= <-]. done.
        -- rewrite G. simpl. split; [|done]. by intros _ d' [=].
Qed.

End Handlers.

(** ** The validator and the routes *)

Section Routes.

Variable baseUrl : string.
Variable toDataURL : string -> string.
Variable toISODate : Z -> string.
Variable isURL : string -> bool.
Variable encodeURI : string -> string.







(** X24: the answers of the statistics handler.  404 with the [NotFound]
    message when the collection has no record of the code; 200 with the
    analytics object, [clicksByDate] included, when every click of the
    record carries a user agent; and 404 with the [TypeError] message as
    soon as one click carries none. *)
Theorem getUrlStats_handler_status now code st :
  match store st !! code with
  | None =>
      getUrlStats_handler toISODate now code st =
      status_json 404 (BError (statsPrefix +:+ msgNotFound))
  | Some url =>
      if decide (Forall (fun c => is_Some (userAgent c)) (analytics url)) then
        exists stats,
          getUrlStats_handler toISODate now code st =
          json (BStats stats (clicksByDate toISODate (analytics url))) /\
          aggregate now url = Ok stats /\ totalClicks stats = clicks url
      else
        getUrlStats_handler toISODate now code st =
        status_json 404 (BError (statsPrefix +:+ msgIncludesOfUndefined))
  end.
Proof.
  unfold getUrlStats_handler, getUrlStats_full.
  destruct (store st !! code) as [url|]; [|done].
  destruct (decide _) as [Hall|Hnot].
  - destruct (aggregate_partition now url Hall) as (stats & E & T & _).
    rewrite E. exists stats. simpl. split_and!; [reflexivity|reflexivity|exact T].
  - apply not_Forall_Exists in Hnot; [|apply _].
    apply Exists_exists in Hnot as (c & Hin & Hc).
    rewrite (aggregate_absent_userAgent now url c); [done| |].
    + by apply list_elem_of_In.
    + simpl in Hc. destruct (userAgent c) as [ua|]; [|done]. exfalso. apply Hc. by exists ua.
Qed.

End Routes.

(** ** Aliases, deleted and repeated *)

Section Aliases.

Variable baseUrl : string.
Variable toDataURL : string -> string.

(** X25: a deleted alias is free again.  Once its owner has deleted a
    record, [createShortUrl] with that alias succeeds (for a long URL and a
    QR code the schema accepts), for any user; the new record replaces what
    the cache still held of the old one, so that [getUrl] answers for the
    new record: with it, or with [Expired] once it is past its deadline. *)
Theorem deleteUrl_frees_alias st a uid u now nano long expires uid' :
  store st !! a = Some u ->
  toString (userId u) = toString uid ->
  aliasRegex a = true ->
  long <> "" ->
  toDataURL (baseUrl +:+ "/" +:+ a) <> "" ->
  exists v st2,
    createShortUrl baseUrl toDataURL now nano long (Some a) expires uid'
      (snd (deleteUrl a uid st)) = (Ok v, st2) /\
    longUrl v = long /\ userId v = ObjectId (toString uid') /\
    forall t, fst (getUrl t a st2) = if storeExpired t v then Throw Expired else Ok v.
Proof.
  intros Hs Ho Ha Hl Hq. rewrite (deleteUrl_owner _ _ _ _ Hs Ho). simpl.
  set (st1 := mkState _ _).
  assert (H1 : store st1 !! a = None) by apply lookup_delete_eq.
  destruct (createShortUrl_free_alias baseUrl toDataURL now nano long a expires uid'
              st1 Ha H1 Hl Hq) as (v & st2 & E).
  exists v, st2. split; [done|].
  pose proof (createShortUrl_record _ _ _ _ _ _ _ _ _ _ _ E) as Hv. cbv zeta in Hv.
  apply createShortUrl_Ok in E. cbv zeta in E.
  pose proof (aliasRegex_nonempty _ Ha) as Hne.
  rewrite (truthy_Some _ Hne) in E, Hv. simpl in E, Hv.
  destruct E as (_ & _ & _ & _ & E5 & _ & ->).
  destruct (preSave_newUrl now a long (baseUrl +:+ "/" +:+ a)
              (toDataURL (baseUrl +:+ "/" +:+ a)) expires uid') as (F1 & _).
  rewrite <- Hv in F1. split; [done|]. split; [done|].
  intros t. apply getUrl_agreeing_cache; simpl.
  - apply lookup_insert_eq.
  - intros c. rewrite lookup_insert_eq. by intros [= <-].
Qed.

Lemma createBulkUrls_loop_app env items : forall l2 i uid r r' st,
  snd (createBulkUrls_loop baseUrl toDataURL env i ((Some <$> items) ++ l2) uid r st) =
  snd (createBulkUrls_loop baseUrl toDataURL env (i + length items) l2 uid r'
         (snd (createBulkUrls_loop baseUrl toDataURL env i (Some <$> items) uid r st))).
Proof.
  induction items as [|x items IH]; intros l2 i uid r r' st.
  - simpl. rewrite Nat.add_0_r. apply createBulkUrls_loop_state.
  - rewrite fmap_cons, <- app_comm_cons, !createBulkUrls_loop_cons.
    rewrite (IH l2 (S i) uid _ r'). simpl length.
    by replace (i + S (length items))%nat with (S i + length items)%nat by lia.
Qed.

(** A call that returns was given objects only. *)
Lemma createBulkUrls_loop_Ok_objects env urls uid : forall i results st out,
  fst (createBulkUrls_loop baseUrl toDataURL env i urls uid results st) = Ok out ->
  exists items, urls = Some <$> items.
Proof.
  induction urls as [|[url|] rest IH]; intros i results st out H.
  - by exists [].
  - rewrite createBulkUrls_loop_cons in H.
    destruct (IH _ _ _ _ H) as [items ->]. by exists (url :: items).
  - done.
Qed.

Lemma stateAt_S env items uid st k url :
  items !! k = Some url ->
  stateAt baseUrl toDataURL env (Some <$> items) uid st (S k) =
  snd (createItem baseUrl toDataURL (env k) url uid
         (stateAt baseUrl toDataURL env (Some <$> items) uid st k)).
Proof.
  intros Hk. unfold stateAt, createBulkUrls.
  rewrite <- !fmap_take, (take_S_r _ _ _ Hk), fmap_app.
  rewrite (createBulkUrls_loop_app env _ _ 0 uid [] []).
  cbn [fmap list_fmap]. rewrite createBulkUrls_loop_cons. simpl.
  rewrite length_take_le by (apply Nat.lt_le_incl; by eapply lookup_lt_Some).
  done.
Qed.

Lemma stateAt_keeps env items uid st a k : forall k',
  (k <= k')%nat -> (k' <= length items)%nat ->
  is_Some (store (stateAt baseUrl toDataURL env (Some <$> items) uid st k) !! a) ->
  is_Some (store (stateAt baseUrl toDataURL env (Some <$> items) uid st k') !! a).
Proof.
  induction k' as [|k' IH]; intros Hle Hlen Hs.
  - by replace k with 0%nat in Hs by lia.
  - destruct (decide (k = S k')) as [->|Hne]; [done|].
    assert (Hk : is_Some (items !! k')) by (apply lookup_lt_is_Some; lia).
    destruct Hk as [url Hk]. rewrite (stateAt_S _ _ _ _ _ _ Hk).
    assert (Hs' : is_Some (store (stateAt baseUrl toDataURL env (Some <$> items)
                                    uid st k') !! a))
      by (apply IH; [lia|lia|done]).
    unfold createItem.
    destruct (createShortUrl_created baseUrl toDataURL (clock (env k')) (nanoid (env k'))
                (item_longUrl url) (item_customAlias url) (item_expiresAt url) uid
                (stateAt baseUrl toDataURL env (Some <$> items) uid st k') a)
      as [[-> _]|(w & Hn & _)]; [done|].
    rewrite Hn in Hs'. by destruct Hs'.
Qed.

(** X26: within one call of [createBulkUrls] an alias is created at most
    once.  When the call returns and an item with a custom alias has the
    outcome [Created], every later item of the array with the same alias
    has the outcome [Failed] with the message of an alias already in
    use. *)
Theorem createBulkUrls_repeated_alias env urls uid st results st' i j x y a short :
  (i < j)%nat ->
  createBulkUrls baseUrl toDataURL env urls uid st = (Ok results, st') ->
  urls !! i = Some (Some x) -> urls !! j = Some (Some y) ->
  a <> "" ->
  item_customAlias x = Some a -> item_customAlias y = Some a ->
  results !! i = Some (Created (item_longUrl x) short) ->
  results !! j = Some (Failed (item_longUrl y) AliasAlreadyInUse).
Proof.
  intros Hij Hok Hx Hy Hne Hax Hay Hi.
  unfold createBulkUrls in Hok.
  assert (Hr : fst (createBulkUrls_loop baseUrl toDataURL env 0 urls uid [] st)
               = Ok results) by (by rewrite Hok).
  destruct (createBulkUrls_loop_Ok_objects env urls uid 0 [] st results Hr)
    as [items ->].
  destruct (createBulkUrls_loop_results baseUrl toDataURL env _ uid 0 [] st results Hr)
    as (outs & E & L & K).
  simpl in E. subst outs.
  destruct (K i _ Hx) as (x' & [= <-] & Ki). destruct (K j _ Hy) as (y' & [= <-] & Kj).
  rewrite Ki in Hi. rewrite Kj. simpl in Hi. simpl.
  rewrite list_lookup_fmap in Hx, Hy.
  destruct (items !! i) as [x'|] eqn:Hxi; [|done]. injection Hx as ->.
  destruct (items !! j) as [y'|] eqn:Hyj; [|done]. injection Hy as ->.
  change (snd (createBulkUrls_loop baseUrl toDataURL env 0 (take i (Some <$> items))
                 uid [] st))
    with (stateAt baseUrl toDataURL env (Some <$> items) uid st i) in Hi.
  change (snd (createBulkUrls_loop baseUrl toDataURL env 0 (take j (Some <$> items))
                 uid [] st))
    with (stateAt baseUrl toDataURL env (Some <$> items) uid st j).
  pose proof (stateAt_S env items uid st i x Hxi) as HS.
  unfold createItem in *. rewrite Hax in Hi, HS. rewrite Hay.
  destruct (createShortUrl baseUrl toDataURL (clock (env i)) (nanoid (env i))
              (item_longUrl x) (Some a) (item_expiresAt x) uid
              (stateAt baseUrl toDataURL env (Some <$> items) uid st i))
    as [[u|m] st1] eqn:Ec; [|done].
  simpl in HS.
  assert (Hra : aliasRegex a = true).
  { destruct (aliasRegex a) eqn:Hra; [done|].
    by rewrite (createShortUrl_bad_alias baseUrl toDataURL _ _ _ _ _ _ _ Hne Hra) in Ec. }
  apply createShortUrl_Ok in Ec. cbv zeta in Ec.
  rewrite (truthy_Some _ Hne) in Ec. simpl in Ec.
  destruct Ec as (_ & _ & _ & _ & _ & _ & ->).
  assert (Hj : is_Some (store (stateAt baseUrl toDataURL env (Some <$> items) uid st j)
                          !! a)).
  { apply (stateAt_keeps env items uid st a (S i)); [lia| |].
    - apply Nat.lt_le_incl. by eapply lookup_lt_Some.
    - rewrite HS. simpl. rewrite lookup_insert_eq. by eexists. }
  by rewrite (createShortUrl_taken baseUrl toDataURL _ _ _ _ _ _ _ Hra Hj).
Qed.

End Aliases.


(** ** The states the interface reaches *)

Section Interface.

Variable baseUrl : string.
Variable toDataURL : string -> string.
Variable isURL : string -> bool.
Variable encodeURI : string -> string.

Lemma reachable_run op st :
  reachable baseUrl toDataURL st -> reachable baseUrl toDataURL (run baseUrl toDataURL op st).
Proof.
  intros [ops ->]. exists (ops ++ [op]). by rewrite run_all_snoc.
Qed.

(** X27: the handlers that change the state do it by calls of the
    service only: from a state the service reaches, [POST /urls],
    [POST /urls/bulk], the redirect, the QR code handler and the delete
    handler lead to states the service reaches, whatever they answer.  So
    what holds in every reachable state holds in every state of the
    interface. *)
Theorem handlers_preserve_reachable st :
  reachable baseUrl toDataURL st ->
  (forall now0 now nano b uid,
     reachable baseUrl toDataURL
       (snd (post_urls baseUrl toDataURL isURL encodeURI now0 now nano b uid st))) /\
  (forall env b uid,
     reachable baseUrl toDataURL
       (snd (post_urls_bulk baseUrl toDataURL isURL encodeURI env b uid st))) /\
  (forall now now' code rq,
     reachable baseUrl toDataURL (snd (redirect now now' code rq st))) /\
  (forall now code, reachable baseUrl toDataURL (snd (getQrCode now code st))) /\
  (forall code uid, reachable baseUrl toDataURL (snd (deleteUrl_handler code uid st))).
Proof.
  intros Hr. split_and!.
  - intros now0 now nano b uid. unfold post_urls.
    destruct (urlValidator isURL encodeURI "/urls" b) as [r|m|b']; [done|done|].
    unfold shortenUrl. cbv zeta.
    destruct (expiresAtOf now0 (body_expiresIn b')) as [|d|].
    3:{ match goal with |- context [createShortUrl_invalidDate ?a ?b ?c ?d ?e ?f ?g] =>
          destruct (createShortUrl_invalidDate_Throw a b c d e f g) as [m ->] end.
        done. }
    all: match goal with |- context [createShortUrl ?a ?b ?c ?d ?e ?f ?g ?h ?i] =>
      pose proof (reachable_run (OpCreate c d e f g h) st Hr) as H;
      simpl in H; destruct (createShortUrl a b c d e f g h i) as [[u|m] st'] end;
      exact H.
  - intros env b uid. unfold post_urls_bulk.
    destruct (urlValidator isURL encodeURI "/urls/bulk" b) as [r|m|b']; [done|done|].
    unfold createBulkUrls_handler.
    destruct (body_urls b') as [[|url urls]|]; [done| |done].
    pose proof (reachable_run (OpBulk env (url :: urls) uid) st Hr) as H.
    simpl in H.
    by destruct (createBulkUrls baseUrl toDataURL env (url :: urls) uid st) as [[?|?] ?].
  - intros now now' code rq. unfold redirect.
    pose proof (reachable_run (OpGet now code) st Hr) as H. simpl in H.
    destruct (getUrl now code st) as [[u|m] st1]; [|done].
    pose proof (reachable_run (OpTrack now' code rq) st1 H) as H'. simpl in H'.
    by destruct (trackClick now' code rq st1).
  - intros now code. unfold getQrCode.
    pose proof (reachable_run (OpGet now code) st Hr) as H. simpl in H.
    destruct (getUrl now code st) as [[u|m] st1]; [done|].
    by destruct (includes m "not found").
  - intros code uid. unfold deleteUrl_handler.
    pose proof (reachable_run (OpDelete code uid) st Hr) as H. simpl in H.
    destruct (deleteUrl code uid st) as [[u|m] st1]; [done|].
    destruct (m =? "No such URL")%string; [done|].
    by destruct (m =? "Not authorized")%string.
Qed.

End Interface.

(** *** The statements above at concrete inputs *)

Lemma promoClicked_reachable : reachable demoBase demoCodec promoClicked.
Proof. exists [createPromo; OpTrack 2000 "promo" browserReq]. reflexivity. Qed.

Lemma promoNamed_reachable : reachable demoBase demoCodec promoNamed.
Proof.
  exists [createPromo; OpTrack 2000 "promo" browserReq; OpTrack 2500 "promo" namedReq].
  reflexivity.
Qed.

Lemma createShortUrl_generated_code_witness :
  truthy None = false /\
  exists u,
    fst (createShortUrl demoBase demoCodec 1000 "Ab3dE6gh" "https://example.com"
           None None alice init) = Ok u /\
    urlCode u = "Ab3dE6gh" /\ longUrl u = "https://example.com" /\
    store (snd (createShortUrl demoBase demoCodec 1000 "Ab3dE6gh" "https://example.com"
                  None None alice init)) !! "Ab3dE6gh" = Some u.
Proof.
  split; [reflexivity|].
  assert (H1 : "https://example.com" <> "") by discriminate.
  assert (H2 : "Ab3dE6gh" <> "") by discriminate.
  assert (H3 : demoCodec (demoBase +:+ "/" +:+ "Ab3dE6gh") <> "") by discriminate.
  exact (createShortUrl_generated_code demoBase demoCodec 1000 "Ab3dE6gh"
           "https://example.com" None None alice init eq_refl H1 H2 H3).
Defined.

Lemma getUrl_after_create_witness :
  createShortUrl demoBase demoCodec 1000 "Ab3dE6gh" "https://example.com"
    (Some "promo") None aliceToken init = (Ok promo0, promoCreated) /\
  resolvable 9999 promo0 /\
  clicks promo0 = 0%nat /\ analytics promo0 = [] /\
  getUrl 9999 (urlCode promo0) promoCreated = (Ok promo0, promoCreated).
Proof.
  assert (E : createShortUrl demoBase demoCodec 1000 "Ab3dE6gh" "https://example.com"
                (Some "promo") None aliceToken init = (Ok promo0, promoCreated))
    by (vm_compute; reflexivity).
  assert (R : resolvable 9999 promo0) by (split; [reflexivity|discriminate]).
  split; [exact E|]. split; [exact R|].
  exact (getUrl_after_create demoBase demoCodec 1000 "Ab3dE6gh" "https://example.com"
           (Some "promo") None aliceToken init promo0 promoCreated 9999 E R).
Defined.

Lemma getUrl_again_witness :
  getUrl 2000 "sale" saleCreated = (Ok sale0, saleCreated) /\
  resolvable 2000 sale0 /\ cache saleCreated !! "sale" = Some sale0 /\
  store saleCreated = store saleCreated /\
  getUrl 2000 "sale" saleCreated = (Ok sale0, saleCreated).
Proof.
  assert (E : getUrl 2000 "sale" saleCreated = (Ok sale0, saleCreated))
    by (vm_compute; reflexivity).
  split; [exact E|].
  exact (getUrl_again 2000 "sale" saleCreated sale0 saleCreated E).
Defined.

Lemma record_fields_are_immutable_witness :
  Forall (keeps "promo") [OpTrack 2000 "promo" headless; OpGet 3000 "promo"] /\
  store promoCreated !! "promo" = Some promo0 /\
  exists u',
    store (run_all demoBase demoCodec
             [OpTrack 2000 "promo" headless; OpGet 3000 "promo"] promoCreated)
      !! "promo" = Some u' /\
    laterOf promo0 u'.
Proof.
  assert (K : Forall (keeps "promo") [OpTrack 2000 "promo" headless; OpGet 3000 "promo"])
    by (repeat constructor).
  assert (S0 : store promoCreated !! "promo" = Some promo0) by (vm_compute; reflexivity).
  split; [exact K|]. split; [exact S0|].
  exact (record_fields_are_immutable demoBase demoCodec _ promoCreated "promo" promo0 K S0).
Defined.

Lemma reachable_records_wellFormed_witness :
  reachable demoBase demoCodec promoHeadless /\
  (forall code c r,
     cache promoHeadless !! code = Some c -> store promoHeadless !! code = Some r ->
     c = r) /\
  (forall code u, known promoHeadless code u -> wellFormed demoBase demoCodec code u).
Proof.
  split; [apply promoHeadless_reachable|].
  exact (reachable_records_wellFormed demoBase demoCodec promoHeadless
           promoHeadless_reachable).
Defined.

Lemma getUrl_decided_by_store_witness :
  reachable demoBase demoCodec saleCreated /\
  store saleCreated !! "sale" = Some sale0 /\
  fst (getUrl 6000 "sale" saleCreated) =
    (if storeExpired 6000 sale0 then Throw Expired else Ok sale0) /\
  storeExpired 6000 sale0 = true.
Proof.
  assert (S0 : store saleCreated !! "sale" = Some sale0) by (vm_compute; reflexivity).
  split; [apply saleCreated_reachable|]. split; [exact S0|]. split; [|reflexivity].
  exact (getUrl_decided_by_store demoBase demoCodec saleCreated "sale" sale0 6000
           saleCreated_reachable S0).
Defined.

Lemma trackClick_k_times_witness :
  store promoCreated !! "promo" = Some promo0 /\
  exists u',
    store (trackClicks "promo" [(2000, headless); (2500, browserReq)] promoCreated)
      !! "promo" = Some u' /\
    clicks u' = (clicks promo0 + 2)%nat /\
    analytics u' = analytics promo0 ++ [clickOf 2000 headless; clickOf 2500 browserReq].
Proof.
  assert (S0 : store promoCreated !! "promo" = Some promo0) by (vm_compute; reflexivity).
  split; [exact S0|].
  destruct (trackClick_k_times "promo" [(2000, headless); (2500, browserReq)]
              promoCreated promo0 S0) as (u' & H1 & H2 & H3 & _).
  exists u'. split; [exact H1|]. split; [exact H2|exact H3].
Defined.

Lemma getUrlStats_histograms_add_up_witness :
  reachable demoBase demoCodec promoNamed /\
  store promoNamed !! "promo" = Some promo2 /\
  exists stats,
    getUrlStats 3000 "promo" promoNamed = Ok stats /\
    totalClicks stats = 2%nat /\
    histogramTotal (browserStats stats) = totalClicks stats /\
    (forall label, is_Some (browserStats stats !! label) -> label ∈ browserLabels) /\
    histogramTotal (referrerStats stats) = 1%nat.
Proof.
  assert (S0 : store promoNamed !! "promo" = Some promo2) by (vm_compute; reflexivity).
  split; [apply promoNamed_reachable|]. split; [exact S0|].
  destruct (getUrlStats 3000 "promo" promoNamed) as [stats|m] eqn:E;
    [|vm_compute in E; discriminate E].
  exists stats. split; [reflexivity|].
  destruct (getUrlStats_histograms_add_up demoBase demoCodec promoNamed 3000 "promo"
              promo2 stats promoNamed_reachable S0 E) as (H1 & H2 & H3 & _).
  split; [|split; [exact H1|split; [exact H2|exact H3]]].
  pose proof E as E'. vm_compute in E'. by injection E' as <-.
Defined.

Lemma clicksByDate_chronological_witness :
  Forall (fun c => String.length (januaryDate (timestamp c)) = 10%nat) januaryClicks /\
  StronglySorted dateLt (clicksByDate januaryDate januaryClicks) /\
  clicksByDate januaryDate januaryClicks =
    [("1970-01-01", 1%nat); ("1970-01-02", 1%nat); ("1970-01-11", 2%nat)].
Proof.
  assert (W : Forall (fun c => String.length (januaryDate (timestamp c)) = 10%nat)
                januaryClicks) by (repeat constructor).
  split; [exact W|]. split; [|vm_compute; reflexivity].
  exact (clicksByDate_chronological januaryDate januaryClicks 10%nat W).
Defined.

Lemma getAllUrls_lists_the_owners_records_witness :
  reachable demoBase demoCodec promoCreated /\
  (forall s, s ∈ getAllUrls alice promoCreated <->
     exists u, store promoCreated !! sum_urlCode s = Some u /\
               toString (userId u) = toString alice /\ s = select u) /\
  NoDup (sum_urlCode <$> getAllUrls alice promoCreated) /\
  StronglySorted newerFirst (getAllUrls alice promoCreated) /\
  getAllUrls alice promoCreated = [select promo0].
Proof.
  split; [apply promoCreated_reachable|].
  destruct (getAllUrls_lists_the_owners_records demoBase demoCodec alice promoCreated
              promoCreated_reachable) as (H1 & H2 & H3).
  split; [exact H1|]. split; [exact H2|]. split; [exact H3|].
  vm_compute. reflexivity.
Defined.

Lemma deleteUrl_iff_listed_witness :
  reachable demoBase demoCodec promoCreated /\
  ((exists u, fst (deleteUrl "promo" alice promoCreated) = Ok u) <->
   "promo" ∈ sum_urlCode <$> getAllUrls alice promoCreated) /\
  fst (deleteUrl "promo" alice promoCreated) = Ok promo0 /\
  forall uid' s,
    s ∈ getAllUrls uid' (snd (deleteUrl "promo" alice promoCreated)) <->
    s ∈ getAllUrls uid' promoCreated /\ sum_urlCode s <> "promo".
Proof.
  split; [apply promoCreated_reachable|].
  destruct (deleteUrl_iff_listed demoBase demoCodec alice "promo" promoCreated
              promoCreated_reachable) as (H1 & H2).
  assert (D : fst (deleteUrl "promo" alice promoCreated) = Ok promo0)
    by (vm_compute; reflexivity).
  split; [exact H1|]. split; [exact D|]. exact (H2 promo0 D).
Defined.

Lemma redirect_counts_one_click_witness :
  reachable demoBase demoCodec promoCreated /\
  store promoCreated !! "promo" = Some promo0 /\
  storeExpired 2000 promo0 = false /\
  exists st',
    redirect 2000 2001 "promo" browserReq promoCreated
      = (redirectTo "https://example.com", st') /\
    store st' !! "promo" = Some (inc_push (clickOf 2001 browserReq) promo0) /\
    cache st' !! "promo" = Some (inc_push (clickOf 2001 browserReq) promo0).
Proof.
  assert (S0 : store promoCreated !! "promo" = Some promo0) by (vm_compute; reflexivity).
  split; [apply promoCreated_reachable|]. split; [exact S0|]. split; [reflexivity|].
  destruct (redirect_counts_one_click demoBase demoCodec promoCreated 2000 2001 "promo"
              browserReq promo0 promoCreated_reachable S0 eq_refl)
    as (st' & H1 & H2 & H3 & _).
  exists st'. split; [exact H1|]. split; [exact H2|exact H3].
Defined.

Lemma redirect_404_counts_nothing_witness :
  statusCode (fst (redirect 6000 6001 "sale" browserReq saleCreated)) = 404%nat /\
  body (fst (redirect 6000 6001 "sale" browserReq saleCreated)) = BError "URL not found" /\
  forall code' u, store saleCreated !! code' = Some u ->
    exists u', store (snd (redirect 6000 6001 "sale" browserReq saleCreated)) !! code'
                 = Some u' /\
               clicks u' = clicks u /\ analytics u' = analytics u.
Proof.
  assert (S4 : statusCode (fst (redirect 6000 6001 "sale" browserReq saleCreated))
               = 404%nat) by (vm_compute; reflexivity).
  split; [exact S4|].
  exact (redirect_404_counts_nothing saleCreated 6000 6001 "sale" browserReq _ _
           (surjective_pairing _) S4).
Defined.

Lemma getQrCode_status_witness :
  reachable demoBase demoCodec saleCreated /\
  fst (getQrCode 2000 "sale" saleCreated) =
    json (BQr (demoCodec (demoBase +:+ "/" +:+ "sale")) (demoBase +:+ "/" +:+ "sale")) /\
  fst (getQrCode 6000 "sale" saleCreated) = status_json 500 (BError Expired) /\
  fst (getQrCode 6000 "none" saleCreated) = status_json 404 (BError NotFound).
Proof.
  split; [apply saleCreated_reachable|].
  pose proof (getQrCode_status demoBase demoCodec saleCreated 2000 "sale"
                saleCreated_reachable) as H1.
  pose proof (getQrCode_status demoBase demoCodec saleCreated 6000 "sale"
                saleCreated_reachable) as H2.
  pose proof (getQrCode_status demoBase demoCodec saleCreated 6000 "none"
                saleCreated_reachable) as H3.
  cbv zeta in H1, H2, H3.
  assert (S0 : store saleCreated !! "sale" = Some sale0) by (vm_compute; reflexivity).
  assert (S1 : store saleCreated !! "none" = None) by (vm_compute; reflexivity).
  assert (C1 : cache saleCreated !! "none" = None) by (vm_compute; reflexivity).
  rewrite S0 in H1, H2. rewrite S1, C1 in H3.
  split; [exact H1|]. split; [exact H2|exact H3].
Defined.

Lemma shortenUrl_expiry_witness :
  exists r st',
    shortenUrl demoBase demoCodec 1000 1001 "Ab3dE6gh"
      (singleBody "https://example.com" (Some 60)) alice init = (r, st') /\
    statusCode r = 200%nat /\ 1001 <= 61000 /\
    exists u,
      store st' !! urlCode u = Some u /\
      body r = BShortened (shortUrl u) (qrCode u) 1001 (expiresAt u) /\
      expiresAt u = Some 61000 /\
      (fst (getUrl 61000 (urlCode u) st') = Ok u <->
       forall d, expiresAt u = Some d -> 61000 <= d).
Proof.
  destruct (shortenUrl demoBase demoCodec 1000 1001 "Ab3dE6gh"
              (singleBody "https://example.com" (Some 60)) alice init) as [r st'] eqn:E.
  assert (S2 : statusCode r = 200%nat).
  { pose proof (f_equal (fun p => statusCode (fst p)) E) as E'.
    simpl in E'. rewrite <- E'. vm_compute. reflexivity. }
  assert (T : 1001 <= 61000) by lia.
  exists r, st'. split; [reflexivity|]. split; [exact S2|]. split; [exact T|].
  destruct (shortenUrl_expiry demoBase demoCodec 1000 1001 "Ab3dE6gh"
              (singleBody "https://example.com" (Some 60)) alice init r st' 61000 E S2 T)
    as (u & A & B & _ & D & G).
  exists u. split; [exact A|]. split; [exact B|]. split; [|exact G].
  destruct (D eq_refl) as (n & d & Hn & Hd & _ & Hx).
  injection Hn as Hn. subst n. rewrite Hd. f_equal.
  apply Hx; [lia | lia | unfold maxTime; lia].
Defined.



Lemma getUrlStats_counts_each_class_witness :
  store promoNamed !! "promo" = Some promo2 /\
  Forall (fun c => is_Some (userAgent c)) (analytics promo2) /\
  exists stats, getUrlStats 3000 "promo" promoNamed = Ok stats /\
    totalClicks stats = 2%nat /\
    lastClicked stats = Some 2500 /\
    browserStats stats !! "Chrome" = Some (JNum 2) /\
    referrerStats stats !! "https://news.example" = Some (JNum 1) /\
    referrerStats stats !! "Direct" = None /\
    referrerStats stats !! "constructor" =
      Some (JStr "function Object() { [native code] }1").
Proof.
  assert (S0 : store promoNamed !! "promo" = Some promo2) by (vm_compute; reflexivity).
  assert (A : Forall (fun c => is_Some (userAgent c)) (analytics promo2)).
  { repeat constructor; by eexists. }
  split; [exact S0|]. split; [exact A|].
  destruct (getUrlStats_counts_each_class 3000 "promo" promoNamed _ S0 A)
    as (stats & E & T & L & B & R & I).
  exists stats. split; [exact E|]. split; [exact T|]. split; [exact L|].
  split; [exact (B "Chrome")|].
  split; [exact (R "https://news.example" eq_refl)|].
  split; [exact (R "Direct" eq_refl)|].
  exact (I "constructor" _ eq_refl).
Defined.

Lemma redirect_deleted_code_from_cache_witness :
  store promoDeleted !! "promo" = None /\
  cache promoDeleted !! "promo" = Some promo0 /\
  cacheFresh 5000 promo0 = true /\
  redirect 5000 5001 "promo" browserReq promoDeleted
    = (redirectTo "https://example.com", promoDeleted).
Proof.
  assert (S0 : store promoDeleted !! "promo" = None) by (vm_compute; reflexivity).
  assert (C0 : cache promoDeleted !! "promo" = Some promo0) by (vm_compute; reflexivity).
  split; [exact S0|]. split; [exact C0|]. split; [reflexivity|].
  exact (redirect_deleted_code_from_cache promoDeleted 5000 5001 "promo" browserReq
           promo0 S0 C0 eq_refl).
Defined.

Lemma deleteUrl_frees_alias_witness :
  store promoCreated !! "promo" = Some promo0 /\
  toString (userId promo0) = toString aliceToken /\
  aliasRegex "promo" = true /\
  exists v st2,
    createShortUrl demoBase demoCodec 7000 "Qw7rT2yu" "https://example.org"
      (Some "promo") None (IdString "77aa") (snd (deleteUrl "promo" aliceToken promoCreated))
      = (Ok v, st2) /\
    longUrl v = "https://example.org" /\ userId v = ObjectId "77aa" /\
    forall t, fst (getUrl t "promo" st2) = if storeExpired t v then Throw Expired else Ok v.
Proof.
  assert (S0 : store promoCreated !! "promo" = Some promo0) by (vm_compute; reflexivity).
  assert (L : "https://example.org" <> "") by discriminate.
  assert (Q : demoCodec (demoBase +:+ "/" +:+ "promo") <> "") by discriminate.
  split; [exact S0|]. split; [reflexivity|]. split; [reflexivity|].
  exact (deleteUrl_frees_alias demoBase demoCodec promoCreated "promo" aliceToken promo0
           7000 "Qw7rT2yu" "https://example.org" None (IdString "77aa")
           S0 eq_refl eq_refl L Q).
Defined.

Lemma createBulkUrls_repeated_alias_witness :
  exists results st',
    createBulkUrls demoBase demoCodec demoEnv
      [Some (mkItem "https://example.com/a" (Some "go") None);
       Some (mkItem "https://example.com/b" (Some "go") None)] alice init
    = (Ok results, st') /\
    results !! 0%nat = Some (Created "https://example.com/a" "http://localhost:3000/go") /\
    results !! 1%nat = Some (Failed "https://example.com/b" AliasAlreadyInUse).
Proof.
  exists [Created "https://example.com/a" "http://localhost:3000/go";
          Failed "https://example.com/b" AliasAlreadyInUse],
         (snd (createBulkUrls demoBase demoCodec demoEnv
                 [Some (mkItem "https://example.com/a" (Some "go") None);
                  Some (mkItem "https://example.com/b" (Some "go") None)] alice init)).
  assert (E : createBulkUrls demoBase demoCodec demoEnv
                [Some (mkItem "https://example.com/a" (Some "go") None);
                 Some (mkItem "https://example.com/b" (Some "go") None)] alice init
              = (Ok [Created "https://example.com/a" "http://localhost:3000/go";
                     Failed "https://example.com/b" AliasAlreadyInUse],
                 snd (createBulkUrls demoBase demoCodec demoEnv
                        [Some (mkItem "https://example.com/a" (Some "go") None);
                         Some (mkItem "https://example.com/b" (Some "go") None)]
                        alice init)))
    by (vm_compute; reflexivity).
  assert (Hne : "go" <> "") by discriminate.
  split; [exact E|]. split; [reflexivity|].
  exact (createBulkUrls_repeated_alias demoBase demoCodec demoEnv _ alice init _ _ 0 1
           (mkItem "https://example.com/a" (Some "go") None)
           (mkItem "https://example.com/b" (Some "go") None)
           "go" "http://localhost:3000/go"
           (Nat.lt_0_succ 0) E eq_refl eq_refl Hne eq_refl eq_refl eq_refl).
Defined.

Lemma handlers_preserve_reachable_witness :
  reachable demoBase demoCodec promoCreated /\
  reachable demoBase demoCodec
    (snd (redirect 2000 2001 "promo" browserReq promoCreated)) /\
  reachable demoBase demoCodec
    (snd (deleteUrl_handler "promo" alice promoCreated)).
Proof.
  split; [apply promoCreated_reachable|].
  destruct (handlers_preserve_reachable demoBase demoCodec demoIsURL demoEncodeURI
              promoCreated promoCreated_reachable) as (_ & _ & H3 & _ & H5).
  split; [apply H3|apply H5].
Defined.
